(** * rljax: training-step orchestration of the algorithm base classes and FQF

    A shallow embedding of [rljax/algorithm/base.py] and
    [rljax/algorithm/fqf.py].

    Conventions of the embedding.
    - Python integers are [Z]; Python and JAX floating-point numbers are
      exact rationals in canonical form ([Qc]), so rounding, infinities and
      NaN are outside the model.
    - A Python exception is a value of [exn]; a computation that may raise
      returns [result A].  A method that mutates [self] or an external
      object is a state transformer [M S A]; the state reached at the
      point of a [raise] is kept, as in Python.
    - Objects whose class is defined outside the two files (environment,
      replay buffer, networks, optimisers, summary writer) are abstract:
      their methods are Section variables and, where a property speaks
      about which method was called, the call is recorded in a log.        *)

From Stdlib Require Import ZArith QArith Qcanon Lia.
From stdpp Require Import base option list strings numbers.

(** ** Python primitives *)

Module Py.

Inductive exn : Type :=
  | ZeroDivisionError
  | AssertionError
  | ValueError
  | IndexError
  | KeyError
  | AttributeError.

Definition result (A : Type) : Type := exn + A.

Definition ok {A} (a : A) : result A := inr a.
Definition raise {A} (e : exn) : result A := inl e.

Definition rbind {A B} (m : result A) (k : A -> result B) : result B :=
  match m with
  | inl e => inl e
  | inr a => k a
  end.

(** [a % b] on integers: the sign of the result follows the divisor, as
    [Z.modulo] does; a zero divisor raises. *)
Definition mod_ (a b : Z) : result Z :=
  if (b =? 0)%Z then raise ZeroDivisionError else ok (a mod b)%Z.

(** [x / y], true division, on floats and on integers. *)
Definition fdiv (x y : Qc) : result Qc :=
  if Qc_eq_bool y 0%Qc then raise ZeroDivisionError else ok (x / y)%Qc.

Definition float (a : Z) : Qc := Q2Qc (inject_Z a).

Definition truediv (a b : Z) : result Qc := fdiv (float a) (float b).

(** [x ** n] for a float [x] and an integer [n]. *)
Definition pow (x : Qc) (n : Z) : result Qc :=
  if (0 <=? n)%Z then ok (x ^ Z.to_nat n)%Qc
  else if Qc_eq_bool x 0%Qc then raise ZeroDivisionError
  else ok (/ (x ^ Z.to_nat (- n)))%Qc.

(** State transformers whose state survives an exception. *)
Definition M (S A : Type) : Type := S -> result A * S.

Definition ret {S A} (a : A) : M S A := fun s => (ok a, s).

Definition bind {S A B} (m : M S A) (k : A -> M S B) : M S B :=
  fun s => match m s with
           | (inl e, s') => (inl e, s')
           | (inr a, s') => k a s'
           end.

Definition get {S} : M S S := fun s => (ok s, s).
Definition gets {S A} (f : S -> A) : M S A := fun s => (ok (f s), s).
Definition modify {S} (f : S -> S) : M S unit := fun s => (ok tt, f s).
Definition lift {S A} (r : result A) : M S A := fun s => (r, s).

End Py.

Import Py.

#[global] Instance result_ret : MRet result := @ok.
#[global] Instance result_bind : MBind result := fun A B k m => rbind m k.
#[global] Instance M_ret {S} : MRet (M S) := @ret S.
#[global] Instance M_bind {S} : MBind (M S) := fun A B k m => bind m k.


(** ** [rljax.utils.soft_update] *)

Module optim.

(** A parameter tree ([hk.Params] and dictionaries of them): a leaf is an
    array, given by its entries in row-major order; a node is a dictionary,
    given by its items in the key order JAX flattens them in. *)
#[warnings="-register-all"]
Inductive pytree : Type :=
  | Leaf (a : list Qc)
  | Node (items : list (string * pytree)).

(** [jax.tree_multimap f t s] for a binary [f] acting entry by entry.  The
    two trees must have the same structure; otherwise JAX raises. *)
Fixpoint tree_multimap (f : Qc -> Qc -> Qc) (t s : pytree) {struct t}
  : result pytree :=
  match t, s with
  | Leaf a, Leaf b =>
      if (length a =? length b)%nat then ok (Leaf (zip_with f a b))
      else raise ValueError
  | Node cs, Node ds =>
      r ← (fix items (cs ds : list (string * pytree)) {struct cs}
             : result (list (string * pytree)) :=
             match cs, ds with
             | [], [] => ok []
             | (k, c) :: cs', (k', d) :: ds' =>
                 if String.eqb k k' then
                   c' ← tree_multimap f c d;
                   r ← items cs' ds';
                   mret ((k, c') :: r)
                 else raise ValueError
             | _, _ => raise ValueError
             end) cs ds;
      mret (Node r)
  | _, _ => raise ValueError
  end.

(** Modelled from the spec: [soft_update] of [rljax.utils] is imported by
    [base.py] but its module is not among the sources.  The target network
    is "a delayed copy of the online parameters, updated via soft/hard
    synchronization": every entry of the target moves the fraction [tau]
    of the way towards the online entry. *)
Definition soft_update (target_params online_params : pytree) (tau : Qc)
  : result pytree :=
  tree_multimap (fun t s => (1 - tau) * t + tau * s)%Qc
    target_params online_params.

(** Same dictionary keys at every level and same array sizes. *)
Fixpoint same_structure (t s : pytree) {struct t} : bool :=
  match t, s with
  | Leaf a, Leaf b => (length a =? length b)%nat
  | Node cs, Node ds =>
      (fix items (cs ds : list (string * pytree)) {struct cs} : bool :=
         match cs, ds with
         | [], [] => true
         | (k, c) :: cs', (k', d) :: ds' =>
             String.eqb k k' && same_structure c d && items cs' ds'
         | _, _ => false
         end) cs ds
  | _, _ => false
  end.

(** The entry of a tree at a path of dictionary keys and an array index. *)
Fixpoint assoc (k : string) (items : list (string * pytree)) : option pytree :=
  match items with
  | [] => None
  | (k', c) :: rest => if String.eqb k k' then Some c else assoc k rest
  end.

Fixpoint entry (path : list string) (i : nat) (t : pytree) : option Qc :=
  match path, t with
  | [], Leaf a => a !! i
  | k :: path', Node items =>
      match assoc k items with
      | Some c => entry path' i c
      | None => None
      end
  | _, _ => None
  end.

(** [params[key]] *)
Definition getitem (t : pytree) (key : string) : result pytree :=
  match t with
  | Node items =>
      match assoc key items with
      | Some c => ok c
      | None => raise KeyError
      end
  | Leaf _ => raise IndexError
  end.

End optim.

(** ** External libraries used by [base.py] *)

(** [haiku.PRNGSequence]: an iterator of random keys. *)
Class Haiku := {
  Rng : Type;
  Key : Type;
  PRNGSequence : Z -> Rng;
  next_key : Rng -> Key * Rng
}.

(** A gym environment as the base classes use it.  [Env] is the internal
    state of the environment object, which also holds the random state of
    [env.action_space]. *)
Class Gym := {
  Space : Type;
  State : Type;
  Action : Type;
  Env : Type;
  env_step : Env -> Action -> State * Qc * bool * Env;
  env_reset : Env -> State * Env;
  action_space_sample : Env -> Action * Env;
  _max_episode_steps : Env -> Z
}.

(** ** [class Algorithm] *)

Module Algorithm.
Section Algorithm.
Context `{Haiku, Gym}.

Record t : Type := mk {
  rng : Rng;
  env_step : Z;
  learning_step : Z;
  num_steps : Z;
  state_space : Space;
  action_space : Space;
  gamma : Qc
}.

Definition __init__ (num_steps : Z) (state_space action_space : Space)
    (seed : Z) (gamma : Qc) : t :=
  {| rng := PRNGSequence seed;
     env_step := 0;
     learning_step := 0;
     num_steps := num_steps;
     state_space := state_space;
     action_space := action_space;
     gamma := gamma |}.

Definition set_env_step (n : Z) (a : t) : t :=
  mk (rng a) n (learning_step a) (num_steps a) (state_space a)
     (action_space a) (gamma a).

Definition set_rng (r : Rng) (a : t) : t :=
  mk r (env_step a) (learning_step a) (num_steps a) (state_space a)
     (action_space a) (gamma a).
End Algorithm.
End Algorithm.

(** ** [class OnPolicyActorCritic] *)

Module OnPolicyActorCritic.
Section OnPolicyActorCritic.
Context `{Haiku, Gym}.
Context {Params LogPi : Type}.

(** Abstract methods, implemented by the subclasses. *)
Variable _select_action : Params -> State -> Action.
Variable _explore : Params -> Key -> State -> Action * LogPi.

(** The arguments of one [buffer.append] call. *)
Definition transition : Type :=
  State * Action * Qc * bool * LogPi * State.

(** [rljax.buffer.RolloutBuffer] is not among the sources: the object is
    represented by its constructor arguments and the [append] calls it
    has received, oldest first. *)
Record RolloutBuffer_t : Type := mkRolloutBuffer {
  rb_buffer_size : Z;
  rb_state_space : Space;
  rb_action_space : Space;
  rb_appended : list transition
}.

Definition RolloutBuffer (buffer_size : Z) (state_space action_space : Space)
  : RolloutBuffer_t :=
  mkRolloutBuffer buffer_size state_space action_space [].

Definition RolloutBuffer_append (tr : transition) (b : RolloutBuffer_t)
  : RolloutBuffer_t :=
  mkRolloutBuffer (rb_buffer_size b) (rb_state_space b) (rb_action_space b)
    (rb_appended b ++ [tr]).

(** [params_actor] is assigned by the subclass constructor; it is [None]
    until then. *)
Record t : Type := mk {
  base : Algorithm.t;
  discount : Qc;
  buffer_size : Z;
  buffer : RolloutBuffer_t;
  params_actor : option Params
}.

Definition __init__ (num_steps : Z) (state_space action_space : Space)
    (seed : Z) (gamma : Qc) (buffer_size : Z) : t :=
  {| base := Algorithm.__init__ num_steps state_space action_space seed gamma;
     discount := gamma;
     buffer_size := buffer_size;
     buffer := RolloutBuffer buffer_size state_space action_space;
     params_actor := None |}.

Definition env_step_ (self : t) : Z := Algorithm.env_step (base self).

Definition set_base (b : Algorithm.t) (self : t) : t :=
  mk b (discount self) (buffer_size self) (buffer self) (params_actor self).

Definition set_buffer (b : RolloutBuffer_t) (self : t) : t :=
  mk (base self) (discount self) (buffer_size self) b (params_actor self).

Definition getattr_params_actor : M t Params :=
  fun self => match params_actor self with
              | Some p => (ok p, self)
              | None => (raise AttributeError, self)
              end.

(** [next(self.rng)] *)
Definition next_rng : M t Key :=
  fun self =>
    let '(k, r) := next_key (Algorithm.rng (base self)) in
    (ok k, set_base (Algorithm.set_rng r (base self)) self).

(** The batch axis added by [state[None, ...]] and removed by
    [action[0]] is left out. *)
Definition select_action (state : State) : M t Action :=
  p ← getattr_params_actor;
  mret (_select_action p state).

Definition explore (state : State) : M t (Action * LogPi) :=
  p ← getattr_params_actor;
  k ← next_rng;
  mret (_explore p k state).

Definition is_update (self : t) : result bool :=
  r ← mod_ (env_step_ self) (buffer_size self);
  mret (r =? 0)%Z.

(** [step] acts on the pair of [self] and [env]. *)
Definition on_self {A} (m : M t A) : M (t * Env) A :=
  fun w => let '(r, self) := m (fst w) in (r, (self, snd w)).

Definition on_env {A} (f : Env -> A * Env) : M (t * Env) A :=
  fun w => let '(a, e) := f (snd w) in (ok a, (fst w, e)).

Definition step (state : State) (t0 : Z) : M (t * Env) (State * Z) :=
  let t1 := (t0 + 1)%Z in
  _ ← on_self (modify (fun self =>
         set_base (Algorithm.set_env_step (env_step_ self + 1) (base self)) self));
  '(action, log_pi) ← on_self (explore state);
  '(next_state, reward, done) ← on_env (fun e => env_step e action);
  max_steps ← gets (fun w => _max_episode_steps (snd w));
  let mask := if (t1 =? max_steps)%Z then false else done in
  _ ← on_self (modify (fun self =>
         set_buffer (RolloutBuffer_append
           (state, action, reward, mask, log_pi, next_state) (buffer self)) self));
  if done then
    next_state ← on_env env_reset;
    mret (next_state, 0%Z)
  else mret (next_state, t1).

(** [n] consecutive calls of [step] that return, whatever observation and
    episode counter the caller passes to each. *)
Inductive steps : nat -> t * Env -> t * Env -> Prop :=
  | steps_O w : steps 0 w w
  | steps_S n w w1 w2 state t0 r :
      steps n w w1 -> step state t0 w1 = (ok r, w2) -> steps (S n) w w2.
End OnPolicyActorCritic.
End OnPolicyActorCritic.

(** ** [class OffPolicyAlgorithm] *)

Module OffPolicyAlgorithm.
Section OffPolicyAlgorithm.
Context `{Haiku, Gym}.

(** The arguments of one [buffer.append] call:
    [(state, action, reward, mask, next_state, done)]. *)
Definition transition : Type :=
  State * Action * Qc * bool * State * bool.

(** [rljax.buffer] is not among the sources: a buffer object is
    represented by its class, its constructor arguments and the [append]
    calls it has received, oldest first. *)
Inductive buffer_class : Type :=
  | ReplayBuffer_class
  | PrioritizedReplayBuffer_class (beta_steps : Qc).

Record Buffer : Type := mkBuffer {
  buf_class : buffer_class;
  buf_buffer_size : Z;
  buf_state_space : Space;
  buf_action_space : Space;
  buf_gamma : Qc;
  buf_nstep : Z;
  buf_appended : list transition
}.

Definition ReplayBuffer (buffer_size : Z) (state_space action_space : Space)
    (gamma : Qc) (nstep : Z) : Buffer :=
  mkBuffer ReplayBuffer_class buffer_size state_space action_space
    gamma nstep [].

Definition PrioritizedReplayBuffer (buffer_size : Z)
    (state_space action_space : Space) (gamma : Qc) (nstep : Z)
    (beta_steps : Qc) : Buffer :=
  mkBuffer (PrioritizedReplayBuffer_class beta_steps) buffer_size
    state_space action_space gamma nstep [].

Definition Buffer_append (tr : transition) (b : Buffer) : Buffer :=
  mkBuffer (buf_class b) (buf_buffer_size b) (buf_state_space b)
    (buf_action_space b) (buf_gamma b) (buf_nstep b) (buf_appended b ++ [tr]).

Record t : Type := mk {
  base : Algorithm.t;
  buffer : Buffer;
  discount : Qc;
  use_per : bool;
  batch_size : Z;
  start_steps : Z;
  update_interval : Z
}.

Definition __init__ (num_steps : Z) (state_space action_space : Space)
    (seed : Z) (gamma : Qc) (nstep buffer_size : Z) (use_per : bool)
    (batch_size start_steps update_interval : Z) : result t :=
  let base := Algorithm.__init__ num_steps state_space action_space seed gamma in
  buffer ←
    (if use_per then
       beta_steps ← truediv (num_steps - start_steps) update_interval;
       mret (PrioritizedReplayBuffer buffer_size state_space action_space
               gamma nstep beta_steps)
     else
       mret (ReplayBuffer buffer_size state_space action_space gamma nstep));
  discount ← pow gamma nstep;
  mret {| base := base;
          buffer := buffer;
          discount := discount;
          use_per := use_per;
          batch_size := batch_size;
          start_steps := start_steps;
          update_interval := update_interval |}.

Definition env_step_ (self : t) : Z := Algorithm.env_step (base self).

Definition set_base (b : Algorithm.t) (self : t) : t :=
  mk b (buffer self) (discount self) (use_per self) (batch_size self)
     (start_steps self) (update_interval self).

Definition set_buffer (b : Buffer) (self : t) : t :=
  mk (base self) b (discount self) (use_per self) (batch_size self)
     (start_steps self) (update_interval self).

(** [a and b] evaluates [b] only when [a] holds. *)
Definition is_update (self : t) : result bool :=
  r ← mod_ (env_step_ self) (update_interval self);
  if (r =? 0)%Z then mret (start_steps self <=? env_step_ self)%Z
  else mret false.

(** What [step] acts on: [self], [env], and a record of the calls made
    to choose an action and to drive the environment, oldest first. *)
Inductive call : Type :=
  | call_sample (a : Action)
  | call_explore (s : State)
  | call_env_step (a : Action)
  | call_env_reset.

Record world : Type := mkWorld {
  agent : t;
  env : Env;
  calls : list call
}.

Definition on_self {A} (m : M t A) : M world A :=
  fun w => let '(r, self) := m (agent w) in
           (r, mkWorld self (env w) (calls w)).

Definition on_env {A} (f : Env -> A * Env) : M world A :=
  fun w => let '(a, e) := f (env w) in (ok a, mkWorld (agent w) e (calls w)).

Definition record (c : call) : M world unit :=
  modify (fun w => mkWorld (agent w) (env w) (calls w ++ [c])).

(** The pieces of [step], named to state its properties: [self] after
    [self.env_step += 1]; the transition stored for a chosen action; and
    everything [step] does once the action is chosen. *)
Definition counted (self : t) : t :=
  set_base (Algorithm.set_env_step (env_step_ self + 1) (base self)) self.

Definition stored (state : State) (t0 : Z) (action : Action) (e : Env)
  : transition :=
  let '(next_state, reward, done, e') := env_step e action in
  let mask := if (t0 + 1 =? _max_episode_steps e')%Z then false else done in
  (state, action, reward, mask, next_state, done).

Definition after_action (state : State) (t0 : Z) (action : Action)
    (self : t) (e : Env) (cs : list call) : result (State * Z) * world :=
  let '(next_state, reward, done, e') := env_step e action in
  let self' :=
    set_buffer (Buffer_append (stored state t0 action e) (buffer self)) self in
  if done then
    (ok (fst (env_reset e'), 0%Z),
     mkWorld self' (snd (env_reset e'))
       (cs ++ [call_env_step action; call_env_reset]))
  else
    (ok (next_state, (t0 + 1)%Z),
     mkWorld self' e' (cs ++ [call_env_step action])).

(** Abstract method [explore], implemented by the subclasses; it may
    use and change [self]. *)
Variable explore : State -> M t Action.

Definition step (state : State) (t0 : Z) : M world (State * Z) :=
  let t1 := (t0 + 1)%Z in
  _ ← on_self (modify (fun self =>
         set_base (Algorithm.set_env_step (env_step_ self + 1) (base self)) self));
  env_step_now ← gets (fun w => env_step_ (agent w));
  start ← gets (fun w => start_steps (agent w));
  action ←
    (if (env_step_now <=? start)%Z then
       a ← on_env action_space_sample;
       _ ← record (call_sample a);
       mret a
     else
       _ ← record (call_explore state);
       on_self (explore state));
  _ ← record (call_env_step action);
  '(next_state, reward, done) ← on_env (fun e => env_step e action);
  max_steps ← gets (fun w => _max_episode_steps (env w));
  let mask := if (t1 =? max_steps)%Z then false else done in
  _ ← on_self (modify (fun self =>
         set_buffer (Buffer_append
           (state, action, reward, mask, next_state, done) (buffer self)) self));
  if done then
    _ ← record call_env_reset;
    next_state ← on_env env_reset;
    mret (next_state, 0%Z)
  else mret (next_state, t1).

(** [n] consecutive calls of [step] that return, whatever observation and
    episode counter the caller passes to each. *)
Inductive steps : nat -> world -> world -> Prop :=
  | steps_O w : steps 0 w w
  | steps_S n w w1 w2 state t0 r :
      steps n w w1 -> step state t0 w1 = (ok r, w2) -> steps (S n) w w2.
End OffPolicyAlgorithm.
End OffPolicyAlgorithm.

(** ** The n-step return *)

(** Modelled from the spec: the "n-step return: reward accumulated over n
    consecutive environment transitions before bootstrapping with a value
    estimate".  Each transition adds its reward and discounts what follows
    by [gamma]; after the last one the value estimate takes over.  (The
    buffer classes that accumulate the rewards are not among the
    sources.) *)
Fixpoint nstep_return (gamma : Qc) (rewards : list Qc) (bootstrap : Qc) : Qc :=
  match rewards with
  | [] => bootstrap
  | r :: rest => (r + gamma * nstep_return gamma rest bootstrap)%Qc
  end.

(** ** [class OffPolicyActorCritic] *)

Module OffPolicyActorCritic.
Section OffPolicyActorCritic.
Context `{Haiku, Gym}.

Record t : Type := mk {
  base : OffPolicyAlgorithm.t;
  _update_target : optim.pytree -> optim.pytree -> result optim.pytree
}.

(** [partial(soft_update, tau=tau)]; [jax.jit] does not change the
    function computed. *)
Definition __init__ (num_steps : Z) (state_space action_space : Space)
    (seed : Z) (gamma : Qc) (nstep buffer_size : Z) (use_per : bool)
    (batch_size start_steps update_interval : Z) (tau : Qc) : result t :=
  base ← OffPolicyAlgorithm.__init__ num_steps state_space action_space seed
           gamma nstep buffer_size use_per batch_size start_steps
           update_interval;
  mret {| base := base;
          _update_target := fun target online =>
            optim.soft_update target online tau |}.

Context {Params : Type}.

(** Abstract methods, implemented by the subclasses. *)
Variable _select_action : Params -> State -> Action.
Variable _explore : Params -> Key -> State -> Action.

(** [self.params_actor] is assigned by the subclass constructor and is an
    argument here; the state acted on is the part of [self] that
    [OffPolicyAlgorithm.step] sees.  The batch axis added by
    [state[None, ...]] and removed by [action[0]] is left out. *)
Definition select_action (params_actor : Params) (state : State) : Action :=
  _select_action params_actor state.

Definition explore (params_actor : Params) (state : State)
  : M OffPolicyAlgorithm.t Action :=
  fun self =>
    let '(k, r) :=
      next_key (Algorithm.rng (OffPolicyAlgorithm.base self)) in
    (ok (_explore params_actor k state),
     OffPolicyAlgorithm.set_base
       (Algorithm.set_rng r (OffPolicyAlgorithm.base self)) self).
End OffPolicyActorCritic.
End OffPolicyActorCritic.

(** ** [class QLearning] *)

Module QLearning.
Section QLearning.
Context `{Haiku, Gym}.

Record t : Type := mk {
  base : OffPolicyAlgorithm.t;
  update_interval_target : Z;
  eps : Qc;
  eps_eval : Qc;
  _update_target : optim.pytree -> optim.pytree -> result optim.pytree
}.

(** [partial(soft_update, tau=1.0)] *)
Definition __init__ (num_steps : Z) (state_space action_space : Space)
    (seed : Z) (gamma : Qc) (nstep buffer_size : Z) (use_per : bool)
    (batch_size start_steps update_interval update_interval_target : Z)
    (eps eps_eval : Qc) : result t :=
  base ← OffPolicyAlgorithm.__init__ num_steps state_space action_space seed
           gamma nstep buffer_size use_per batch_size start_steps
           update_interval;
  mret {| base := base;
          update_interval_target := update_interval_target;
          eps := eps;
          eps_eval := eps_eval;
          _update_target := fun target online =>
            optim.soft_update target online 1%Qc |}.

(** [np.random.rand()] and [self.action_space.sample()] draw from
    generators outside [self]; [NpRandom] is their joint state.
    [self.params] is assigned by the subclass constructor and is an
    argument here. *)
Context {NpRandom Params : Type}.
Variable np_random_rand : NpRandom -> Qc * NpRandom.
Variable space_sample : Space -> NpRandom -> Action * NpRandom.

(** Abstract method, implemented by the subclasses. *)
Variable _select_action : Params -> State -> Action.

Definition select_action (self : t) (params : Params) (state : State)
  : NpRandom -> Action * NpRandom :=
  fun g =>
    let '(u, g) := np_random_rand g in
    if bool_decide (u < eps_eval self)%Qc then
      space_sample
        (Algorithm.action_space (OffPolicyAlgorithm.base (base self))) g
    else (_select_action params state, g).

Definition explore (self : t) (params : Params) (state : State)
  : NpRandom -> Action * NpRandom :=
  fun g =>
    let '(u, g) := np_random_rand g in
    if bool_decide (u < eps self)%Qc then
      space_sample
        (Algorithm.action_space (OffPolicyAlgorithm.base (base self))) g
    else (_select_action params state, g).
End QLearning.
End QLearning.

(** ** [rljax.buffer.ReplayBuffer] *)

Module buffer.
Section ReplayBuffer.
Context {T : Type}.

(** Modelled from the spec: [ReplayBuffer] of [rljax.buffer] is
    constructed by [OffPolicyAlgorithm.__init__] but its module is not
    among the sources.  It is a "fixed-capacity circular store of
    transitions": [buffer_size] preallocated slots, a write position
    [_p] that wraps around and the number [_n] of slots in use.  The
    n-step pre-aggregation happens before a transition reaches the
    store; [T] is the type of what is stored. *)
Record t : Type := mk {
  buffer_size : nat;
  _n : nat;
  _p : nat;
  slots : list (option T)
}.

Definition __init__ (buffer_size : nat) : t :=
  {| buffer_size := buffer_size;
     _n := 0;
     _p := 0;
     slots := replicate buffer_size None |}.

(** Writing into a store without slots is an index error. *)
Definition append (x : T) (b : t) : result t :=
  if (buffer_size b =? 0)%nat then raise IndexError
  else ok {| buffer_size := buffer_size b;
             _n := Nat.min (_n b + 1) (buffer_size b);
             _p := (_p b + 1) mod buffer_size b;
             slots := <[_p b := Some x]> (slots b) |}.

Fixpoint extend (xs : list T) (b : t) : result t :=
  match xs with
  | [] => ok b
  | x :: xs' => b' ← append x b; extend xs' b'
  end.

(** The slot holding the oldest stored transition, and what the store
    holds, oldest first. *)
Definition oldest (b : t) : nat :=
  (_p b + buffer_size b - _n b) mod buffer_size b.

Definition contents (b : t) : list (option T) :=
  (fun i => mjoin (slots b !! ((oldest b + i) mod buffer_size b)))
    <$> seq 0 (_n b).

(** The state of a store of [size] slots to which the transitions [xs]
    have been appended, stated for its proofs: the [j]-th transition sits
    in slot [j mod size] until it is overwritten [size] appends later. *)
Definition represents (size : nat) (xs : list T) (b : t) : Prop :=
  buffer_size b = size /\
  length (slots b) = size /\
  _p b = length xs mod size /\
  _n b = Nat.min (length xs) size /\
  forall j, j < length xs -> length xs <= j + size ->
            slots b !! (j mod size) = Some (xs !! j).
End ReplayBuffer.
Arguments t : clear implicits.
End buffer.

(** ** Arrays *)

(** Arrays of rank one, two and three, by rows.  Shapes are those the
    networks produce; operations on arrays of unequal length stop at the
    shorter one where numpy would raise or broadcast. *)
Module jnp.

Abbreviation vector := (list Qc).
Abbreviation matrix := (list (list Qc)).
Abbreviation tensor3 := (list (list (list Qc))).

Definition sum (v : vector) : Qc := foldr Qcplus 0%Qc v.

(** The mean of an empty vector is NaN in JAX and [0] here. *)
Definition mean (v : vector) : Qc :=
  (sum v / Q2Qc (inject_Z (Z.of_nat (length v))))%Qc.

Definition abs (x : Qc) : Qc := if bool_decide (x < 0)%Qc then (- x)%Qc else x.

(** [m.sum(axis=0)] of a matrix: the vector of column totals. *)
Definition sum_axis0 (m : matrix) : vector :=
  match m with
  | [] => []
  | r :: rs => foldl (zip_with Qcplus) r rs
  end.

(** The first index at which the largest entry occurs. *)
Fixpoint argmax_from (i best : nat) (best_val : Qc) (v : vector) : nat :=
  match v with
  | [] => best
  | x :: v' =>
      if bool_decide (best_val < x)%Qc then argmax_from (S i) i x v'
      else argmax_from (S i) best best_val v'
  end.

Definition argmax (v : vector) : nat :=
  match v with
  | [] => 0%nat
  | x :: v' => argmax_from 1 0 x v'
  end.

(** [v[:-1]], [v[1:]], [v[1:-1]], [v[:1]] and [v[-1:]] *)
Definition but_last {A} (v : list A) : list A := take (length v - 1) v.
Definition but_first {A} (v : list A) : list A := drop 1 v.
Definition inner {A} (v : list A) : list A := but_first (but_last v).
Definition first_only {A} (v : list A) : list A := take 1 v.
Definition last_only {A} (v : list A) : list A := drop (length v - 1) v.

End jnp.

(** ** [class FQF] *)

Module FQF.
Section FQF.
Context `{Haiku, Gym}.

(** Batched observations and actions, the importance weights returned
    by the buffer, network features, optimiser objects and states, and
    network constructors are opaque. *)
Context {States Actions Weight Feature Opt OptState NetFn : Type}.

(** One batch: [(state, action, reward, done, next_state)]. *)
Definition batch : Type := States * Actions * jnp.vector * jnp.vector * States.

(** [self.buffer], an object of [rljax.buffer]: its state is opaque and
    the calls made to it are recorded, oldest first. *)
Context {BufferState : Type}.
Variable buffer_sample : BufferState -> Z -> (Weight * batch) * BufferState.
Variable buffer_update_priority : BufferState -> jnp.matrix -> BufferState.

Inductive buffer_call : Type :=
  | call_sample (batch_size : Z)
  | call_update_priority (abs_td : jnp.matrix).

Record Buffer : Type := mkBuffer {
  buf_state : BufferState;
  buf_calls : list buffer_call
}.

(** The networks [self.net["feature"]], [self.net["quantile"]] and
    [self.cum_p_net], and the helpers of [rljax.util] and [rljax.network]
    whose modules are not among the sources. *)
Variable net_feature_apply : optim.pytree -> States -> Feature.
Variable net_quantile_apply : optim.pytree -> Feature -> jnp.matrix -> jnp.tensor3.
Variable cum_p_net_apply : optim.pytree -> Feature -> jnp.matrix * jnp.matrix.
Variable cum_p_net_init : Key -> Feature -> optim.pytree.
Variable get_quantile_at_action : jnp.tensor3 -> Actions -> jnp.matrix.
Variable actions_of_argmax : list nat -> Actions.
Variable quantile_loss : jnp.tensor3 -> jnp.matrix -> Weight -> string -> Qc.
Variable DiscreteImplicitQuantileFunction : Space -> list Z -> bool -> NetFn.
Variable make_quantile_nerwork :
  Rng -> Space -> Space -> NetFn -> Z -> (optim.pytree * Feature) * Rng.
Variable optix_adam : Qc -> Qc -> (optim.pytree -> OptState) * Opt.
Variable optix_rmsprop : Qc -> (optim.pytree -> OptState) * Opt.

(** Automatic differentiation and the optimiser step. *)
Variable grad : forall Aux, (optim.pytree -> result (Qc * Aux)) ->
                            optim.pytree -> optim.pytree.
Variable clip_gradient_norm : optim.pytree -> Qc -> optim.pytree.
Variable opt_update : Opt -> optim.pytree -> OptState -> optim.pytree * OptState.
Variable apply_updates : optim.pytree -> optim.pytree -> optim.pytree.

(** Modelled from the spec: [optimize] of [rljax.util] is called by
    [FQF.update] but is not among the sources.  It is the "parameter/
    optimizer state threading" of one training step: the loss function is
    evaluated at the parameters to update, together with its auxiliary
    output and its gradient; the optimiser turns the (clipped) gradient
    into new parameters and a new optimiser state. *)
Definition optimize {Aux} (fn_loss : optim.pytree -> result (Qc * Aux))
    (opt : Opt) (opt_state : OptState) (params_to_update : optim.pytree)
    (max_grad_norm : option Qc)
  : result (OptState * optim.pytree * Qc * Aux) :=
  '(loss, aux) ← fn_loss params_to_update;
  let g := grad Aux fn_loss params_to_update in
  let g := match max_grad_norm with
           | Some m => clip_gradient_norm g m
           | None => g
           end in
  let '(upd, opt_state) := opt_update opt g opt_state in
  mret (opt_state, apply_updates params_to_update upd, loss, aux).

(** The attributes [FQF] inherits.  Its base class is [QLearning] of
    [rljax.algorithm.base_class], which is not among the sources; the
    attributes are those [fqf.py] reads.  [self.kwargs_update] is the
    empty dictionary, the only value [_loss] accepts. *)
Record inherited : Type := mkInherited {
  rng : Rng;
  learning_step : Z;
  agent_step : Z;
  buffer : Buffer;
  batch_size : Z;
  use_per : bool;
  discount : Qc;
  max_grad_norm : option Qc;
  update_interval_target : Z;
  _update_target : optim.pytree -> optim.pytree -> result optim.pytree
}.

Record t : Type := mk {
  super : inherited;
  params : optim.pytree;
  params_target : optim.pytree;
  opt : Opt;
  opt_state : OptState;
  params_cum_p : optim.pytree;
  opt_cum_p : Opt;
  opt_state_cum_p : OptState;
  num_quantiles : Z;
  num_cosines : Z;
  loss_type : string;
  double_q : bool
}.

(** The keyword arguments of [FQF.__init__]. *)
Record kwargs : Type := mkKwargs {
  kw_num_agent_steps : Z;
  kw_state_space : Space;
  kw_action_space : Space;
  kw_seed : Z;
  kw_max_grad_norm : option Qc;
  kw_gamma : Qc;
  kw_nstep : Z;
  kw_buffer_size : Z;
  kw_use_per : bool;
  kw_batch_size : Z;
  kw_start_steps : Z;
  kw_update_interval : Z;
  kw_update_interval_target : Z;
  kw_eps : Qc;
  kw_eps_eval : Qc;
  kw_eps_decay_steps : Z;
  kw_fn : option NetFn;
  kw_lr : Qc;
  kw_lr_cum_p : Qc;
  kw_units : list Z;
  kw_num_quantiles : Z;
  kw_num_cosines : Z;
  kw_loss_type : string;
  kw_dueling_net : bool;
  kw_double_q : bool
}.

(** The constructor of the base class, which receives the first sixteen
    keyword arguments. *)
Variable QLearning__init__ : kwargs -> result inherited.

Definition set_rng (r : Rng) (i : inherited) : inherited :=
  mkInherited r (learning_step i) (agent_step i) (buffer i) (batch_size i)
    (use_per i) (discount i) (max_grad_norm i) (update_interval_target i)
    (_update_target i).

Definition __init__ (a : kwargs) : result t :=
  if negb (existsb (String.eqb (kw_loss_type a)) ["l2"; "huber"]%string)
  then raise AssertionError
  else
    super ← QLearning__init__ a;
    let fn := match kw_fn a with
              | Some fn => fn
              | None => DiscreteImplicitQuantileFunction (kw_action_space a)
                          (kw_units a) (kw_dueling_net a)
              end in
    let '(params, fake_feature, rng1) :=
      make_quantile_nerwork (rng super) (kw_state_space a)
        (kw_action_space a) fn (kw_num_quantiles a) in
    adam_eps ← fdiv (Q2Qc (1 # 100)) (float (kw_batch_size a));
    let '(opt_init, opt) := optix_adam (kw_lr a) adam_eps in
    let opt_state := opt_init params in
    let '(key, rng2) := next_key rng1 in
    let params_cum_p := cum_p_net_init key fake_feature in
    let '(opt_init_cum_p, opt_cum_p) := optix_rmsprop (kw_lr_cum_p a) in
    let opt_state_cum_p := opt_init_cum_p params_cum_p in
    mret {| super := set_rng rng2 super;
            params := params;
            params_target := params;
            opt := opt;
            opt_state := opt_state;
            params_cum_p := params_cum_p;
            opt_cum_p := opt_cum_p;
            opt_state_cum_p := opt_state_cum_p;
            num_quantiles := kw_num_quantiles a;
            num_cosines := kw_num_cosines a;
            loss_type := kw_loss_type a;
            double_q := kw_double_q a |}.

(** [((cum_p[:, 1:, None] - cum_p[:, :-1, None]) * quantile_s).sum(axis=1)] *)
Definition expected_q (cum_p : jnp.matrix) (quantile_s : jnp.tensor3)
  : jnp.matrix :=
  zip_with
    (fun row qs =>
       jnp.sum_axis0
         (zip_with (fun w q => Qcmult w <$> q)
            (zip_with Qcminus (jnp.but_first row) (jnp.but_last row)) qs))
    cum_p quantile_s.

Definition _forward (params_cum_p params : optim.pytree) (state : States)
  : result (list nat) :=
  params_feature ← optim.getitem params "feature";
  let feature := net_feature_apply params_feature state in
  let '(cum_p, cum_p_prime) := cum_p_net_apply params_cum_p feature in
  params_quantile ← optim.getitem params "quantile";
  let quantile_s := net_quantile_apply params_quantile feature cum_p_prime in
  let q_s := expected_q cum_p quantile_s in
  mret (jnp.argmax <$> q_s).

Definition forward (self : t) (state : States) : result (list nat) :=
  _forward (params_cum_p self) (params self) state.

(** [reward + (1.0 - done) * self.discount * next_quantile], one row of
    target quantiles per batch entry. *)
Definition target_of (reward done : jnp.vector) (discount : Qc)
    (next_quantile : jnp.matrix) : jnp.matrix :=
  zip_with (fun rd nq => (fun q => fst rd + (1 - snd rd) * discount * q)%Qc <$> nq)
    (zip reward done) next_quantile.

(** [target_quantile - curr_quantile] with shapes [(B, 1, N)] and
    [(B, N, 1)]: entry [(b, i, j)] is target [j] minus current [i]. *)
Definition td_of (target_quantile curr_quantile : jnp.matrix) : jnp.tensor3 :=
  zip_with (fun tq cq => (fun c => (fun tj => tj - c)%Qc <$> tq) <$> cq)
    target_quantile curr_quantile.

(** [jnp.abs(td).sum(axis=1).mean(axis=1, keepdims=True)] *)
Definition abs_td_of (td : jnp.tensor3) : jnp.matrix :=
  (fun td_b : jnp.matrix =>
     [jnp.mean (jnp.sum_axis0 (map (map jnp.abs) td_b))]) <$> td.

Definition _loss (self : t) (params params_target params_cum_p : optim.pytree)
    (state : States) (action : Actions) (reward done : jnp.vector)
    (next_state : States) (weight : Weight) : result (Qc * jnp.matrix) :=
  params_feature ← optim.getitem params "feature";
  let feature := net_feature_apply params_feature state in
  target_feature ← optim.getitem params_target "feature";
  let next_feature := net_feature_apply target_feature next_state in
  let cum_p_prime := snd (cum_p_net_apply params_cum_p feature) in
  next_action ←
    (if double_q self then _forward params_cum_p params next_state
     else
       let '(next_cum_p, next_cum_p_prime) :=
         cum_p_net_apply params_cum_p next_feature in
       target_quantile_params ← optim.getitem params_target "quantile";
       let next_quantile_s :=
         net_quantile_apply target_quantile_params next_feature next_cum_p_prime in
       mret (jnp.argmax <$> expected_q next_cum_p next_quantile_s));
  target_quantile_params ← optim.getitem params_target "quantile";
  let next_quantile_s :=
    net_quantile_apply target_quantile_params next_feature cum_p_prime in
  let next_quantile :=
    get_quantile_at_action next_quantile_s (actions_of_argmax next_action) in
  let target_quantile :=
    target_of reward done (discount (super self)) next_quantile in
  params_quantile ← optim.getitem params "quantile";
  let curr_quantile :=
    get_quantile_at_action
      (net_quantile_apply params_quantile feature cum_p_prime) action in
  let td := td_of target_quantile curr_quantile in
  let loss := quantile_loss td cum_p_prime weight (loss_type self) in
  let abs_td := abs_td_of td in
  mret (loss, abs_td).

(** One row of the gradient with respect to the proposed fractions. *)
Definition where_ (c : bool) (x y : Qc) : Qc := if c then x else y.

Definition fraction_grad (quantile quantile_prime : jnp.vector) : jnp.vector :=
  let val1 := zip_with Qcminus quantile (jnp.but_last quantile_prime) in
  let sign1 :=
    zip_with (fun x y => bool_decide (y < x)%Qc) quantile
      (jnp.first_only quantile_prime ++ jnp.but_last quantile) in
  let val2 := zip_with Qcminus quantile (jnp.but_first quantile_prime) in
  let sign2 :=
    zip_with (fun x y => bool_decide (x < y)%Qc) quantile
      (jnp.but_first quantile ++ jnp.last_only quantile_prime) in
  zip_with Qcplus
    (zip_with (fun c v => where_ c v (- v)%Qc) sign1 val1)
    (zip_with (fun c v => where_ c v (- v)%Qc) sign2 val2).

Definition _loss_cum_p (params_cum_p params : optim.pytree) (state : States)
    (action : Actions) : result (Qc * unit) :=
  params_feature ← optim.getitem params "feature";
  let feature := net_feature_apply params_feature state in
  let '(cum_p, cum_p_prime) := cum_p_net_apply params_cum_p feature in
  params_quantile ← optim.getitem params "quantile";
  let quantile :=
    get_quantile_at_action
      (net_quantile_apply params_quantile feature (jnp.inner <$> cum_p))
      action in
  let quantile_prime :=
    get_quantile_at_action
      (net_quantile_apply params_quantile feature cum_p_prime) action in
  let g := zip_with fraction_grad quantile quantile_prime in
  mret (jnp.mean
          (zip_with (fun c gr => jnp.sum (zip_with Qcmult (jnp.inner c) gr))
             cum_p g),
        tt).

(** A summary writer, by the [add_scalar] calls it has received:
    [(tag, value, step)], oldest first. *)
Definition writer_t : Type := list (string * Qc * Z).

Definition set_super (i : inherited) (self : t) : t :=
  mk i (params self) (params_target self) (opt self) (opt_state self)
    (params_cum_p self) (opt_cum_p self) (opt_state_cum_p self)
    (num_quantiles self) (num_cosines self) (loss_type self) (double_q self).

Definition set_learning_step (n : Z) (i : inherited) : inherited :=
  mkInherited (rng i) n (agent_step i) (buffer i) (batch_size i)
    (use_per i) (discount i) (max_grad_norm i) (update_interval_target i)
    (_update_target i).

Definition set_buffer (b : Buffer) (i : inherited) : inherited :=
  mkInherited (rng i) (learning_step i) (agent_step i) b (batch_size i)
    (use_per i) (discount i) (max_grad_norm i) (update_interval_target i)
    (_update_target i).

Definition set_cum_p (os : OptState) (p : optim.pytree) (self : t) : t :=
  mk (super self) (params self) (params_target self) (opt self)
    (opt_state self) p (opt_cum_p self) os
    (num_quantiles self) (num_cosines self) (loss_type self) (double_q self).

Definition set_quantile (os : OptState) (p : optim.pytree) (self : t) : t :=
  mk (super self) p (params_target self) (opt self) os
    (params_cum_p self) (opt_cum_p self) (opt_state_cum_p self)
    (num_quantiles self) (num_cosines self) (loss_type self) (double_q self).

Definition set_params_target (p : optim.pytree) (self : t) : t :=
  mk (super self) (params self) p (opt self) (opt_state self)
    (params_cum_p self) (opt_cum_p self) (opt_state_cum_p self)
    (num_quantiles self) (num_cosines self) (loss_type self) (double_q self).

(** [self.buffer.sample(self.batch_size)] *)
Definition sample : M t (Weight * batch) :=
  fun self =>
    let b := buffer (super self) in
    let n := batch_size (super self) in
    let '(r, st) := buffer_sample (buf_state b) n in
    (ok r,
     set_super (set_buffer (mkBuffer st (buf_calls b ++ [call_sample n]))
                  (super self)) self).

(** [self.buffer.update_priority(abs_td)] *)
Definition update_priority (abs_td : jnp.matrix) : M t unit :=
  modify (fun self =>
    let b := buffer (super self) in
    set_super (set_buffer
                 (mkBuffer (buffer_update_priority (buf_state b) abs_td)
                    (buf_calls b ++ [call_update_priority abs_td]))
                 (super self)) self).

Definition update (writer : option writer_t) : M t (option writer_t) :=
  _ ← modify (fun self =>
         set_super (set_learning_step (learning_step (super self) + 1)
                      (super self)) self);
  '(weight, (state, action, reward, done, next_state)) ← sample;
  (* Update fraction proposal network. *)
  self ← get;
  '(new_opt_state_cum_p, new_params_cum_p, loss_cum_p, _) ←
    lift (optimize
            (fun params_cum_p =>
               _loss_cum_p params_cum_p (params self) state action)
            (opt_cum_p self) (opt_state_cum_p self) (params_cum_p self)
            (max_grad_norm (super self)));
  _ ← modify (set_cum_p new_opt_state_cum_p new_params_cum_p);
  (* Update quantile network. *)
  self ← get;
  '(new_opt_state, new_params, loss, abs_td) ←
    lift (optimize
            (fun params =>
               _loss self params (params_target self) (params_cum_p self)
                 state action reward done next_state weight)
            (opt self) (opt_state self) (params self)
            (max_grad_norm (super self)));
  _ ← modify (set_quantile new_opt_state new_params);
  (* Update priority. *)
  self ← get;
  _ ← (if use_per (super self) then update_priority abs_td else mret tt);
  (* Update target network. *)
  r ← lift (mod_ (agent_step (super self))
              (update_interval_target (super self)));
  _ ← (if (r =? 0)%Z then
         self ← get;
         new_target ← lift (_update_target (super self)
                              (params_target self) (params self));
         modify (set_params_target new_target)
       else mret tt);
  match writer with
  | Some w =>
      self ← get;
      let n := learning_step (super self) in
      if (n mod 1000 =? 0)%Z then
        mret (Some (w ++ [("loss/q"%string, loss, n);
                          ("loss/cum_p"%string, loss_cum_p, n)]))
      else mret (Some w)
  | None => mret None
  end.

(** A parameter dictionary with the entries of both networks. *)
Definition has_networks (p : optim.pytree) : Prop :=
  exists feature quantile,
    optim.getitem p "feature" = ok feature /\
    optim.getitem p "quantile" = ok quantile.

End FQF.
End FQF.

(** ** A concrete environment and key sequence

    A counting environment whose episodes are cut by a time limit of two
    steps, and keys that count upwards.  They serve to run
    the definitions above on concrete inputs. *)

Module example.

Definition haiku : Haiku :=
  {| Rng := Z; Key := Z; PRNGSequence := fun seed => seed;
     next_key := fun r => (r, (r + 1)%Z) |}.

Definition gym : Gym :=
  {| Space := Z; State := Z; Action := Z; Env := Z;
     env_step := fun e a =>
       ((e + 1)%Z, Q2Qc (inject_Z a), (2 <=? e + 1)%Z, (e + 1)%Z);
     env_reset := fun e => (0%Z, 0%Z);
     action_space_sample := fun e => (7%Z, e);
     _max_episode_steps := fun e => 2%Z |}.

(** An on-policy learner with [buffer_size = 4] after eight environment
    steps. *)
Definition on_policy_self : @OnPolicyActorCritic.t haiku gym Z Z :=
  let self :=
    OnPolicyActorCritic.__init__ (H:=haiku) (H0:=gym) (Params:=Z) (LogPi:=Z)
      100%Z 0%Z 0%Z 42%Z (Q2Qc (99 # 100)) 4%Z in
  OnPolicyActorCritic.set_base
    (Algorithm.set_env_step 8%Z (OnPolicyActorCritic.base self)) self.

(** An off-policy learner with a plain replay buffer, five warm-up steps
    and an update every second step, before its first environment step;
    its [explore] always answers [1]. *)
Definition off_policy_self : @OffPolicyAlgorithm.t haiku gym :=
  OffPolicyAlgorithm.mk
    (Algorithm.__init__ (H:=haiku) (H0:=gym) 100%Z 0%Z 0%Z 42%Z (Q2Qc (99 # 100)))
    (OffPolicyAlgorithm.ReplayBuffer (H0:=gym) 10%Z 0%Z 0%Z (Q2Qc (99 # 100)) 3%Z)
    (Q2Qc (99 # 100) ^ 3)%Qc false 32%Z 5%Z 2%Z.

Definition off_policy_world : @OffPolicyAlgorithm.world haiku gym :=
  OffPolicyAlgorithm.mkWorld off_policy_self 0%Z [].

Definition explore : Z -> M (@OffPolicyAlgorithm.t haiku gym) Z :=
  fun _ self => (ok 1%Z, self).

(** The learner built by [OffPolicyAlgorithm.__init__] with prioritised
    replay, [num_steps = 100], [start_steps = 5], [update_interval = 2],
    [gamma = 99/100] and [nstep = 3]. *)
Definition per_self : @OffPolicyAlgorithm.t haiku gym :=
  OffPolicyAlgorithm.mk
    (Algorithm.__init__ (H:=haiku) (H0:=gym) 100%Z 0%Z 0%Z 42%Z (Q2Qc (99 # 100)))
    (OffPolicyAlgorithm.PrioritizedReplayBuffer (H0:=gym) 10%Z 0%Z 0%Z
       (Q2Qc (99 # 100)) 3%Z (float (100 - 5) / float 2)%Qc)
    (Q2Qc (99 # 100) ^ 3)%Qc true 32%Z 5%Z 2%Z.

(** Two parameter trees of the same structure. *)
Definition target_params : optim.pytree :=
  optim.Node [("linear"%string,
               optim.Node [("b"%string, optim.Leaf [0%Qc]);
                           ("w"%string, optim.Leaf [1%Qc; 0%Qc])])].

Definition online_params : optim.pytree :=
  optim.Node [("linear"%string,
               optim.Node [("b"%string, optim.Leaf [1%Qc]);
                           ("w"%string, optim.Leaf [0%Qc; 1%Qc])])].

(** The learners built by [QLearning.__init__] and by
    [OffPolicyActorCritic.__init__] with [tau = 1/200]. *)
Definition q_self : @QLearning.t haiku gym :=
  QLearning.mk per_self 8000%Z (Q2Qc (1 # 100)) (Q2Qc (1 # 1000))
    (fun target online => optim.soft_update target online 1%Qc).

Definition ac_self : @OffPolicyActorCritic.t haiku gym :=
  OffPolicyActorCritic.mk per_self
    (fun target online => optim.soft_update target online (Q2Qc (1 # 200))).

(** A one-entry batch, two quantiles and constant networks for [FQF]. *)
Definition fqf_params : optim.pytree :=
  optim.Node [("feature"%string, optim.Leaf [1%Qc]);
              ("quantile"%string, optim.Leaf [Q2Qc 2])].

Definition buffer_sample (st : Z) (n : Z)
  : (Qc * @FQF.batch Z (list nat)) * Z :=
  ((1%Qc, (0%Z, [0%nat], [1%Qc], [0%Qc], 1%Z)), (st + 1)%Z).

Definition buffer_update_priority (st : Z) (abs_td : jnp.matrix) : Z :=
  (st + 100)%Z.

Definition net_feature_apply (p : optim.pytree) (s : Z) : Z := s.

Definition net_quantile_apply (p : optim.pytree) (f : Z) (c : jnp.matrix)
  : jnp.tensor3 :=
  [[[1%Qc; Q2Qc 2]; [Q2Qc 3; Q2Qc 5]]].

Definition cum_p_net_apply (p : optim.pytree) (f : Z)
  : jnp.matrix * jnp.matrix :=
  ([[0%Qc; Q2Qc (1 # 2); 1%Qc]], [[Q2Qc (1 # 4); Q2Qc (3 # 4)]]).

Definition cum_p_net_init (k : @Key haiku) (f : Z) : optim.pytree :=
  optim.Leaf [0%Qc].

Definition get_quantile_at_action (q : jnp.tensor3) (a : list nat)
  : jnp.matrix :=
  map (map (fun row => hd 0%Qc row)) q.

Definition quantile_loss (td : jnp.tensor3) (c : jnp.matrix) (w : Qc)
    (loss_type : string) : Qc := 0%Qc.

Definition make_quantile_nerwork (r : @Rng haiku) (s a : @Space gym)
    (fn : unit) (n : Z) : (optim.pytree * Z) * @Rng haiku :=
  ((fqf_params, 0%Z), (r + 1)%Z).

Definition optix (lr : Qc) : (optim.pytree -> Z) * unit := (fun _ => 0%Z, tt).

Definition grad (Aux : Type) (f : optim.pytree -> result (Qc * Aux))
    (p : optim.pytree) : optim.pytree := p.

Definition opt_update (o : unit) (g : optim.pytree) (s : Z)
  : optim.pytree * Z := (g, (s + 1)%Z).

Definition fqf_super : @FQF.inherited haiku Z :=
  FQF.mkInherited (H:=haiku) 42%Z 0%Z 16%Z (FQF.mkBuffer 0%Z []) 32%Z true
    (Q2Qc (99 # 100)) None 8%Z
    (fun target online => optim.soft_update target online 1%Qc).

Definition QLearning__init__ (a : @FQF.kwargs gym unit)
  : result (@FQF.inherited haiku Z) := ok fqf_super.

Definition fqf_kwargs (loss_type : string) : @FQF.kwargs gym unit :=
  FQF.mkKwargs (H0:=gym) 100%Z 0%Z 0%Z 42%Z None (Q2Qc (99 # 100)) 1%Z 10%Z
    true 32%Z 5%Z 4%Z 8%Z (Q2Qc (1 # 100)) (Q2Qc (1 # 1000)) 250000%Z None
    (Q2Qc (1 # 20000)) (Q2Qc (1 # 400000000)) [512%Z] 2%Z 64%Z loss_type
    false false.

Definition fqf_self : @FQF.t haiku unit Z Z :=
  FQF.mk fqf_super fqf_params fqf_params tt 0%Z (optim.Leaf [0%Qc]) tt 0%Z
    2%Z 64%Z "huber" false.

Definition fqf_init :=
  FQF.__init__ (H:=haiku) (H0:=gym) cum_p_net_init (fun _ _ _ => tt)
    make_quantile_nerwork (fun lr _ => optix lr) optix QLearning__init__.

Definition fqf_update :=
  FQF.update (H:=haiku) buffer_sample buffer_update_priority net_feature_apply
    net_quantile_apply cum_p_net_apply get_quantile_at_action
    (fun a : list nat => a) quantile_loss grad (fun g _ => g) opt_update
    (fun p _ => p).

(** The on-policy learner once its subclass has set [params_actor], and
    an [_explore] that answers with the parameters and the key. *)
Definition on_policy_ready : @OnPolicyActorCritic.t haiku gym Z Z :=
  OnPolicyActorCritic.mk (OnPolicyActorCritic.base on_policy_self)
    (OnPolicyActorCritic.discount on_policy_self)
    (OnPolicyActorCritic.buffer_size on_policy_self)
    (OnPolicyActorCritic.buffer on_policy_self) (Some 5%Z).

Definition on_policy_explore (p k s : Z) : Z * Z := (p, k).

(** The off-policy learner at the end of its warm-up, and an [explore]
    that raises. *)
Definition off_policy_late_world : @OffPolicyAlgorithm.world haiku gym :=
  OffPolicyAlgorithm.mkWorld
    (OffPolicyAlgorithm.set_base
       (Algorithm.set_env_step 5%Z (OffPolicyAlgorithm.base off_policy_self))
       off_policy_self)
    0%Z [].

Definition explore_fails : Z -> M (@OffPolicyAlgorithm.t haiku gym) Z :=
  fun _ self => (raise ValueError, self).

Definition actor_explore (p k s : Z) : Z := (p + k)%Z.

(** A generator that always draws one half, and an action space that
    answers with its own description. *)
Definition np_random_rand (g : Z) : Qc * Z := (Q2Qc (1 # 2), (g + 1)%Z).
Definition space_sample (space g : Z) : Z * Z := (space, (g + 1)%Z).
Definition greedy (p s : Z) : Z := p.

Definition q_self_eps (eps : Qc) : @QLearning.t haiku gym :=
  QLearning.mk per_self 8000%Z eps eps
    (fun target online => optim.soft_update target online 1%Qc).

(** [FQF] with a batch size of zero, with online parameters that lack
    both entries, and with target parameters that lack them. *)
Definition fqf_kwargs_zero_batch : @FQF.kwargs gym unit :=
  FQF.mkKwargs (H0:=gym) 100%Z 0%Z 0%Z 42%Z None (Q2Qc (99 # 100)) 1%Z 10%Z
    true 0%Z 5%Z 4%Z 8%Z (Q2Qc (1 # 100)) (Q2Qc (1 # 1000)) 250000%Z None
    (Q2Qc (1 # 20000)) (Q2Qc (1 # 400000000)) [512%Z] 2%Z 64%Z "huber"
    false false.

Definition fqf_self_no_params : @FQF.t haiku unit Z Z :=
  FQF.mk fqf_super (optim.Node []) fqf_params tt 0%Z (optim.Leaf [0%Qc]) tt
    0%Z 2%Z 64%Z "huber" false.

Definition fqf_self_no_target : @FQF.t haiku unit Z Z :=
  FQF.mk fqf_super fqf_params (optim.Node []) tt 0%Z (optim.Leaf [0%Qc]) tt
    0%Z 2%Z 64%Z "huber" false.

Definition fqf_forward :=
  FQF._forward net_feature_apply net_quantile_apply cum_p_net_apply.

(** [FQF] one learning step before a multiple of 1000, off the schedule
    of the target network. *)
Definition fqf_self_999 : @FQF.t haiku unit Z Z :=
  FQF.mk
    (FQF.mkInherited (H:=haiku) 42%Z 999%Z 17%Z (FQF.mkBuffer 0%Z []) 32%Z
       false (Q2Qc (99 # 100)) None 8%Z
       (fun target online => optim.soft_update target online 1%Qc))
    fqf_params fqf_params tt 0%Z (optim.Leaf [0%Qc]) tt 0%Z 2%Z 64%Z "huber"
    false.

End example.

(** * Properties *)

(** ** Python primitives *)

Lemma mod__ok (a b : Z) : b <> 0%Z -> mod_ a b = ok (a mod b)%Z.
Proof.
  intros Hb. unfold mod_. destruct (Z.eqb_spec b 0); [contradiction | reflexivity].
Qed.

Lemma mod__zero (a : Z) : mod_ a 0 = raise ZeroDivisionError.
Proof. reflexivity. Qed.

Lemma float_eq_0 (a : Z) : float a = 0%Qc -> a = 0%Z.
Proof.
  unfold float. intros E.
  assert (E' : (inject_Z a == 0)%Q).
  { apply (f_equal this) in E. simpl in E.
    rewrite <- (Qred_correct (inject_Z a)). rewrite E. reflexivity. }
  unfold Qeq in E'. simpl in E'. lia.
Qed.

Lemma fdiv_ok (x y : Qc) : y <> 0%Qc -> fdiv x y = ok (x / y)%Qc.
Proof.
  intros Hy. unfold fdiv.
  destruct (Qc_eq_bool y 0) eqn:E; [|reflexivity].
  apply Qc_eq_bool_correct in E. contradiction.
Qed.

Lemma truediv_ok (a b : Z) :
  b <> 0%Z -> truediv a b = ok (float a / float b)%Qc.
Proof.
  intros Hb. unfold truediv. apply fdiv_ok.
  intros E. apply float_eq_0 in E. contradiction.
Qed.

Lemma pow_nonneg (x : Qc) (n : Z) :
  (0 <= n)%Z -> pow x n = ok (x ^ Z.to_nat n)%Qc.
Proof.
  intros Hn. unfold pow. destruct (Z.leb_spec 0 n); [reflexivity | lia].
Qed.

(** ** [OnPolicyActorCritic.is_update] *)

Section OnPolicy_is_update.
Context `{Haiku, Gym} {Params LogPi : Type}.
Implicit Type self : @OnPolicyActorCritic.t _ _ Params LogPi.

(** C2: for an on-policy instance with a non-zero [buffer_size],
    [is_update()] returns a Boolean, and it returns [True] exactly when
    [env_step] is a multiple of [buffer_size]. *)
Theorem on_policy_is_update_iff_multiple self :
  OnPolicyActorCritic.buffer_size self <> 0%Z ->
  exists b : bool,
    OnPolicyActorCritic.is_update self = ok b /\
    (b = true <->
     (OnPolicyActorCritic.buffer_size self | OnPolicyActorCritic.env_step_ self)%Z).
Proof.
  intros Hsize. unfold OnPolicyActorCritic.is_update.
  rewrite mod__ok by assumption. simpl.
  eexists; split; [reflexivity|].
  rewrite Z.eqb_eq. apply Z.mod_divide. assumption.
Qed.

(** With [buffer_size = 0] the modulo raises. *)
Lemma on_policy_is_update_zero self :
  OnPolicyActorCritic.buffer_size self = 0%Z ->
  OnPolicyActorCritic.is_update self = raise ZeroDivisionError.
Proof. intros E. unfold OnPolicyActorCritic.is_update. rewrite E. reflexivity. Qed.

End OnPolicy_is_update.

Lemma on_policy_is_update_iff_multiple_witness :
  exists b : bool,
    OnPolicyActorCritic.is_update example.on_policy_self = ok b /\
    (b = true <->
     (OnPolicyActorCritic.buffer_size example.on_policy_self
      | OnPolicyActorCritic.env_step_ example.on_policy_self)%Z).
Proof.
  apply (on_policy_is_update_iff_multiple example.on_policy_self).
  simpl. lia.
Defined.

(** ** [OffPolicyAlgorithm.is_update] *)

Section OffPolicy_is_update.
Context `{Haiku, Gym}.
Implicit Type self : OffPolicyAlgorithm.t.

Lemma off_policy_is_update_never_true_early self :
  (OffPolicyAlgorithm.env_step_ self < OffPolicyAlgorithm.start_steps self)%Z ->
  OffPolicyAlgorithm.is_update self <> ok true.
Proof.
  intros Hlt. unfold OffPolicyAlgorithm.is_update, mod_.
  destruct (_ =? 0)%Z; simpl; [discriminate|].
  destruct (_ =? 0)%Z; simpl; [|discriminate].
  destruct (Z.leb_spec (OffPolicyAlgorithm.start_steps self)
              (OffPolicyAlgorithm.env_step_ self)); [lia | discriminate].
Qed.

Lemma off_policy_is_update_false_early self :
  (OffPolicyAlgorithm.env_step_ self < OffPolicyAlgorithm.start_steps self)%Z ->
  OffPolicyAlgorithm.update_interval self <> 0%Z ->
  OffPolicyAlgorithm.is_update self = ok false.
Proof.
  intros Hlt Hne. unfold OffPolicyAlgorithm.is_update.
  rewrite mod__ok by assumption. simpl.
  destruct (_ =? 0)%Z; [|reflexivity].
  destruct (Z.leb_spec (OffPolicyAlgorithm.start_steps self)
              (OffPolicyAlgorithm.env_step_ self)); [lia | reflexivity].
Qed.

(** At the last warm-up step, [env_step = start_steps], an update is
    already due when [start_steps] is a multiple of [update_interval]. *)
Lemma off_policy_is_update_at_start self :
  OffPolicyAlgorithm.env_step_ self = OffPolicyAlgorithm.start_steps self ->
  OffPolicyAlgorithm.update_interval self <> 0%Z ->
  (OffPolicyAlgorithm.update_interval self | OffPolicyAlgorithm.start_steps self)%Z ->
  OffPolicyAlgorithm.is_update self = ok true.
Proof.
  intros E Hne Hdiv. unfold OffPolicyAlgorithm.is_update.
  rewrite mod__ok by assumption. simpl. rewrite E.
  apply Z.mod_divide in Hdiv; [|assumption]. rewrite Hdiv. simpl.
  rewrite Z.leb_refl. reflexivity.
Qed.

End OffPolicy_is_update.

(** ** [OffPolicyAlgorithm.step] *)

Section OffPolicy_step.
Context `{Haiku, Gym}.
Variable explore : State -> M OffPolicyAlgorithm.t Action.

Import OffPolicyAlgorithm.

Lemma step_warm_up state t0 w :
  (env_step_ (agent w) + 1 <= start_steps (agent w))%Z ->
  step explore state t0 w =
  after_action state t0 (fst (action_space_sample (env w)))
    (counted (agent w)) (snd (action_space_sample (env w)))
    (calls w ++ [call_sample (fst (action_space_sample (env w)))]).
Proof.
  intros Hle. unfold step, after_action, stored, counted.
  destruct w as [self e cs]. simpl in *.
  unfold mbind, M_bind, bind, on_self, on_env, record, modify, gets.
  unfold env_step_ in *. cbn.
  destruct (Z.leb_spec (Algorithm.env_step (base self) + 1) (start_steps self));
    [|lia].
  cbn. destruct (action_space_sample e) as [a e1]. simpl.
  destruct (env_step e1 a) as [[[ns r] d] e2]. simpl.
  destruct d; simpl.
  - destruct (env_reset e2) as [ns' e3]. simpl. rewrite <- !app_assoc. reflexivity.
  - rewrite <- !app_assoc. reflexivity.
Qed.

Lemma step_explore_ok state t0 w a self1 :
  (start_steps (agent w) < env_step_ (agent w) + 1)%Z ->
  explore state (counted (agent w)) = (ok a, self1) ->
  step explore state t0 w =
  after_action state t0 a self1 (env w) (calls w ++ [call_explore state]).
Proof.
  intros Hlt Hex. unfold step, after_action, stored, counted in *.
  destruct w as [self e cs]. simpl in *.
  unfold mbind, M_bind, bind, on_self, on_env, record, modify, gets.
  unfold env_step_ in *. cbn.
  destruct (Z.leb_spec (Algorithm.env_step (base self) + 1) (start_steps self));
    [lia|].
  cbn. rewrite Hex. cbn.
  destruct (env_step e a) as [[[ns r] d] e2]. cbn.
  destruct d; cbn.
  - destruct (env_reset e2) as [ns' e3]. cbn. rewrite <- !app_assoc. reflexivity.
  - rewrite <- !app_assoc. reflexivity.
Qed.

Lemma step_explore_raise state t0 w ex self1 :
  (start_steps (agent w) < env_step_ (agent w) + 1)%Z ->
  explore state (counted (agent w)) = (raise ex, self1) ->
  step explore state t0 w =
  (raise ex, mkWorld self1 (env w) (calls w ++ [call_explore state])).
Proof.
  intros Hlt Hex. unfold step, counted in *.
  destruct w as [self e cs]. simpl in *.
  unfold mbind, M_bind, bind, on_self, on_env, record, modify, gets.
  unfold env_step_ in *. cbn.
  destruct (Z.leb_spec (Algorithm.env_step (base self) + 1) (start_steps self));
    [lia|].
  cbn. rewrite Hex. reflexivity.
Qed.

(** The buffer and the call record after the action is chosen. *)
Lemma after_action_spec state t0 a self e cs :
  exists r w' next_state reward done e',
    after_action state t0 a self e cs = (ok r, w') /\
    env_step e a = (next_state, reward, done, e') /\
    buf_appended (buffer (agent w')) =
      buf_appended (buffer self) ++
      [(state, a, reward,
        (if (t0 + 1 =? _max_episode_steps e')%Z then false else done),
        next_state, done)] /\
    calls w' = cs ++ call_env_step a :: (if done then [call_env_reset] else []).
Proof.
  unfold after_action, stored.
  destruct (env_step e a) as [[[ns r] d] e2].
  destruct d; repeat eexists.
Qed.

(** C8: during the warm-up of an off-policy learner actions are random
    and no update is due.  In a call to [step] in which the incremented
    [env_step] is at most [start_steps], the call returns, the action given
    to [env.step] and stored in the buffer is the one returned by
    [env.action_space.sample()], and [explore] is not called.  When
    [env_step] is below [start_steps], [is_update()] never returns [True],
    and it returns [False] unless [update_interval] is zero. *)
Theorem off_policy_warm_up state t0 w :
  ((env_step_ (agent w) + 1 <= start_steps (agent w))%Z ->
   exists r w' a reward mask next_state (done : bool),
     step explore state t0 w = (ok r, w') /\
     a = fst (action_space_sample (env w)) /\
     calls w' =
       calls w ++ call_sample a :: call_env_step a ::
                  (if done then [call_env_reset] else []) /\
     (forall s, ~ In (call_explore s) (drop (length (calls w)) (calls w'))) /\
     buf_appended (buffer (agent w')) =
       buf_appended (buffer (agent w)) ++
       [(state, a, reward, mask, next_state, done)]) /\
  ((env_step_ (agent w) < start_steps (agent w))%Z ->
   is_update (agent w) <> ok true /\
   (update_interval (agent w) <> 0%Z -> is_update (agent w) = ok false)).
Proof.
  split.
  - intros Hle. rewrite step_warm_up by assumption.
    set (a := fst (action_space_sample (env w))).
    destruct (after_action_spec state t0 a (counted (agent w))
                (snd (action_space_sample (env w)))
                (calls w ++ [call_sample a]))
      as (r & w' & ns & rew & d & e' & Heq & Hstep & Hbuf & Hcalls).
    exists r, w', a, rew,
      (if (t0 + 1 =? _max_episode_steps e')%Z then false else d), ns, d.
    rewrite <- app_assoc in Hcalls. simpl in Hcalls.
    repeat split; try assumption.
    intros s. rewrite Hcalls, drop_app_length.
    destruct d; simpl; intuition discriminate.
  - intros Hlt. split.
    + apply off_policy_is_update_never_true_early; assumption.
    + apply off_policy_is_update_false_early; assumption.
Qed.

(** Past the warm-up, the action is the one [explore(state)] returns. *)
Lemma off_policy_after_warm_up state t0 w a self1 :
  (start_steps (agent w) < env_step_ (agent w) + 1)%Z ->
  explore state (counted (agent w)) = (ok a, self1) ->
  exists r w' (tr : transition),
    step explore state t0 w = (ok r, w') /\
    calls w' = calls w ++ call_explore state :: call_env_step a ::
               (if tr.2 then [call_env_reset] else []) /\
    tr.1.1.1.1.2 = a /\
    buf_appended (buffer (agent w')) = buf_appended (buffer self1) ++ [tr].
Proof.
  intros Hlt Hex. rewrite (step_explore_ok _ _ _ _ _ Hlt Hex).
  destruct (after_action_spec state t0 a self1 (env w)
              (calls w ++ [call_explore state]))
    as (r & w' & ns & rew & d & e' & Heq & Hstep & Hbuf & Hcalls).
  exists r, w',
    (state, a, rew,
     (if (t0 + 1 =? _max_episode_steps e')%Z then false else d), ns, d).
  rewrite <- app_assoc in Hcalls.
  split; [exact Heq|]. split; [exact Hcalls|]. split; [reflexivity|exact Hbuf].
Qed.

End OffPolicy_step.

Section off_policy_warm_up_run.
#[local] Existing Instance example.haiku.
#[local] Existing Instance example.gym.

Lemma off_policy_warm_up_witness :
  (exists r w' a reward mask next_state (done : bool),
     OffPolicyAlgorithm.step example.explore 0%Z 0%Z example.off_policy_world
       = (ok r, w') /\
     a = 7%Z /\
     OffPolicyAlgorithm.calls w' =
       [] ++ OffPolicyAlgorithm.call_sample a ::
             OffPolicyAlgorithm.call_env_step a ::
             (if done then [OffPolicyAlgorithm.call_env_reset] else []) /\
     (forall s, ~ In (OffPolicyAlgorithm.call_explore s)
                  (drop 0 (OffPolicyAlgorithm.calls w'))) /\
     OffPolicyAlgorithm.buf_appended
       (OffPolicyAlgorithm.buffer (OffPolicyAlgorithm.agent w')) =
       [] ++ [(0%Z, a, reward, mask, next_state, done)]) /\
  (OffPolicyAlgorithm.is_update example.off_policy_self <> ok true /\
   (2%Z <> 0%Z -> OffPolicyAlgorithm.is_update example.off_policy_self = ok false)).
Proof.
  destruct (off_policy_warm_up (H0:=example.gym) example.explore 0%Z 0%Z
              example.off_policy_world) as [Hstep Hupd].
  split.
  - apply Hstep. vm_compute. discriminate.
  - apply Hupd. vm_compute. reflexivity.
Defined.

End off_policy_warm_up_run.

(** ** The mask stored by [step] *)

Section step_mask.
Context `{Haiku, Gym} {Params LogPi : Type}.
Variable _explore : Params -> Key -> State -> Action * LogPi.
Variable explore : State -> M OffPolicyAlgorithm.t Action.

Lemma on_policy_step_unset state t0 (self : @OnPolicyActorCritic.t _ _ Params LogPi) e :
  OnPolicyActorCritic.params_actor self = None ->
  exists w',
    OnPolicyActorCritic.step _explore state t0 (self, e)
      = (raise AttributeError, w') /\
    OnPolicyActorCritic.rb_appended (OnPolicyActorCritic.buffer (fst w')) =
    OnPolicyActorCritic.rb_appended (OnPolicyActorCritic.buffer self).
Proof.
  intros Hp. unfold OnPolicyActorCritic.step, OnPolicyActorCritic.explore.
  unfold mbind, M_bind, bind, OnPolicyActorCritic.on_self,
    OnPolicyActorCritic.getattr_params_actor, modify. cbn.
  rewrite Hp. cbn. eexists; split; reflexivity.
Qed.

Lemma on_policy_step_set state t0 (self : @OnPolicyActorCritic.t _ _ Params LogPi) e p :
  OnPolicyActorCritic.params_actor self = Some p ->
  exists r w' action log_pi next_state reward (done : bool) e',
    OnPolicyActorCritic.step _explore state t0 (self, e) = (ok r, w') /\
    env_step e action = (next_state, reward, done, e') /\
    OnPolicyActorCritic.rb_appended (OnPolicyActorCritic.buffer (fst w')) =
      OnPolicyActorCritic.rb_appended (OnPolicyActorCritic.buffer self) ++
      [(state, action, reward,
        (if (t0 + 1 =? _max_episode_steps e')%Z then false else done),
        log_pi, next_state)] /\
    OnPolicyActorCritic.env_step_ (fst w') =
      (OnPolicyActorCritic.env_step_ self + 1)%Z.
Proof.
  intros Hp. unfold OnPolicyActorCritic.step, OnPolicyActorCritic.explore.
  unfold mbind, M_bind, bind, OnPolicyActorCritic.on_self,
    OnPolicyActorCritic.on_env, OnPolicyActorCritic.getattr_params_actor,
    OnPolicyActorCritic.next_rng, modify, gets. cbn.
  rewrite Hp. cbn.
  destruct (next_key _) as [k rng']. cbn.
  destruct (_explore p k state) as [a lp] eqn:Ha. cbn.
  destruct (env_step e a) as [[[ns rw] d] e2] eqn:Hs. cbn.
  destruct d; cbn.
  - destruct (env_reset e2) as [ns' e3]. cbn.
    eexists _, _, a, lp, ns, rw, true, e2. repeat split; assumption.
  - eexists _, _, a, lp, ns, rw, false, e2. repeat split; assumption.
Qed.

(** C9: time-limit terminations are stored as non-terminal.  A call to
    [OnPolicyActorCritic.step] fails, appending nothing, only when
    [params_actor] is unset; on every other learner it returns and
    appends one transition, for the action and log-probability that
    [_explore] gives for the learner's next key.  A call to
    [OffPolicyAlgorithm.step] raises only past the warm-up, when
    [explore] raises; otherwise it returns and appends one transition,
    for the sampled action during the warm-up and for the action of
    [explore] after it.  In both classes the mask of the appended
    transition is [False] when the incremented [t] equals
    [env._max_episode_steps], whatever [done] the environment reported
    for that action, and is [done] otherwise. *)
Theorem step_mask_time_limit :
  (forall state t0 (self : @OnPolicyActorCritic.t _ _ Params LogPi) e,
     (OnPolicyActorCritic.params_actor self = None /\
      exists w',
        OnPolicyActorCritic.step _explore state t0 (self, e)
          = (raise AttributeError, w') /\
        OnPolicyActorCritic.rb_appended (OnPolicyActorCritic.buffer (fst w')) =
        OnPolicyActorCritic.rb_appended (OnPolicyActorCritic.buffer self))
     \/
     (exists p r w' action log_pi next_state reward (done : bool) e',
        OnPolicyActorCritic.params_actor self = Some p /\
        _explore p
          (fst (next_key (Algorithm.rng (OnPolicyActorCritic.base self))))
          state = (action, log_pi) /\
        OnPolicyActorCritic.step _explore state t0 (self, e) = (ok r, w') /\
        env_step e action = (next_state, reward, done, e') /\
        OnPolicyActorCritic.rb_appended (OnPolicyActorCritic.buffer (fst w')) =
          OnPolicyActorCritic.rb_appended (OnPolicyActorCritic.buffer self) ++
          [(state, action, reward,
            (if (t0 + 1 =? _max_episode_steps e')%Z then false else done),
            log_pi, next_state)])) /\
  (forall state t0 (w : OffPolicyAlgorithm.world),
     (exists ex self1,
        (OffPolicyAlgorithm.start_steps (OffPolicyAlgorithm.agent w)
         < OffPolicyAlgorithm.env_step_ (OffPolicyAlgorithm.agent w) + 1)%Z /\
        explore state (OffPolicyAlgorithm.counted (OffPolicyAlgorithm.agent w))
          = (raise ex, self1) /\
        OffPolicyAlgorithm.step explore state t0 w =
          (raise ex,
           OffPolicyAlgorithm.mkWorld self1 (OffPolicyAlgorithm.env w)
             (OffPolicyAlgorithm.calls w ++
              [OffPolicyAlgorithm.call_explore state])))
     \/
     (exists r w' self1 e action next_state reward (done : bool) e',
        (((OffPolicyAlgorithm.env_step_ (OffPolicyAlgorithm.agent w) + 1
           <= OffPolicyAlgorithm.start_steps (OffPolicyAlgorithm.agent w))%Z /\
          action_space_sample (OffPolicyAlgorithm.env w) = (action, e) /\
          self1 = OffPolicyAlgorithm.counted (OffPolicyAlgorithm.agent w))
         \/
         ((OffPolicyAlgorithm.start_steps (OffPolicyAlgorithm.agent w)
           < OffPolicyAlgorithm.env_step_ (OffPolicyAlgorithm.agent w) + 1)%Z /\
          explore state
            (OffPolicyAlgorithm.counted (OffPolicyAlgorithm.agent w))
            = (ok action, self1) /\
          e = OffPolicyAlgorithm.env w)) /\
        OffPolicyAlgorithm.step explore state t0 w = (ok r, w') /\
        env_step e action = (next_state, reward, done, e') /\
        OffPolicyAlgorithm.buf_appended
          (OffPolicyAlgorithm.buffer (OffPolicyAlgorithm.agent w')) =
          OffPolicyAlgorithm.buf_appended (OffPolicyAlgorithm.buffer self1) ++
          [(state, action, reward,
            (if (t0 + 1 =? _max_episode_steps e')%Z then false else done),
            next_state, done)])).
Proof.
  split.
  - intros state t0 self e.
    destruct (OnPolicyActorCritic.params_actor self) as [p|] eqn:Hp.
    + right.
      unfold OnPolicyActorCritic.step, OnPolicyActorCritic.explore.
      unfold mbind, M_bind, bind, OnPolicyActorCritic.on_self,
        OnPolicyActorCritic.on_env, OnPolicyActorCritic.getattr_params_actor,
        OnPolicyActorCritic.next_rng, modify, gets. cbn.
      rewrite Hp. cbn.
      destruct (next_key _) as [k rng']. cbn.
      destruct (_explore p k state) as [a lp] eqn:Ha. cbn.
      destruct (env_step e a) as [[[ns rw] d] e2] eqn:Hs. cbn.
      destruct d; cbn.
      * destruct (env_reset e2) as [ns' e3]. cbn.
        eexists p, _, _, a, lp, ns, rw, true, e2.
        repeat split; first [reflexivity | assumption].
      * eexists p, _, _, a, lp, ns, rw, false, e2.
        repeat split; first [reflexivity | assumption].
    + left. split; [reflexivity|]. apply on_policy_step_unset. assumption.
  - intros state t0 w.
    destruct (Z.le_gt_cases
                (OffPolicyAlgorithm.env_step_ (OffPolicyAlgorithm.agent w) + 1)
                (OffPolicyAlgorithm.start_steps (OffPolicyAlgorithm.agent w)))
      as [Hwarm | Hlate].
    + right. rewrite (step_warm_up explore) by assumption.
      destruct (action_space_sample (OffPolicyAlgorithm.env w))
        as [a e1] eqn:Hsample.
      cbn [fst snd].
      destruct (after_action_spec state t0 a
                  (OffPolicyAlgorithm.counted (OffPolicyAlgorithm.agent w)) e1
                  (OffPolicyAlgorithm.calls w ++
                   [OffPolicyAlgorithm.call_sample a]))
        as (r & w' & ns & rw & d & e' & Heq & Henv & Hbuf & _).
      exists r, w', (OffPolicyAlgorithm.counted (OffPolicyAlgorithm.agent w)),
        e1, a, ns, rw, d, e'.
      split; [left; auto|]. auto.
    + destruct (explore state
                  (OffPolicyAlgorithm.counted (OffPolicyAlgorithm.agent w)))
        as [[ex | a] self1] eqn:Hex.
      * left. exists ex, self1. split; [assumption|]. split; [reflexivity|].
        apply step_explore_raise; assumption.
      * right. rewrite (step_explore_ok explore _ _ _ _ _ Hlate Hex).
        destruct (after_action_spec state t0 a self1 (OffPolicyAlgorithm.env w)
                    (OffPolicyAlgorithm.calls w ++
                     [OffPolicyAlgorithm.call_explore state]))
          as (r & w' & ns & rw & d & e' & Heq & Henv & Hbuf & _).
        exists r, w', self1, (OffPolicyAlgorithm.env w), a, ns, rw, d, e'.
        split; [right; auto|]. auto.
Qed.

End step_mask.

Section step_mask_run.
#[local] Existing Instance example.haiku.
#[local] Existing Instance example.gym.

(** The second step of an episode whose time limit is two: the
    environment reports [done], both learners store the mask [False]. *)
Lemma step_mask_time_limit_witness :
  (exists r w',
     OnPolicyActorCritic.step example.on_policy_explore 1%Z 1%Z
       (example.on_policy_ready, 1%Z) = (ok r, w') /\
     OnPolicyActorCritic.rb_appended (OnPolicyActorCritic.buffer (fst w'))
     = [(1%Z, 5%Z, Q2Qc 5, false, 42%Z, 2%Z)]) /\
  (exists r w',
     OffPolicyAlgorithm.step example.explore 1%Z 1%Z
       (OffPolicyAlgorithm.mkWorld example.off_policy_self 1%Z []) = (ok r, w') /\
     OffPolicyAlgorithm.buf_appended
       (OffPolicyAlgorithm.buffer (OffPolicyAlgorithm.agent w'))
     = [(1%Z, 7%Z, Q2Qc 7, false, 2%Z, true)]).
Proof.
  destruct (step_mask_time_limit (H:=example.haiku) (H0:=example.gym)
              example.on_policy_explore example.explore) as [Hon Hoff].
  split.
  - destruct (Hon 1%Z 1%Z example.on_policy_ready 1%Z)
      as [[Hnone _]
         | (p & r & w' & a & lp & ns & rw & d & e' & Hp & Hex & Hstep & Henv
            & Hbuf)].
    + discriminate Hnone.
    + exists r, w'. split; [exact Hstep|].
      vm_compute in Hp. injection Hp as <-.
      vm_compute in Hex. injection Hex as <- <-.
      vm_compute in Henv. injection Henv as <- <- <- <-.
      rewrite Hbuf. vm_compute. reflexivity.
  - destruct (Hoff 1%Z 1%Z
                (OffPolicyAlgorithm.mkWorld example.off_policy_self 1%Z []))
      as [(ex & self1 & Hlate & _)
         | (r & w' & self1 & e & a & ns & rw & d & e' & Hact & Hstep & Henv
            & Hbuf)].
    + vm_compute in Hlate. discriminate Hlate.
    + exists r, w'. split; [exact Hstep|].
      destruct Hact as [(_ & Hsample & ->) | (Hlate & _)];
        [|vm_compute in Hlate; discriminate Hlate].
      vm_compute in Hsample. injection Hsample as <- <-.
      vm_compute in Henv. injection Henv as <- <- <- <-.
      rewrite Hbuf. vm_compute. reflexivity.
Defined.

End step_mask_run.

(** ** [OffPolicyAlgorithm.__init__] *)

Section OffPolicy_init.
Context `{Haiku, Gym}.
Variables (num_steps : Z) (state_space action_space : Space) (seed : Z)
  (gamma : Qc) (nstep buffer_size : Z) (use_per : bool)
  (batch_size start_steps update_interval : Z).

Local Abbreviation init :=
  (OffPolicyAlgorithm.__init__ num_steps state_space action_space seed gamma nstep buffer_size
     use_per batch_size start_steps update_interval).

(** What the constructor builds when neither the division nor the power
    raises. *)
Lemma off_policy_init_inv self :
  init = ok self ->
  exists b d,
    (if use_per then
       beta_steps ← truediv (num_steps - start_steps) update_interval;
       mret (OffPolicyAlgorithm.PrioritizedReplayBuffer buffer_size state_space action_space
               gamma nstep beta_steps)
     else mret (OffPolicyAlgorithm.ReplayBuffer buffer_size state_space action_space gamma nstep))
    = ok b /\
    pow gamma nstep = ok d /\
    self = OffPolicyAlgorithm.mk (Algorithm.__init__ num_steps state_space action_space seed gamma)
             b d use_per batch_size start_steps update_interval.
Proof.
  unfold OffPolicyAlgorithm.__init__. intros Hinit.
  destruct (if use_per then _ else _) as [ex | b]; [discriminate|].
  destruct (pow gamma nstep) as [ex | d]; [discriminate|].
  cbn in Hinit. injection Hinit as <-. eauto.
Qed.

Lemma off_policy_init_ok :
  (use_per = true -> update_interval <> 0%Z) ->
  (nstep < 0 -> gamma <> 0%Qc)%Z ->
  exists self, init = ok self.
Proof.
  intros Hdiv Hpow. unfold OffPolicyAlgorithm.__init__.
  assert (Hp : exists d, pow gamma nstep = ok d).
  { unfold pow. destruct (Z.leb_spec 0 nstep); [eauto|].
    destruct (Qc_eq_bool gamma 0) eqn:E; [|eauto].
    apply Qc_eq_bool_correct in E. exfalso. apply (Hpow ltac:(lia) E). }
  destruct Hp as [d Hd]. rewrite Hd.
  destruct use_per.
  - rewrite truediv_ok by auto. cbn. eauto.
  - cbn. eauto.
Qed.

(** C3: a construction of an off-policy learner completes when
    [update_interval] is non-zero (needed only with [use_per]) and
    [gamma ** nstep] is defined.  In every completed construction the
    buffer is a [PrioritizedReplayBuffer] with
    [beta_steps = (num_steps - start_steps) / update_interval] when
    [use_per] is true and a plain [ReplayBuffer] when it is false, and
    both are given the same [buffer_size], [state_space], [action_space],
    [gamma] and [nstep]. *)
Theorem off_policy_init_buffer :
  ((use_per = true -> update_interval <> 0%Z) ->
   (nstep < 0 -> gamma <> 0%Qc)%Z ->
   exists self, init = ok self) /\
  (forall self, init = ok self ->
     OffPolicyAlgorithm.buffer self =
       if use_per then
         OffPolicyAlgorithm.PrioritizedReplayBuffer buffer_size state_space action_space gamma
           nstep (float (num_steps - start_steps) / float update_interval)%Qc
       else
         OffPolicyAlgorithm.ReplayBuffer buffer_size state_space action_space gamma nstep).
Proof.
  split; [apply off_policy_init_ok|].
  intros self Hinit.
  destruct (off_policy_init_inv self Hinit) as (b & d & Hb & _ & ->). cbn.
  destruct use_per; cbn in Hb.
  - unfold truediv, fdiv in Hb.
    destruct (Qc_eq_bool (float update_interval) 0); [discriminate|].
    cbn in Hb. injection Hb as <-. reflexivity.
  - injection Hb as <-. reflexivity.
Qed.

(** With prioritised replay and [update_interval = 0] the construction
    raises. *)
Lemma off_policy_init_per_zero_interval :
  use_per = true -> update_interval = 0%Z -> init = raise ZeroDivisionError.
Proof. intros -> ->. reflexivity. Qed.

Lemma nstep_return_bootstrap (rewards : list Qc) (v : Qc) :
  nstep_return gamma rewards v =
  (nstep_return gamma rewards 0 + gamma ^ length rewards * v)%Qc.
Proof.
  induction rewards as [|r rest IH]; cbn.
  - ring.
  - rewrite IH. ring.
Qed.

(** C6: in every completed construction of an off-policy learner with a
    non-negative [nstep], [self.discount] is [gamma] to the power
    [nstep]; it is the weight with which the value estimate enters a
    return accumulated over [nstep] transitions.  With a negative [nstep]
    it is the inverse of [gamma] to the power [-nstep]. *)
Theorem off_policy_init_discount self :
  init = ok self ->
  ((0 <= nstep)%Z ->
   OffPolicyAlgorithm.discount self = (gamma ^ Z.to_nat nstep)%Qc /\
   forall rewards v,
     length rewards = Z.to_nat nstep ->
     nstep_return gamma rewards v =
     (nstep_return gamma rewards 0 + OffPolicyAlgorithm.discount self * v)%Qc) /\
  ((nstep < 0)%Z ->
   OffPolicyAlgorithm.discount self = (/ gamma ^ Z.to_nat (- nstep))%Qc).
Proof.
  intros Hinit.
  destruct (off_policy_init_inv self Hinit) as (b & d & _ & Hd & ->). cbn.
  unfold pow in Hd. split.
  - intros Hn. destruct (Z.leb_spec 0 nstep); [|lia].
    injection Hd as <-. split; [reflexivity|].
    intros rewards v Hlen. rewrite <- Hlen. apply nstep_return_bootstrap.
  - intros Hn. destruct (Z.leb_spec 0 nstep); [lia|].
    destruct (Qc_eq_bool gamma 0); [discriminate|].
    injection Hd as <-. reflexivity.
Qed.

End OffPolicy_init.

Section off_policy_init_run.
#[local] Existing Instance example.haiku.
#[local] Existing Instance example.gym.

Local Abbreviation init_per :=
  (OffPolicyAlgorithm.__init__ 100%Z 0%Z 0%Z 42%Z (Q2Qc (99 # 100)) 3%Z 10%Z
     true 32%Z 5%Z 2%Z).

Lemma off_policy_init_buffer_witness :
  (exists self, init_per = ok self) /\
  OffPolicyAlgorithm.buffer example.per_self =
    OffPolicyAlgorithm.PrioritizedReplayBuffer 10%Z 0%Z 0%Z (Q2Qc (99 # 100))
      3%Z (float (100 - 5) / float 2)%Qc.
Proof.
  destruct (off_policy_init_buffer (H0:=example.gym) 100%Z 0%Z 0%Z 42%Z
              (Q2Qc (99 # 100)) 3%Z 10%Z true 32%Z 5%Z 2%Z) as [Hok Hbuf].
  split.
  - apply Hok; intros; lia.
  - apply (Hbuf example.per_self). reflexivity.
Defined.

Lemma off_policy_init_discount_witness :
  ((0 <= 3)%Z ->
   OffPolicyAlgorithm.discount example.per_self =
     (Q2Qc (99 # 100) ^ Z.to_nat 3)%Qc /\
   forall rewards v,
     length rewards = Z.to_nat 3 ->
     nstep_return (Q2Qc (99 # 100)) rewards v =
     (nstep_return (Q2Qc (99 # 100)) rewards 0
      + OffPolicyAlgorithm.discount example.per_self * v)%Qc) /\
  ((3 < 0)%Z ->
   OffPolicyAlgorithm.discount example.per_self =
     (/ Q2Qc (99 # 100) ^ Z.to_nat (- 3))%Qc).
Proof.
  apply (off_policy_init_discount (H0:=example.gym) 100%Z 0%Z 0%Z 42%Z
           (Q2Qc (99 # 100)) 3%Z 10%Z true 32%Z 5%Z 2%Z example.per_self).
  reflexivity.
Defined.

End off_policy_init_run.

(** ** [soft_update] and the target networks *)

Section pytree_induction.
Variable P : optim.pytree -> Prop.
Hypothesis P_leaf : forall a, P (optim.Leaf a).
Hypothesis P_node :
  forall items, Forall (fun kc => P kc.2) items -> P (optim.Node items).

Lemma pytree_nested_ind : forall t, P t.
Proof.
  fix IH 1. intros [a | items].
  - apply P_leaf.
  - apply P_node. induction items as [| [k c] items IHitems].
    + constructor.
    + constructor; [apply IH | apply IHitems].
Qed.
End pytree_induction.

Lemma zip_with_hard (a b : list Qc) :
  length a = length b ->
  zip_with (fun t s => (1 - 1) * t + 1 * s)%Qc a b = b.
Proof.
  revert b. induction a as [| x a IH]; intros [| y b] Hlen; try discriminate.
  - reflexivity.
  - cbn. f_equal; [ring | apply IH; cbn in Hlen; lia].
Qed.

Lemma tree_multimap_hard (t s : optim.pytree) :
  optim.same_structure t s = true ->
  optim.tree_multimap (fun t s => (1 - 1) * t + 1 * s)%Qc t s = ok s.
Proof.
  revert s. induction t as [a | items IH] using pytree_nested_ind;
    intros [b | ds] Hs; try discriminate.
  - cbn in *. rewrite Hs. apply Nat.eqb_eq in Hs.
    rewrite zip_with_hard by assumption. reflexivity.
  - cbn in *. revert ds Hs.
    induction IH as [| [k c] items Hc _ IHitems]; intros [| [k' d] ds] Hs;
      try discriminate.
    + reflexivity.
    + apply andb_prop in Hs as [Hs Hrest]. apply andb_prop in Hs as [Hk Hcd].
      rewrite Hk. cbn in Hc. rewrite (Hc d Hcd). cbn.
      specialize (IHitems ds Hrest).
      apply String.eqb_eq in Hk. subst k'.
      destruct ((fix items (cs ds : list (string * optim.pytree)) {struct cs} := _) items ds)
        as [ex | r]; cbn in *; [discriminate|].
      injection IHitems as ->. reflexivity.
Qed.

Lemma tree_multimap_defined f (t s : optim.pytree) :
  optim.same_structure t s = true ->
  exists r, optim.tree_multimap f t s = ok r.
Proof.
  revert s. induction t as [a | items IH] using pytree_nested_ind;
    intros [b | ds] Hs; try discriminate.
  - cbn in *. rewrite Hs. eauto.
  - cbn in *.
    enough (exists r,
      (fix items (cs ds : list (string * optim.pytree)) {struct cs} :=
         match cs, ds with
         | [], [] => ok []
         | (k, c) :: cs', (k', d) :: ds' =>
             if String.eqb k k' then
               c' ← optim.tree_multimap f c d;
               r ← items cs' ds';
               mret ((k, c') :: r)
             else raise ValueError
         | _, _ => raise ValueError
         end) items ds = ok r) as [r ->] by (cbn; eauto).
    revert ds Hs.
    induction IH as [| [k c] items Hc _ IHitems]; intros [| [k' d] ds] Hs;
      try discriminate.
    + eauto.
    + apply andb_prop in Hs as [Hs Hrest]. apply andb_prop in Hs as [Hk Hcd].
      rewrite Hk. cbn in Hc. destruct (Hc d Hcd) as [c' ->].
      destruct (IHitems ds Hrest) as [r ->]. cbn. eauto.
Qed.

Lemma tree_multimap_entry f (t s r : optim.pytree) path i x y :
  optim.tree_multimap f t s = ok r ->
  optim.entry path i t = Some x ->
  optim.entry path i s = Some y ->
  optim.entry path i r = Some (f x y).
Proof.
  revert s r path. induction t as [a | items IH] using pytree_nested_ind;
    intros [b | ds] r path Hr Hx Hy; try discriminate.
  - cbn in Hr. destruct (length a =? length b)%nat; [|discriminate].
    injection Hr as <-. destruct path; [|discriminate]. cbn in *.
    rewrite lookup_zip_with, Hx, Hy. reflexivity.
  - destruct path as [| key path]; [discriminate|]. cbn in Hr, Hx, Hy.
    destruct ((fix items (cs ds : list (string * optim.pytree)) {struct cs} := _) items ds)
      as [ex | rs] eqn:Hrs; [discriminate|].
    cbn in Hr. injection Hr as <-. cbn.
    revert ds rs Hrs Hx Hy.
    induction IH as [| [k c] items Hc _ IHitems]; intros [| [k' d] ds] rs Hrs Hx Hy;
      try discriminate.
    destruct (String.eqb k k') eqn:Hk; [|discriminate].
    apply String.eqb_eq in Hk. subst k'.
    destruct (optim.tree_multimap f c d) as [ex | c'] eqn:Hcd; [discriminate|].
    cbn in Hrs.
    destruct ((fix items (cs ds : list (string * optim.pytree)) {struct cs} := _) items ds)
      as [ex | rs'] eqn:Hrs'; [discriminate|].
    cbn in Hrs. injection Hrs as <-. cbn in *.
    destruct (String.eqb key k).
    + apply (Hc d c' path Hcd Hx Hy).
    + apply (IHitems ds rs' Hrs' Hx Hy).
Qed.

Section target_sync.
Context `{Haiku, Gym}.

(** C1: the target network is synchronised hard in [QLearning] and soft in
    [OffPolicyActorCritic].  The [_update_target] of a constructed
    [QLearning] is [soft_update] with [tau = 1], and on target and online
    parameters of the same structure it returns the online parameters.
    The [_update_target] of an [OffPolicyActorCritic] constructed with
    [tau] is [soft_update] with that [tau]; on parameters of the same
    structure it returns parameters whose every entry is
    [(1 - tau) * target + tau * online]. *)
Theorem target_sync_hard_and_soft :
  (forall num_steps state_space action_space seed gamma nstep buffer_size
          use_per batch_size start_steps update_interval
          update_interval_target eps eps_eval self target online,
     QLearning.__init__ num_steps state_space action_space seed gamma nstep
       buffer_size use_per batch_size start_steps update_interval
       update_interval_target eps eps_eval = ok self ->
     QLearning._update_target self target online
       = optim.soft_update target online 1%Qc /\
     (optim.same_structure target online = true ->
      QLearning._update_target self target online = ok online)) /\
  (forall num_steps state_space action_space seed gamma nstep buffer_size
          use_per batch_size start_steps update_interval tau self target online,
     OffPolicyActorCritic.__init__ num_steps state_space action_space seed
       gamma nstep buffer_size use_per batch_size start_steps update_interval
       tau = ok self ->
     OffPolicyActorCritic._update_target self target online
       = optim.soft_update target online tau /\
     (optim.same_structure target online = true ->
      exists blended,
        OffPolicyActorCritic._update_target self target online = ok blended /\
        forall path i x y,
          optim.entry path i target = Some x ->
          optim.entry path i online = Some y ->
          optim.entry path i blended = Some ((1 - tau) * x + tau * y)%Qc)).
Proof.
  split.
  - intros * Hinit. unfold QLearning.__init__ in Hinit.
    destruct (OffPolicyAlgorithm.__init__ _ _ _ _ _ _ _ _ _ _ _)
      as [ex | base]; [discriminate|].
    cbn in Hinit. injection Hinit as <-. cbn. split; [reflexivity|].
    apply tree_multimap_hard.
  - intros * Hinit. unfold OffPolicyActorCritic.__init__ in Hinit.
    destruct (OffPolicyAlgorithm.__init__ _ _ _ _ _ _ _ _ _ _ _)
      as [ex | base]; [discriminate|].
    cbn in Hinit. injection Hinit as <-. cbn. split; [reflexivity|].
    intros Hs. unfold optim.soft_update.
    destruct (tree_multimap_defined
                (fun t s => (1 - tau) * t + tau * s)%Qc target online Hs)
      as [blended Hb].
    exists blended. split; [assumption|].
    intros path i x y Hx Hy.
    apply (tree_multimap_entry _ _ _ _ _ _ _ _ Hb Hx Hy).
Qed.

End target_sync.

Section target_sync_run.
#[local] Existing Instance example.haiku.
#[local] Existing Instance example.gym.

Lemma target_sync_hard_and_soft_witness :
  QLearning._update_target example.q_self
    example.target_params example.online_params = ok example.online_params /\
  exists blended,
    OffPolicyActorCritic._update_target example.ac_self
      example.target_params example.online_params = ok blended /\
    forall path i x y,
      optim.entry path i example.target_params = Some x ->
      optim.entry path i example.online_params = Some y ->
      optim.entry path i blended
        = Some ((1 - Q2Qc (1 # 200)) * x + Q2Qc (1 # 200) * y)%Qc.
Proof.
  destruct (target_sync_hard_and_soft (H0:=example.gym)) as [Hhard Hsoft].
  split.
  - apply (Hhard 100%Z 0%Z 0%Z 42%Z (Q2Qc (99 # 100)) 3%Z 10%Z true 32%Z 5%Z
             2%Z 8000%Z (Q2Qc (1 # 100)) (Q2Qc (1 # 1000)) example.q_self);
      reflexivity.
  - apply (Hsoft 100%Z 0%Z 0%Z 42%Z (Q2Qc (99 # 100)) 3%Z 10%Z true 32%Z 5%Z
             2%Z (Q2Qc (1 # 200)) example.ac_self);
      reflexivity.
Defined.

End target_sync_run.

(** ** [ReplayBuffer] as a circular store *)

Section circular_store.
Context {T : Type}.
Implicit Types (b : buffer.t T) (xs : list T) (x : T).

Lemma extend_snoc xs x b :
  buffer.extend (xs ++ [x]) b = (b' ← buffer.extend xs b; buffer.append x b').
Proof.
  revert b. induction xs as [| y xs IH]; intros b; cbn.
  - destruct (buffer.append x b); reflexivity.
  - destruct (buffer.append y b) as [ex | b1]; cbn; [reflexivity | apply IH].
Qed.

Lemma mod_apart (size j k : nat) :
  j < k -> k < j + size -> j mod size <> k mod size.
Proof.
  intros Hjk Hk E.
  assert (Hsize : size <> 0) by lia.
  pose proof (Nat.div_mod_eq j size) as Hj.
  pose proof (Nat.div_mod_eq k size) as Hk'.
  rewrite E in Hj.
  assert (Hq : j / size <= k / size) by (apply Nat.Div0.div_le_mono; lia).
  generalize dependent (k mod size). generalize dependent (j / size).
  generalize dependent (k / size). intros q2 q1 Hq r _ Hj Hk'.
  destruct (decide (q1 = q2)) as [-> | Hne]; [lia|].
  assert (size * q1 + size <= size * q2) by nia. lia.
Qed.

Lemma represents_init (size : nat) :
  buffer.represents (T:=T) size [] (buffer.__init__ size).
Proof.
  unfold buffer.represents, buffer.__init__. cbn.
  rewrite length_replicate, Nat.Div0.mod_0_l.
  repeat split; try reflexivity. intros j Hj. lia.
Qed.

Lemma represents_append (size : nat) xs x b :
  0 < size -> buffer.represents size xs b ->
  exists b', buffer.append x b = ok b' /\ buffer.represents size (xs ++ [x]) b' /\
             buffer.slots b' = <[buffer._p b := Some x]> (buffer.slots b).
Proof.
  intros Hsize (Hbs & Hlen & Hp & Hn & Hslots).
  unfold buffer.append. rewrite Hbs.
  destruct (Nat.eqb_spec size 0) as [-> | _]; [lia|].
  eexists. split; [reflexivity|]. split; [|reflexivity].
  unfold buffer.represents. cbn. rewrite length_insert, length_app. cbn.
  repeat split; try assumption.
  - rewrite Hp, Nat.Div0.add_mod_idemp_l. reflexivity.
  - rewrite Hn. lia.
  - intros j Hj Hwin. rewrite Hp.
    destruct (decide (j = length xs)) as [-> | Hne].
    + rewrite list_lookup_insert_eq
        by (rewrite Hlen; apply Nat.mod_upper_bound; lia).
      rewrite lookup_app_r by lia. rewrite Nat.sub_diag. reflexivity.
    + rewrite list_lookup_insert_ne by (apply not_eq_sym, mod_apart; lia).
      rewrite lookup_app_l by lia. apply Hslots; lia.
Qed.

Lemma extend_represents (size : nat) xs :
  0 < size ->
  exists b, buffer.extend xs (buffer.__init__ size) = ok b /\
            buffer.represents size xs b.
Proof.
  intros Hsize. induction xs as [| x xs IH] using rev_ind.
  - exists (buffer.__init__ size). split; [reflexivity | apply represents_init].
  - destruct IH as (b & Hext & Hrep).
    destruct (represents_append size xs x b Hsize Hrep) as (b' & Happ & Hrep' & _).
    exists b'. split; [|assumption].
    rewrite extend_snoc, Hext. exact Happ.
Qed.

Lemma oldest_slot (size : nat) xs b i :
  0 < size -> buffer.represents size xs b -> i < buffer._n b ->
  (buffer.oldest b + i) mod buffer.buffer_size b
  = (length xs - buffer._n b + i) mod size.
Proof.
  intros Hsize (Hbs & _ & Hp & Hn & _) Hi. unfold buffer.oldest.
  rewrite Hbs, Hp, Hn in *.
  rewrite Nat.Div0.add_mod_idemp_l.
  replace (length xs mod size + size - Nat.min (length xs) size + i)
    with (length xs mod size + (size - Nat.min (length xs) size + i)) by lia.
  rewrite Nat.Div0.add_mod_idemp_l.
  replace (length xs + (size - Nat.min (length xs) size + i))
    with (length xs - Nat.min (length xs) size + i + 1 * size) by lia.
  apply Nat.Div0.mod_add.
Qed.

Lemma contents_represents (size : nat) xs b :
  0 < size -> buffer.represents size xs b ->
  buffer.contents b = Some <$> drop (length xs - size) xs.
Proof.
  intros Hsize Hrep. pose proof Hrep as (Hbs & Hlen & Hp & Hn & Hslots).
  apply list_eq. intros i. unfold buffer.contents.
  rewrite !list_lookup_fmap, lookup_drop.
  destruct (decide (i < buffer._n b)) as [Hi | Hi].
  - rewrite lookup_seq_lt by assumption. cbn.
    rewrite (oldest_slot size xs b i) by assumption.
    rewrite Hslots by lia. cbn.
    replace (length xs - buffer._n b + i) with (length xs - size + i) by lia.
    destruct (lookup_lt_is_Some_2 xs (length xs - size + i)) as [v Hv]; [lia|].
    rewrite Hv. reflexivity.
  - rewrite lookup_seq_ge by lia. cbn.
    rewrite lookup_ge_None_2 by lia. reflexivity.
Qed.

(** C7: [ReplayBuffer] is a fixed-capacity circular store.  After more
    than [buffer_size] transitions have been appended to an empty store,
    all slots are in use and the store holds exactly the last
    [buffer_size] of them, oldest first.  Every further append succeeds,
    writes into the slot of the oldest stored transition, and leaves the
    store holding the other transitions followed by the new one. *)
Theorem replay_buffer_circular (size : nat) xs :
  0 < size -> size < length xs ->
  exists b,
    buffer.extend xs (buffer.__init__ size) = ok b /\
    buffer._n b = size /\
    buffer.contents b = Some <$> drop (length xs - size) xs /\
    forall x, exists b',
      buffer.append x b = ok b' /\
      buffer.oldest b = buffer._p b /\
      buffer.slots b' = <[buffer.oldest b := Some x]> (buffer.slots b) /\
      buffer.contents b' = drop 1 (buffer.contents b) ++ [Some x].
Proof.
  intros Hsize Hlen.
  destruct (extend_represents size xs Hsize) as (b & Hext & Hrep).
  pose proof Hrep as (Hbs & Hslots & Hp & Hn & _).
  exists b. split; [assumption|]. split; [lia|].
  split; [apply contents_represents; assumption|].
  intros x.
  destruct (represents_append size xs x b Hsize Hrep) as (b' & Happ & Hrep' & Hw).
  assert (Hold : buffer.oldest b = buffer._p b).
  { unfold buffer.oldest. rewrite Hbs, Hn, Hp.
    replace (length xs mod size + size - Nat.min (length xs) size)
      with (length xs mod size) by lia.
    apply Nat.Div0.mod_mod. }
  exists b'. split; [assumption|]. split; [assumption|].
  split; [rewrite Hold; assumption|].
  rewrite (contents_represents size (xs ++ [x]) b') by assumption.
  rewrite (contents_represents size xs b) by assumption.
  rewrite length_app. cbn.
  rewrite <- fmap_drop, drop_drop.
  replace (length xs + 1 - size) with (length xs - size + 1) by lia.
  rewrite drop_app_le by lia. rewrite fmap_app. reflexivity.
Qed.

End circular_store.

Lemma replay_buffer_circular_witness :
  exists b,
    buffer.extend [10; 20; 30; 40; 50] (buffer.__init__ 3) = ok b /\
    buffer._n b = 3 /\
    buffer.contents b = Some <$> drop (5 - 3) [10; 20; 30; 40; 50] /\
    forall x, exists b',
      buffer.append x b = ok b' /\
      buffer.oldest b = buffer._p b /\
      buffer.slots b' = <[buffer.oldest b := Some x]> (buffer.slots b) /\
      buffer.contents b' = drop 1 (buffer.contents b) ++ [Some x].
Proof.
  apply (replay_buffer_circular 3 [10; 20; 30; 40; 50]); cbn; lia.
Defined.

(** ** [FQF] *)

Section FQF_properties.
Context `{Haiku, Gym}.
Context {States Actions Weight Feature Opt OptState NetFn BufferState : Type}.
Variable buffer_sample :
  BufferState -> Z -> (Weight * @FQF.batch States Actions) * BufferState.
Variable buffer_update_priority : BufferState -> jnp.matrix -> BufferState.
Variable net_feature_apply : optim.pytree -> States -> Feature.
Variable net_quantile_apply :
  optim.pytree -> Feature -> jnp.matrix -> jnp.tensor3.
Variable cum_p_net_apply : optim.pytree -> Feature -> jnp.matrix * jnp.matrix.
Variable cum_p_net_init : Key -> Feature -> optim.pytree.
Variable get_quantile_at_action : jnp.tensor3 -> Actions -> jnp.matrix.
Variable actions_of_argmax : list nat -> Actions.
Variable quantile_loss : jnp.tensor3 -> jnp.matrix -> Weight -> string -> Qc.
Variable DiscreteImplicitQuantileFunction : Space -> list Z -> bool -> NetFn.
Variable make_quantile_nerwork :
  Rng -> Space -> Space -> NetFn -> Z -> (optim.pytree * Feature) * Rng.
Variable optix_adam : Qc -> Qc -> (optim.pytree -> OptState) * Opt.
Variable optix_rmsprop : Qc -> (optim.pytree -> OptState) * Opt.
Variable grad : forall Aux, (optim.pytree -> result (Qc * Aux)) ->
                            optim.pytree -> optim.pytree.
Variable clip_gradient_norm : optim.pytree -> Qc -> optim.pytree.
Variable opt_update : Opt -> optim.pytree -> OptState -> optim.pytree * OptState.
Variable apply_updates : optim.pytree -> optim.pytree -> optim.pytree.
Variable QLearning__init__ :
  @FQF.kwargs _ NetFn -> result (@FQF.inherited _ BufferState).

Local Abbreviation fqf_init :=
  (FQF.__init__ (Opt:=Opt) (OptState:=OptState) cum_p_net_init
     DiscreteImplicitQuantileFunction make_quantile_nerwork optix_adam
     optix_rmsprop QLearning__init__).

Lemma loss_type_check (l : string) :
  existsb (String.eqb l) ["l2"; "huber"]%string = true <->
  l = "l2"%string \/ l = "huber"%string.
Proof.
  cbn. rewrite orb_false_r, orb_true_iff, !String.eqb_eq. reflexivity.
Qed.

(** C10: whatever the constructor of the base class and the network
    constructors do, [FQF.__init__] with a [loss_type] other than ["l2"]
    and ["huber"] raises [AssertionError].  With ["l2"] or ["huber"] the
    assertion passes and the construction goes on: the constructor of the
    base class runs, its exception, if any, is the one raised, and once it
    returns the instance is built, unless [batch_size] is zero, with the
    given [loss_type] and with target parameters equal to the online
    ones. *)
Theorem fqf_init_loss_type (a : FQF.kwargs) :
  (FQF.kw_loss_type a <> "l2"%string ->
   FQF.kw_loss_type a <> "huber"%string ->
   fqf_init a = raise AssertionError) /\
  (FQF.kw_loss_type a = "l2"%string \/ FQF.kw_loss_type a = "huber"%string ->
   (forall ex, QLearning__init__ a = raise ex -> fqf_init a = raise ex) /\
   (forall super, QLearning__init__ a = ok super ->
      FQF.kw_batch_size a <> 0%Z ->
      exists self,
        fqf_init a = ok self /\
        FQF.loss_type self = FQF.kw_loss_type a /\
        FQF.params_target self = FQF.params self)).
Proof.
  unfold FQF.__init__. split.
  - intros Hl2 Hhuber.
    destruct (existsb _ _) eqn:E; [|reflexivity].
    apply loss_type_check in E. tauto.
  - intros Hl. apply loss_type_check in Hl. rewrite Hl. cbn [negb].
    split.
    + intros ex ->. reflexivity.
    + intros super -> Hbatch. cbn.
      destruct (make_quantile_nerwork _ _ _ _ _) as [[params fake] rng1].
      rewrite fdiv_ok
        by (intros E; apply float_eq_0 in E; contradiction).
      cbn. destruct (optix_adam _ _) as [opt_init opt].
      destruct (next_key rng1) as [key rng2].
      destruct (optix_rmsprop _) as [opt_init_cum_p opt_cum_p].
      eexists. split; [reflexivity|]. split; reflexivity.
Qed.


Local Abbreviation fqf_loss :=
  (FQF._loss (Opt:=Opt) (OptState:=OptState) (BufferState:=BufferState)
     net_feature_apply net_quantile_apply cum_p_net_apply
     get_quantile_at_action actions_of_argmax quantile_loss).

Local Abbreviation fqf_loss_cum_p :=
  (FQF._loss_cum_p net_feature_apply net_quantile_apply cum_p_net_apply
     get_quantile_at_action).

Local Abbreviation fqf_optimize :=
  (FQF.optimize grad clip_gradient_norm opt_update apply_updates).

Local Abbreviation fqf_update :=
  (FQF.update buffer_sample buffer_update_priority net_feature_apply
     net_quantile_apply cum_p_net_apply get_quantile_at_action
     actions_of_argmax quantile_loss grad clip_gradient_norm opt_update
     apply_updates).

Lemma loss_cum_p_defined params_cum_p params state action :
  FQF.has_networks params ->
  exists l, fqf_loss_cum_p params_cum_p params state action = ok (l, tt).
Proof.
  intros (pf & pq & Hf & Hq). unfold FQF._loss_cum_p.
  rewrite Hf. cbn. destruct (cum_p_net_apply _ _) as [cum_p cum_p_prime].
  rewrite Hq. cbn. eauto.
Qed.

Lemma loss_defined self params params_target params_cum_p state action
    reward done next_state weight :
  FQF.has_networks params -> FQF.has_networks params_target ->
  exists loss quantile_params feature cum_p_prime next_quantile,
    optim.getitem params "quantile" = ok quantile_params /\
    let target_quantile :=
      FQF.target_of reward done (FQF.discount (FQF.super self)) next_quantile in
    let curr_quantile :=
      get_quantile_at_action
        (net_quantile_apply quantile_params feature cum_p_prime) action in
    fqf_loss self params params_target params_cum_p state action reward done
      next_state weight
    = ok (loss, FQF.abs_td_of (FQF.td_of target_quantile curr_quantile)).
Proof.
  intros (pf & pq & Hf & Hq) (tf & tq & Htf & Htq).
  unfold FQF._loss, FQF._forward.
  rewrite Hf, Htf. cbn.
  destruct (FQF.double_q self).
  - destruct (cum_p_net_apply params_cum_p (net_feature_apply pf next_state))
      as [c c'].
    repeat (first [rewrite Hq | rewrite Htq]; cbn).
    eexists _, pq, _, _, _. split; reflexivity.
  - destruct (cum_p_net_apply params_cum_p (net_feature_apply tf next_state))
      as [c c'].
    repeat (first [rewrite Hq | rewrite Htq]; cbn).
    eexists _, pq, _, _, _. split; reflexivity.
Qed.

Lemma optimize_defined {Aux} (fn_loss : optim.pytree -> result (Qc * Aux))
    opt opt_state params max_grad_norm l aux :
  fn_loss params = ok (l, aux) ->
  exists opt_state' params',
    fqf_optimize fn_loss opt opt_state params max_grad_norm
    = ok (opt_state', params', l, aux).
Proof.
  intros Hl. unfold FQF.optimize. rewrite Hl. cbn.
  destruct (opt_update _ _ _) as [upd os]. cbn. eauto.
Qed.




#[local] Arguments FQF.optimize : simpl never.
#[local] Arguments FQF._loss : simpl never.
#[local] Arguments FQF._loss_cum_p : simpl never.

(** One call of [update], given what the buffer and the two optimiser
    steps return. *)
Lemma update_run writer self weight state action reward done next_state st
    os_c pc lc u os p l abs_td :
  buffer_sample (FQF.buf_state (FQF.buffer (FQF.super self)))
    (FQF.batch_size (FQF.super self))
  = (weight, (state, action, reward, done, next_state), st) ->
  fqf_optimize
    (fun params_cum_p => fqf_loss_cum_p params_cum_p (FQF.params self) state action)
    (FQF.opt_cum_p self) (FQF.opt_state_cum_p self) (FQF.params_cum_p self)
    (FQF.max_grad_norm (FQF.super self)) = ok (os_c, pc, lc, u) ->
  fqf_optimize
    (fun params => fqf_loss self params (FQF.params_target self) pc state
                     action reward done next_state weight)
    (FQF.opt self) (FQF.opt_state self) (FQF.params self)
    (FQF.max_grad_norm (FQF.super self)) = ok (os, p, l, abs_td) ->
  exists r self',
    fqf_update writer self = (r, self') /\
    FQF.params_cum_p self' = pc /\ FQF.opt_state_cum_p self' = os_c /\
    FQF.params self' = p /\ FQF.opt_state self' = os /\
    FQF.learning_step (FQF.super self')
      = (FQF.learning_step (FQF.super self) + 1)%Z /\
    FQF.buf_calls (FQF.buffer (FQF.super self')) =
      FQF.buf_calls (FQF.buffer (FQF.super self)) ++
      FQF.call_sample (FQF.batch_size (FQF.super self)) ::
      (if FQF.use_per (FQF.super self)
       then [FQF.call_update_priority abs_td] else []) /\
    match mod_ (FQF.agent_step (FQF.super self))
            (FQF.update_interval_target (FQF.super self)) with
    | inl ex => r = raise ex /\ FQF.params_target self' = FQF.params_target self
    | inr m =>
        if (m =? 0)%Z then
          match FQF._update_target (FQF.super self) (FQF.params_target self) p with
          | inl ex =>
              r = raise ex /\ FQF.params_target self' = FQF.params_target self
          | inr new_target =>
              (exists w, r = ok w) /\ FQF.params_target self' = new_target
          end
        else (exists w, r = ok w) /\
             FQF.params_target self' = FQF.params_target self
    end.
Proof.
  intros Hsample Hcum Hq.
  unfold FQF.update, FQF.sample, FQF.update_priority.
  unfold mbind, M_bind, bind, modify, get, lift, mret, M_ret, ret. cbn.
  rewrite Hsample. cbn. rewrite Hcum. cbn.
  match goal with
  | |- context [FQF.optimize _ _ _ _ ?f ?o ?s ?q ?m] =>
      assert (E : fqf_optimize f o s q m = ok (os, p, l, abs_td)) by exact Hq;
      rewrite E; clear E
  end.
  cbn.
  destruct (FQF.use_per (FQF.super self)); cbn;
    destruct (mod_ _ _) as [ex | m]; cbn;
    try (eexists _, _; split; [reflexivity|]; cbn;
         rewrite <- ?app_assoc; repeat split; reflexivity);
    destruct (m =? 0)%Z; cbn;
    try destruct (FQF._update_target _ _ _) as [ex | new_target]; cbn;
    destruct writer as [wr|]; cbn;
    try destruct (_ =? 0)%Z;
    eexists _, _; (split; [reflexivity|]); cbn; rewrite <- ?app_assoc;
    repeat split; eauto.
Qed.







(** Both optimiser steps of a call of [update] return when the online
    and the target parameters hold the entries of both networks. *)
Lemma update_steps_defined self weight state action reward done next_state :
  FQF.has_networks (FQF.params self) ->
  FQF.has_networks (FQF.params_target self) ->
  exists os_c pc lc os p l quantile_params feature cum_p_prime next_quantile,
    fqf_optimize
      (fun params_cum_p =>
         fqf_loss_cum_p params_cum_p (FQF.params self) state action)
      (FQF.opt_cum_p self) (FQF.opt_state_cum_p self) (FQF.params_cum_p self)
      (FQF.max_grad_norm (FQF.super self)) = ok (os_c, pc, lc, tt) /\
    optim.getitem (FQF.params self) "quantile" = ok quantile_params /\
    let target_quantile :=
      FQF.target_of reward done (FQF.discount (FQF.super self)) next_quantile in
    let curr_quantile :=
      get_quantile_at_action
        (net_quantile_apply quantile_params feature cum_p_prime) action in
    let abs_td := FQF.abs_td_of (FQF.td_of target_quantile curr_quantile) in
    fqf_loss self (FQF.params self) (FQF.params_target self) pc state action
      reward done next_state weight = ok (l, abs_td) /\
    fqf_optimize
      (fun params => fqf_loss self params (FQF.params_target self) pc state
                       action reward done next_state weight)
      (FQF.opt self) (FQF.opt_state self) (FQF.params self)
      (FQF.max_grad_norm (FQF.super self)) = ok (os, p, l, abs_td).
Proof.
  intros Hp Ht.
  destruct (loss_cum_p_defined (FQF.params_cum_p self) (FQF.params self)
              state action Hp) as [lc Hlc].
  destruct (optimize_defined
              (fun params_cum_p =>
                 fqf_loss_cum_p params_cum_p (FQF.params self) state action)
              (FQF.opt_cum_p self) (FQF.opt_state_cum_p self)
              (FQF.params_cum_p self) (FQF.max_grad_norm (FQF.super self))
              lc tt Hlc) as (os_c & pc & Hcum).
  destruct (loss_defined self (FQF.params self) (FQF.params_target self) pc
              state action reward done next_state weight Hp Ht)
    as (l & pq & feature & cum_p_prime & nq & Hpq & Hloss).
  cbv zeta in Hloss.
  destruct (optimize_defined
              (fun params => fqf_loss self params (FQF.params_target self) pc
                               state action reward done next_state weight)
              (FQF.opt self) (FQF.opt_state self) (FQF.params self)
              (FQF.max_grad_norm (FQF.super self)) l _ Hloss)
    as (os & p & Hq).
  exists os_c, pc, lc, os, p, l, pq, feature, cum_p_prime, nq.
  cbv zeta. auto.
Qed.



(** C5: in a call to [FQF.update] on an instance whose online and target
    parameters hold the entries of both networks, the fraction-proposal
    parameters and their optimiser state, and then the online parameters
    and their optimiser state, are replaced by what the two optimiser
    steps return.  [params_target] is reassigned only when [agent_step]
    is a multiple of a non-zero [update_interval_target], to what
    [_update_target] returns for the old target and the new online
    parameters - the new online parameters themselves when
    [_update_target] is the hard update and the structures agree.  On
    every other call [params_target] is left as it was. *)
Theorem fqf_update_target writer self :
  FQF.has_networks (FQF.params self) ->
  FQF.has_networks (FQF.params_target self) ->
  exists r self' weight state action reward done next_state st
         os_c pc lc os p l abs_td,
    fqf_update writer self = (r, self') /\
    buffer_sample (FQF.buf_state (FQF.buffer (FQF.super self)))
      (FQF.batch_size (FQF.super self))
    = (weight, (state, action, reward, done, next_state), st) /\
    fqf_optimize
      (fun params_cum_p =>
         fqf_loss_cum_p params_cum_p (FQF.params self) state action)
      (FQF.opt_cum_p self) (FQF.opt_state_cum_p self) (FQF.params_cum_p self)
      (FQF.max_grad_norm (FQF.super self)) = ok (os_c, pc, lc, tt) /\
    fqf_optimize
      (fun params => fqf_loss self params (FQF.params_target self) pc state
                       action reward done next_state weight)
      (FQF.opt self) (FQF.opt_state self) (FQF.params self)
      (FQF.max_grad_norm (FQF.super self)) = ok (os, p, l, abs_td) /\
    FQF.params_cum_p self' = pc /\ FQF.opt_state_cum_p self' = os_c /\
    FQF.params self' = p /\ FQF.opt_state self' = os /\
    (FQF.update_interval_target (FQF.super self) = 0%Z ->
     r = raise ZeroDivisionError /\
     FQF.params_target self' = FQF.params_target self) /\
    (FQF.update_interval_target (FQF.super self) <> 0%Z ->
     ~ (FQF.update_interval_target (FQF.super self)
        | FQF.agent_step (FQF.super self))%Z ->
     (exists w, r = ok w) /\
     FQF.params_target self' = FQF.params_target self) /\
    (FQF.update_interval_target (FQF.super self) <> 0%Z ->
     (FQF.update_interval_target (FQF.super self)
      | FQF.agent_step (FQF.super self))%Z ->
     (forall new_target,
        FQF._update_target (FQF.super self) (FQF.params_target self) p
          = ok new_target ->
        (exists w, r = ok w) /\ FQF.params_target self' = new_target) /\
     (forall ex,
        FQF._update_target (FQF.super self) (FQF.params_target self) p
          = raise ex ->
        r = raise ex /\ FQF.params_target self' = FQF.params_target self) /\
     ((forall target online,
         FQF._update_target (FQF.super self) target online
           = optim.soft_update target online 1%Qc) ->
      optim.same_structure (FQF.params_target self) p = true ->
      (exists w, r = ok w) /\ FQF.params_target self' = p)).
Proof.
  intros Hp Ht.
  destruct (buffer_sample (FQF.buf_state (FQF.buffer (FQF.super self)))
              (FQF.batch_size (FQF.super self)))
    as [[weight [[[[state action] reward] done] next_state]] st] eqn:Hsample.
  destruct (update_steps_defined self weight state action reward done
              next_state Hp Ht)
    as (os_c & pc & lc & os & p & l & pq & feature & cum_p_prime & nq
        & Hcum & _ & _ & Hq).
  cbv zeta in Hq.
  destruct (update_run writer self _ _ _ _ _ _ _ _ _ _ _ _ _ _ _
              Hsample Hcum Hq)
    as (r & self' & Hrun & Hpc & Hosc & Hpar & Hos & _ & _ & Htarget).
  exists r, self', weight, state, action, reward, done, next_state, st,
    os_c, pc, lc, os, p, l.
  eexists.
  split; [exact Hrun|]. split; [reflexivity|]. split; [exact Hcum|].
  split; [exact Hq|].
  split; [assumption|]. split; [assumption|]. split; [assumption|].
  split; [assumption|].
  split; [|split].
  - intros Hzero. rewrite Hzero in Htarget. exact Htarget.
  - intros Hne Hndiv. rewrite mod__ok in Htarget by assumption.
    cbn in Htarget.
    destruct (Z.eqb_spec
                (FQF.agent_step (FQF.super self)
                 mod FQF.update_interval_target (FQF.super self)) 0)
      as [E | _]; [|exact Htarget].
    apply Z.mod_divide in E; [contradiction | assumption].
  - intros Hne Hdiv. rewrite mod__ok in Htarget by assumption.
    cbn in Htarget.
    apply Z.mod_divide in Hdiv; [|assumption].
    rewrite Hdiv in Htarget. cbn in Htarget.
    split; [|split].
    + intros new_target E. rewrite E in Htarget. exact Htarget.
    + intros ex E. rewrite E in Htarget. exact Htarget.
    + intros Hhard Hs. rewrite Hhard in Htarget.
      unfold optim.soft_update in Htarget.
      rewrite tree_multimap_hard in Htarget by assumption.
      exact Htarget.
Qed.

End FQF_properties.

(** ** [FQF] on the concrete instance *)

Lemma fqf_init_loss_type_witness :
  example.fqf_init (example.fqf_kwargs "l1") = raise AssertionError /\
  exists self,
    example.fqf_init (example.fqf_kwargs "huber") = ok self /\
    FQF.loss_type self = "huber"%string /\
    FQF.params_target self = FQF.params self.
Proof.
  split.
  - destruct (fqf_init_loss_type (H0:=example.gym) example.cum_p_net_init
                (fun _ _ _ => tt) example.make_quantile_nerwork
                (fun lr _ => example.optix lr) example.optix
                example.QLearning__init__ (example.fqf_kwargs "l1"))
      as [Hfail _].
    apply Hfail; cbn; discriminate.
  - destruct (fqf_init_loss_type (H0:=example.gym) example.cum_p_net_init
                (fun _ _ _ => tt) example.make_quantile_nerwork
                (fun lr _ => example.optix lr) example.optix
                example.QLearning__init__ (example.fqf_kwargs "huber"))
      as [_ Hpass].
    destruct Hpass as [_ Hbuilt]; [right; reflexivity|].
    apply (Hbuilt example.fqf_super); [reflexivity | cbn; discriminate].
Defined.

Lemma has_networks_fqf_params : FQF.has_networks example.fqf_params.
Proof.
  exists (optim.Leaf [1%Qc]), (optim.Leaf [Q2Qc 2]). split; reflexivity.
Defined.


Lemma fqf_update_target_witness :
  exists r self',
    example.fqf_update None example.fqf_self = (r, self') /\
    (exists w, r = ok w) /\
    FQF.params_target self' = FQF.params self'.
Proof.
  destruct (fqf_update_target (H:=example.haiku) example.buffer_sample
              example.buffer_update_priority example.net_feature_apply
              example.net_quantile_apply example.cum_p_net_apply
              example.get_quantile_at_action (fun a : list nat => a)
              example.quantile_loss example.grad (fun g _ => g)
              example.opt_update (fun p _ => p) None example.fqf_self
              has_networks_fqf_params has_networks_fqf_params)
    as (r & self' & weight & state & action & reward & done & next_state & st
        & os_c & pc & lc & os & p & l & abs_td & Hrun & _ & _ & Hq & _ & _
        & Hp & _ & _ & _ & Hsync).
  destruct Hsync as (_ & _ & Hhard).
  - cbn. discriminate.
  - exists 2%Z. reflexivity.
  - exists r, self'. split; [exact Hrun|]. rewrite Hp. apply Hhard.
    + reflexivity.
    + unfold FQF.optimize in Hq. cbn in Hq.
      injection Hq as _ <- _ _. reflexivity.
Defined.

(** ** Runs on the concrete instances *)

Section runs.
#[local] Existing Instance example.haiku.
#[local] Existing Instance example.gym.

(** The second step of an episode hits the time limit: the environment
    reports [done], the stored mask is [False]. *)
Example off_policy_step_at_time_limit :
  let w := OffPolicyAlgorithm.mkWorld example.off_policy_self 1%Z [] in
  let '(r, w') := OffPolicyAlgorithm.step example.explore 1%Z 1%Z w in
  r = ok (0%Z, 0%Z) /\
  OffPolicyAlgorithm.buf_appended
    (OffPolicyAlgorithm.buffer (OffPolicyAlgorithm.agent w'))
  = [(1%Z, 7%Z, Q2Qc 7, false, 2%Z, true)] /\
  OffPolicyAlgorithm.calls w'
  = [OffPolicyAlgorithm.call_sample 7%Z; OffPolicyAlgorithm.call_env_step 7%Z;
     OffPolicyAlgorithm.call_env_reset].
Proof. cbn. repeat split. Qed.

(** The first step of an episode: not [done], the mask is [done]. *)
Example off_policy_step_first :
  let '(r, w') :=
    OffPolicyAlgorithm.step example.explore 0%Z 0%Z example.off_policy_world in
  r = ok (1%Z, 1%Z) /\
  OffPolicyAlgorithm.buf_appended
    (OffPolicyAlgorithm.buffer (OffPolicyAlgorithm.agent w'))
  = [(0%Z, 7%Z, Q2Qc 7, false, 1%Z, false)].
Proof. cbn. repeat split. Qed.

(** An on-policy learner whose subclass has not set [params_actor]
    cannot explore. *)
Example on_policy_step_unset_params :
  fst (OnPolicyActorCritic.step (H:=example.haiku) (H0:=example.gym)
         (fun (p k s : Z) => (p, k)) 0%Z 0%Z (example.on_policy_self, 0%Z))
  = raise AttributeError.
Proof. reflexivity. Qed.

Example on_policy_is_update_at_8 :
  OnPolicyActorCritic.is_update example.on_policy_self = ok true.
Proof. reflexivity. Qed.

Example off_policy_is_update_at_0 :
  OffPolicyAlgorithm.is_update example.off_policy_self = ok false.
Proof. reflexivity. Qed.

Example replay_buffer_five_into_three :
  (b ← buffer.extend [10; 20; 30; 40; 50] (buffer.__init__ 3);
   mret (buffer.slots b, buffer._p b, buffer._n b))
  = ok ([Some 40; Some 50; Some 30], 2, 3).
Proof. reflexivity. Qed.

Example replay_buffer_no_slots :
  buffer.append 10 (buffer.__init__ 0) = raise IndexError.
Proof. reflexivity. Qed.

Example soft_update_structure_mismatch :
  optim.soft_update (optim.Leaf [0%Qc]) example.online_params 1%Qc
  = raise ValueError.
Proof. reflexivity. Qed.

(** Target quantiles [1.99] and [3.97], current quantiles [1] and [3]:
    the priority is [((0.99 + 1.01) + (2.97 + 0.97)) / 2]. *)
Example fqf_update_calls :
  FQF.buf_calls
    (FQF.buffer (FQF.super (snd (example.fqf_update None example.fqf_self))))
  = [FQF.call_sample 32%Z; FQF.call_update_priority [[Q2Qc (297 # 100)]]].
Proof.
  vm_compute. repeat f_equal.
Qed.

End runs.

(** * Further properties of the base classes *)

(** ** [OnPolicyActorCritic.step] and [is_update] over a rollout *)

Section OnPolicy_rollout.
Context `{Haiku, Gym} {Params LogPi : Type}.
Variable _explore : Params -> Key -> State -> Action * LogPi.
Implicit Type self : @OnPolicyActorCritic.t _ _ Params LogPi.

Import OnPolicyActorCritic.

(** [step] on a learner whose [params_actor] is set, as one equation. *)
Lemma on_policy_step_eq state t0 self e p :
  params_actor self = Some p ->
  exists action log_pi next_state reward (done : bool) e1 mask,
    let k := fst (next_key (Algorithm.rng (base self))) in
    let rng1 := snd (next_key (Algorithm.rng (base self))) in
    _explore p k state = (action, log_pi) /\
    env_step e action = (next_state, reward, done, e1) /\
    step _explore state t0 (self, e) =
      (ok (if done then (fst (env_reset e1), 0%Z)
           else (next_state, (t0 + 1)%Z)),
       (set_buffer
          (RolloutBuffer_append
             (state, action, reward, mask, log_pi, next_state) (buffer self))
          (set_base
             (Algorithm.set_rng rng1
                (Algorithm.set_env_step (env_step_ self + 1) (base self)))
             self),
        if done then snd (env_reset e1) else e1)).
Proof.
  intros Hp. unfold step, explore.
  unfold mbind, M_bind, bind, on_self, on_env, getattr_params_actor,
    next_rng, modify, gets. cbn.
  rewrite Hp. cbn.
  destruct (next_key _) as [k rng1]. cbn.
  destruct (_explore p k state) as [a lp] eqn:Ha. cbn.
  destruct (env_step e a) as [[[ns rw] d] e1] eqn:Hs. cbn.
  exists a, lp, ns, rw, d, e1,
    (if (t0 + 1 =? _max_episode_steps e1)%Z then false else d).
  cbv zeta. cbn. split; [reflexivity|]. split; [assumption|].
  destruct d; cbn; [destruct (env_reset e1) as [ns' e2]|]; reflexivity.
Qed.

(** X1: a call of [step] on a learner whose [params_actor] is set returns.
    It draws one key, asks the environment once, raises [env_step] by
    one and appends one transition, whose next state is the one the
    environment returned even when the episode ended; [discount],
    [buffer_size] and [params_actor] are left as they were.  It returns
    the environment's next state and the incremented counter, or, at the
    end of an episode, the observation of [env.reset()] and a counter of
    zero. *)
Theorem on_policy_step_effect state t0 self e p :
  params_actor self = Some p ->
  exists r self' e' action log_pi next_state reward (done : bool) e1 mask,
    step _explore state t0 (self, e) = (ok r, (self', e')) /\
    _explore p (fst (next_key (Algorithm.rng (base self)))) state
      = (action, log_pi) /\
    env_step e action = (next_state, reward, done, e1) /\
    r = (if done then (fst (env_reset e1), 0%Z)
         else (next_state, (t0 + 1)%Z)) /\
    e' = (if done then snd (env_reset e1) else e1) /\
    env_step_ self' = (env_step_ self + 1)%Z /\
    Algorithm.rng (base self') = snd (next_key (Algorithm.rng (base self))) /\
    rb_appended (buffer self') =
      rb_appended (buffer self) ++
      [(state, action, reward, mask, log_pi, next_state)] /\
    discount self' = discount self /\
    buffer_size self' = buffer_size self /\
    params_actor self' = params_actor self.
Proof.
  intros Hp.
  destruct (on_policy_step_eq state t0 self e p Hp)
    as (a & lp & ns & rw & d & e1 & mask & Ha & Hs & Heq).
  cbv zeta in Ha, Heq.
  eexists _, _, _, a, lp, ns, rw, d, e1, mask.
  split; [exact Heq|]. split; [exact Ha|]. split; [exact Hs|].
  cbn. repeat split; reflexivity.
Qed.

(** X2: a call of [step] before the subclass has set [params_actor] raises
    [AttributeError] without touching the environment, the key sequence
    or the buffer; [env_step] has already been raised by one. *)
Theorem on_policy_step_unset_effect state t0 self e :
  params_actor self = None ->
  step _explore state t0 (self, e) =
    (raise AttributeError,
     (set_base (Algorithm.set_env_step (env_step_ self + 1) (base self)) self,
      e)).
Proof.
  intros Hp. unfold step, explore.
  unfold mbind, M_bind, bind, on_self, getattr_params_actor, modify. cbn.
  rewrite Hp. reflexivity.
Qed.

Lemma on_policy_step_ok_inv state t0 self e r w' :
  step _explore state t0 (self, e) = (ok r, w') ->
  env_step_ (fst w') = (env_step_ self + 1)%Z /\
  length (rb_appended (buffer (fst w')))
    = S (length (rb_appended (buffer self))) /\
  buffer_size (fst w') = buffer_size self /\
  params_actor (fst w') = params_actor self.
Proof.
  intros Hstep. destruct (params_actor self) as [p|] eqn:Hp.
  - destruct (on_policy_step_eq state t0 self e p Hp)
      as (a & lp & ns & rw & d & e1 & mask & _ & _ & Heq).
    cbv zeta in Heq. rewrite Heq in Hstep. injection Hstep as _ <-.
    cbn. rewrite length_app. cbn. repeat split; try assumption. lia.
  - destruct (on_policy_step_unset _explore state t0 self e Hp) as (w1 & Hw & _).
    rewrite Hw in Hstep. discriminate.
Qed.

(** X3: after [n] calls of [step] that returned, [env_step] has grown by [n]
    and the buffer has received [n] transitions; so, for a non-zero
    [buffer_size], [is_update()] then returns [True] exactly when
    [buffer_size] divides the new [env_step]. *)
Theorem on_policy_steps_count n self e w' :
  steps _explore n (self, e) w' ->
  env_step_ (fst w') = (env_step_ self + Z.of_nat n)%Z /\
  length (rb_appended (buffer (fst w')))
    = (length (rb_appended (buffer self)) + n)%nat /\
  (buffer_size self <> 0%Z ->
   exists b : bool,
     is_update (fst w') = ok b /\
     (b = true <-> (buffer_size self | env_step_ self + Z.of_nat n)%Z)).
Proof.
  intros Hsteps.
  assert (Hinv : env_step_ (fst w') = (env_step_ self + Z.of_nat n)%Z /\
                 length (rb_appended (buffer (fst w')))
                   = (length (rb_appended (buffer self)) + n)%nat /\
                 buffer_size (fst w') = buffer_size self).
  { remember (self, e) as w eqn:Hw. revert self e Hw.
    induction Hsteps as [w | n w w1 w2 state t0 r _ IH Hstep];
      intros self e ->; cbn.
    - repeat split; lia.
    - destruct (IH self e eq_refl) as (Hn & Hlen & Hsize).
      destruct w1 as [self1 e1].
      apply on_policy_step_ok_inv in Hstep as (Hn' & Hlen' & Hsize' & _).
      cbn in *. repeat split; [lia | lia | congruence]. }
  destruct Hinv as (Hn & Hlen & Hsize).
  split; [assumption|]. split; [assumption|].
  intros Hne.
  unfold is_update. rewrite Hsize, Hn, mod__ok by assumption. cbn.
  eexists. split; [reflexivity|].
  rewrite Z.eqb_eq. apply Z.mod_divide. assumption.
Qed.

End OnPolicy_rollout.

(** ** [OffPolicyAlgorithm]: construction, update schedule and warm-up *)

Section OffPolicy_more.
Context `{Haiku, Gym}.
Variable explore : State -> M OffPolicyAlgorithm.t Action.
Implicit Type self : OffPolicyAlgorithm.t.
Implicit Type w : OffPolicyAlgorithm.world.

Import OffPolicyAlgorithm.

(** X4: [is_update()] of an off-policy learner raises [ZeroDivisionError]
    when [update_interval] is zero, also during the warm-up, because the
    modulo is evaluated first.  Otherwise it returns a Boolean, which is
    [True] exactly when [update_interval] divides [env_step] and
    [env_step] has reached [start_steps]. *)
Theorem off_policy_is_update_schedule self :
  (update_interval self = 0%Z -> is_update self = raise ZeroDivisionError) /\
  (update_interval self <> 0%Z ->
   exists b : bool,
     is_update self = ok b /\
     (b = true <->
      (update_interval self | env_step_ self)%Z /\
      (start_steps self <= env_step_ self)%Z)).
Proof.
  unfold is_update. split.
  - intros ->. reflexivity.
  - intros Hne. rewrite mod__ok by assumption. cbn.
    destruct (Z.eqb_spec (env_step_ self mod update_interval self) 0)
      as [E | E]; cbn.
    + eexists. split; [reflexivity|].
      rewrite Z.leb_le. apply Z.mod_divide in E; [tauto | assumption].
    + exists false. split; [reflexivity|].
      split; [discriminate|]. intros [Hdiv _].
      apply Z.mod_divide in Hdiv; [contradiction | assumption].
Qed.

(** X5: the constructor raises [ZeroDivisionError] when prioritised
    replay meets a zero [update_interval] and, once the buffer is built,
    when [gamma] is zero and [nstep] negative.  It completes for a
    discount factor between zero and one and a non-negative [nstep].
    Both hold for integers below [2 ** 1023] in magnitude, which convert
    to floats, so that neither the division nor the power can overflow.
    Every construction that completes has met no zero division, and the
    new learner has taken no environment step, made no learning step and
    holds an empty buffer. *)
Theorem off_policy_init_outcome num_steps state_space action_space seed
    gamma nstep buffer_size (use_per : bool) batch_size start_steps
    update_interval :
  let init :=
    __init__ num_steps state_space action_space seed gamma nstep buffer_size
      use_per batch_size start_steps update_interval in
  let in_range (n : Z) := (- 2 ^ 1023 < n < 2 ^ 1023)%Z in
  let buffer_built :=
    use_per = true ->
    update_interval <> 0%Z /\ in_range (num_steps - start_steps)%Z in
  (use_per = true -> update_interval = 0%Z ->
   init = raise ZeroDivisionError) /\
  (buffer_built -> gamma = 0%Qc -> (nstep < 0)%Z -> in_range nstep ->
   init = raise ZeroDivisionError) /\
  (buffer_built -> (0 <= gamma)%Qc -> (gamma <= 1)%Qc -> (0 <= nstep)%Z ->
   in_range nstep ->
   exists self, init = ok self) /\
  (forall self,
     init = ok self ->
     (use_per = true -> update_interval <> 0%Z) /\
     ((nstep < 0)%Z -> gamma <> 0%Qc) /\
     env_step_ self = 0%Z /\
     Algorithm.learning_step (base self) = 0%Z /\
     buf_appended (buffer self) = []).
Proof.
  cbv zeta. split; [|split; [|split]].
  - apply off_policy_init_per_zero_interval.
  - intros Hbuilt -> Hneg _. unfold __init__.
    assert (Hpow : pow 0%Qc nstep = raise ZeroDivisionError).
    { unfold pow. destruct (Z.leb_spec 0 nstep); [lia | reflexivity]. }
    destruct use_per.
    + destruct (Hbuilt eq_refl) as [Hne _].
      rewrite truediv_ok by assumption. cbn. rewrite Hpow. reflexivity.
    + cbn. rewrite Hpow. reflexivity.
  - intros Hbuilt _ _ Hnstep _. apply off_policy_init_ok.
    + intros Hper. apply (Hbuilt Hper).
    + lia.
  - intros self Hself. split; [|split].
    + intros Hper Hzero.
      rewrite (off_policy_init_per_zero_interval num_steps state_space
                 action_space seed gamma nstep buffer_size use_per batch_size
                 start_steps update_interval Hper Hzero) in Hself.
      discriminate.
    + intros Hneg ->.
      apply off_policy_init_inv in Hself as (b & d & _ & Hd & _).
      unfold pow in Hd. destruct (Z.leb_spec 0 nstep); [lia|].
      discriminate.
    + apply off_policy_init_inv in Hself as (b & d & Hb & _ & ->). cbn.
      repeat split.
      destruct use_per; cbn in Hb.
      * destruct (truediv _ _); [discriminate|]. cbn in Hb.
        injection Hb as <-. reflexivity.
      * injection Hb as <-. reflexivity.
Qed.


(** X6: a warm-up call of [step] (incremented [env_step] at most
    [start_steps]) changes [self] only by raising [env_step] by one and
    appending one transition: the learner's key sequence, its counters
    and its settings are left as they were.  It returns the
    environment's next state and the incremented counter or, at the end
    of an episode, the observation of [env.reset()] and zero; the stored
    next state is the environment's, not the reset observation. *)
Theorem off_policy_warm_up_step_effect state t0 w :
  (env_step_ (agent w) + 1 <= start_steps (agent w))%Z ->
  exists r w' action next_state reward (done : bool) e1 e2 mask,
    step explore state t0 w = (ok r, w') /\
    action_space_sample (env w) = (action, e1) /\
    env_step e1 action = (next_state, reward, done, e2) /\
    r = (if done then (fst (env_reset e2), 0%Z)
         else (next_state, (t0 + 1)%Z)) /\
    env w' = (if done then snd (env_reset e2) else e2) /\
    env_step_ (agent w') = (env_step_ (agent w) + 1)%Z /\
    buf_appended (buffer (agent w')) =
      buf_appended (buffer (agent w)) ++
      [(state, action, reward, mask, next_state, done)] /\
    Algorithm.rng (base (agent w')) = Algorithm.rng (base (agent w)) /\
    Algorithm.learning_step (base (agent w'))
      = Algorithm.learning_step (base (agent w)) /\
    start_steps (agent w') = start_steps (agent w) /\
    update_interval (agent w') = update_interval (agent w) /\
    discount (agent w') = discount (agent w).
Proof.
  intros Hwarm. rewrite step_warm_up by assumption.
  destruct (action_space_sample (env w)) as [a e1]. cbn [fst snd].
  unfold after_action, stored.
  destruct (env_step e1 a) as [[[ns rw] d] e2] eqn:Hs.
  destruct d.
  - eexists _, _, a, ns, rw, true, e1, e2, _.
    cbn. repeat split; first [reflexivity | assumption].
  - eexists _, _, a, ns, rw, false, e1, e2, _.
    cbn. repeat split; first [reflexivity | assumption].
Qed.

(** X7: when [explore] raises, [step] raises the same exception: the
    environment is not asked, no reset happens, and [self] is left as
    [explore] left it, with nothing appended after it. *)
Theorem off_policy_step_explore_raises state t0 w ex self1 :
  (start_steps (agent w) < env_step_ (agent w) + 1)%Z ->
  explore state (counted (agent w)) = (raise ex, self1) ->
  exists w',
    step explore state t0 w = (raise ex, w') /\
    agent w' = self1 /\
    env w' = env w /\
    calls w' = calls w ++ [call_explore state].
Proof.
  intros Hlate Hex. eexists. split.
  - apply step_explore_raise; eassumption.
  - cbn. repeat split.
Qed.

Lemma off_policy_steps_warm_up_inv n w w' :
  steps explore n w w' ->
  (env_step_ (agent w) + Z.of_nat n <= start_steps (agent w))%Z ->
  env_step_ (agent w') = (env_step_ (agent w) + Z.of_nat n)%Z /\
  start_steps (agent w') = start_steps (agent w) /\
  update_interval (agent w') = update_interval (agent w) /\
  Algorithm.rng (base (agent w')) = Algorithm.rng (base (agent w)) /\
  length (buf_appended (buffer (agent w')))
    = (length (buf_appended (buffer (agent w))) + n)%nat /\
  exists new,
    calls w' = calls w ++ new /\ forall s, ~ In (call_explore s) new.
Proof.
  induction 1 as [w | n w w1 w2 state t0 r _ IH Hstep]; intros Hn.
  - repeat split; try lia. exists []. rewrite app_nil_r. split; [reflexivity|].
    intros s [].
  - destruct IH as (He & Hs & Hu & Hr & Hl & new & Hc & Hnew); [lia|].
    rewrite step_warm_up in Hstep by lia.
    destruct (after_action_spec state t0 (fst (action_space_sample (env w1)))
                (counted (agent w1)) (snd (action_space_sample (env w1)))
                (calls w1 ++ [call_sample (fst (action_space_sample (env w1)))]))
      as (r' & w'' & ns & rw & d & e' & Heq & _ & Hbuf & Hcalls).
    rewrite Heq in Hstep. injection Hstep as _ <-.
    assert (Hagent : exists tr,
               agent w'' = set_buffer (Buffer_append tr (buffer (agent w1)))
                             (counted (agent w1))).
    { unfold after_action in Heq.
      destruct (env_step _ _) as [[[ns0 rw0] d0] e0].
      destruct d0; injection Heq as _ <-; eexists; reflexivity. }
    destruct Hagent as [tr Hagent].
    rewrite Hbuf, Hcalls, Hagent, length_app. cbn.
    repeat split; try assumption; try lia.
    exists (new ++ call_sample (fst (action_space_sample (env w1)))
                :: call_env_step (fst (action_space_sample (env w1)))
                :: (if d then [call_env_reset] else [])).
    split.
    + rewrite Hc, <- !app_assoc. reflexivity.
    + intros s Hin. apply in_app_or in Hin as [Hin | Hin].
      * exact (Hnew s Hin).
      * destruct d; cbn in Hin; intuition discriminate.
Qed.

(** X8: the first [n] calls of [step] that stay within the warm-up: each is
    answered by [env.action_space.sample()], [explore] is never called,
    the learner's key sequence is untouched, [env_step] has grown by [n]
    and [n] transitions were appended; whenever [n] stops short of
    [start_steps], no update is due. *)
Theorem off_policy_warm_up_steps n w w' :
  steps explore n w w' ->
  (env_step_ (agent w) + Z.of_nat n <= start_steps (agent w))%Z ->
  env_step_ (agent w') = (env_step_ (agent w) + Z.of_nat n)%Z /\
  Algorithm.rng (base (agent w')) = Algorithm.rng (base (agent w)) /\
  length (buf_appended (buffer (agent w')))
    = (length (buf_appended (buffer (agent w))) + n)%nat /\
  (exists new,
     calls w' = calls w ++ new /\ forall s, ~ In (call_explore s) new) /\
  ((env_step_ (agent w) + Z.of_nat n < start_steps (agent w))%Z ->
   is_update (agent w') <> ok true).
Proof.
  intros Hsteps Hn.
  destruct (off_policy_steps_warm_up_inv n w w' Hsteps Hn)
    as (He & Hs & Hu & Hr & Hl & Hcalls).
  repeat split; try assumption.
  intros Hlt. apply off_policy_is_update_never_true_early.
  rewrite He, Hs. assumption.
Qed.

End OffPolicy_more.

(** ** [OffPolicyActorCritic.explore] inside [OffPolicyAlgorithm.step] *)

Section ActorCritic_step.
Context `{Haiku, Gym} {Params : Type}.
Variable _explore : Params -> Key -> State -> Action.
Implicit Type w : OffPolicyAlgorithm.world.

Import OffPolicyAlgorithm.

Local Abbreviation ac_explore p := (OffPolicyActorCritic.explore _explore p).

Lemma after_action_agent state t0 a (self : OffPolicyAlgorithm.t) e cs :
  exists r w' tr,
    after_action state t0 a self e cs = (ok r, w') /\
    agent w' = set_buffer (Buffer_append tr (buffer self)) self.
Proof.
  unfold after_action.
  destruct (env_step e a) as [[[ns rw] d] e1].
  destruct d; eexists _, _, _; split; reflexivity.
Qed.

Lemma actor_critic_step_effect_aux (p : Params) state t0 w :
  exists r w',
    step (ac_explore p) state t0 w = (ok r, w') /\
    env_step_ (agent w') = (env_step_ (agent w) + 1)%Z /\
    length (buf_appended (buffer (agent w')))
      = S (length (buf_appended (buffer (agent w)))) /\
    start_steps (agent w') = start_steps (agent w) /\
    update_interval (agent w') = update_interval (agent w).
Proof.
  destruct (Z.leb_spec (env_step_ (agent w) + 1) (start_steps (agent w)))
    as [Hwarm | Hlate].
  - rewrite step_warm_up by assumption.
    match goal with
    | |- context [after_action ?s ?t ?a ?self ?e ?cs] =>
        destruct (after_action_agent s t a self e cs)
          as (r & w' & tr & Heq & Hagent)
    end.
    exists r, w'. split; [exact Heq|]. rewrite Hagent. cbn.
    rewrite length_app. cbn. repeat split. lia.
  - destruct (next_key (Algorithm.rng (base (agent w)))) as [k rng1] eqn:Hk.
    assert (Hex : ac_explore p state (counted (agent w)) =
                  (ok (_explore p k state),
                   set_base (Algorithm.set_rng rng1 (base (counted (agent w))))
                     (counted (agent w)))).
    { unfold OffPolicyActorCritic.explore. cbn. rewrite Hk. reflexivity. }
    rewrite (step_explore_ok _ _ _ _ _ _ Hlate Hex).
    match goal with
    | |- context [after_action ?s ?t ?a ?self ?e ?cs] =>
        destruct (after_action_agent s t a self e cs)
          as (r & w' & tr & Heq & Hagent)
    end.
    exists r, w'. split; [exact Heq|]. rewrite Hagent. cbn.
    rewrite length_app. cbn. repeat split. lia.
Qed.

(** X9: with the [explore] of [OffPolicyActorCritic], a call of [step] always
    returns.  It raises [env_step] by one and appends one transition; it
    draws one key from the learner's key sequence when the incremented
    [env_step] is past [start_steps] and none during the warm-up. *)
Theorem actor_critic_step_effect (p : Params) state t0 w :
  exists r w',
    step (ac_explore p) state t0 w = (ok r, w') /\
    env_step_ (agent w') = (env_step_ (agent w) + 1)%Z /\
    length (buf_appended (buffer (agent w')))
      = S (length (buf_appended (buffer (agent w)))) /\
    Algorithm.rng (base (agent w')) =
      (if (env_step_ (agent w) + 1 <=? start_steps (agent w))%Z
       then Algorithm.rng (base (agent w))
       else snd (next_key (Algorithm.rng (base (agent w))))) /\
    start_steps (agent w') = start_steps (agent w) /\
    update_interval (agent w') = update_interval (agent w).
Proof.
  destruct (Z.leb_spec (env_step_ (agent w) + 1) (start_steps (agent w)))
    as [Hwarm | Hlate].
  - rewrite step_warm_up by assumption.
    match goal with
    | |- context [after_action ?s ?t ?a ?self ?e ?cs] =>
        destruct (after_action_agent s t a self e cs)
          as (r & w' & tr & Heq & Hagent)
    end.
    exists r, w'. split; [exact Heq|]. rewrite Hagent. cbn.
    rewrite length_app. cbn. repeat split. lia.
  - destruct (next_key (Algorithm.rng (base (agent w)))) as [k rng1] eqn:Hk.
    assert (Hex : ac_explore p state (counted (agent w)) =
                  (ok (_explore p k state),
                   set_base (Algorithm.set_rng rng1 (base (counted (agent w))))
                     (counted (agent w)))).
    { unfold OffPolicyActorCritic.explore. cbn. rewrite Hk. reflexivity. }
    rewrite (step_explore_ok _ _ _ _ _ _ Hlate Hex).
    match goal with
    | |- context [after_action ?s ?t ?a ?self ?e ?cs] =>
        destruct (after_action_agent s t a self e cs)
          as (r & w' & tr & Heq & Hagent)
    end.
    exists r, w'. split; [exact Heq|]. rewrite Hagent. cbn.
    rewrite length_app. cbn. repeat split. lia.
Qed.

(** X10: over [n] calls of [step] with the [explore] of
    [OffPolicyActorCritic], [env_step] grows by [n] and [n] transitions
    are appended; for a non-zero [update_interval], [is_update()] then
    returns [True] exactly when [update_interval] divides the new
    [env_step] and the new [env_step] has reached [start_steps]. *)
Theorem actor_critic_steps_schedule (p : Params) n w w' :
  steps (ac_explore p) n w w' ->
  env_step_ (agent w') = (env_step_ (agent w) + Z.of_nat n)%Z /\
  length (buf_appended (buffer (agent w')))
    = (length (buf_appended (buffer (agent w))) + n)%nat /\
  (update_interval (agent w) <> 0%Z ->
   exists b : bool,
     is_update (agent w') = ok b /\
     (b = true <->
      (update_interval (agent w) | env_step_ (agent w) + Z.of_nat n)%Z /\
      (start_steps (agent w) <= env_step_ (agent w) + Z.of_nat n)%Z)).
Proof.
  intros Hsteps.
  assert (Hinv :
    env_step_ (agent w') = (env_step_ (agent w) + Z.of_nat n)%Z /\
    length (buf_appended (buffer (agent w')))
      = (length (buf_appended (buffer (agent w))) + n)%nat /\
    start_steps (agent w') = start_steps (agent w) /\
    update_interval (agent w') = update_interval (agent w)).
  { induction Hsteps as [w | n w w1 w2 state t0 r _ IH Hstep].
    - repeat split; lia.
    - destruct IH as (He & Hl & Hs & Hu).
      destruct (actor_critic_step_effect_aux p state t0 w1)
        as (r' & w'' & Heq & He' & Hl' & Hs' & Hu').
      rewrite Heq in Hstep. injection Hstep as _ <-.
      repeat split; [lia | lia | congruence | congruence]. }
  destruct Hinv as (He & Hl & Hs & Hu).
  split; [assumption|]. split; [assumption|].
  intros Hne. unfold is_update.
  rewrite Hu, He, Hs, mod__ok by assumption. cbn.
  destruct (Z.eqb_spec
              ((env_step_ (agent w) + Z.of_nat n)
               mod update_interval (agent w)) 0) as [E | E]; cbn.
  - eexists. split; [reflexivity|].
    rewrite Z.leb_le. apply Z.mod_divide in E; [tauto | assumption].
  - exists false. split; [reflexivity|].
    split; [discriminate|]. intros [Hdiv _].
    apply Z.mod_divide in Hdiv; [contradiction | assumption].
Qed.

End ActorCritic_step.

(** ** [QLearning.select_action] and [QLearning.explore] *)

Section QLearning_policy.
Context `{Haiku, Gym} {NpRandom Params : Type}.
Variable np_random_rand : NpRandom -> Qc * NpRandom.
Variable space_sample : Space -> NpRandom -> Action * NpRandom.
Variable _select_action : Params -> State -> Action.

Local Abbreviation q_explore :=
  (QLearning.explore np_random_rand space_sample _select_action).
Local Abbreviation q_select_action :=
  (QLearning.select_action np_random_rand space_sample _select_action).

(** [np.random.rand()] returns a number in [[0, 1)]. *)
Hypothesis rand_range :
  forall g, (0 <= fst (np_random_rand g))%Qc /\ (fst (np_random_rand g) < 1)%Qc.

(** X11: both policies of [QLearning] draw one random number per call.  With
    an epsilon of zero or less the action is always the greedy one and
    the action space is never sampled; with an epsilon of one or more
    the action is always sampled from [self.action_space].  [explore]
    uses [eps] and [select_action] uses [eps_eval]. *)
Theorem q_learning_epsilon_extremes (self : QLearning.t) params state g :
  let g1 := snd (np_random_rand g) in
  let space :=
    Algorithm.action_space (OffPolicyAlgorithm.base (QLearning.base self)) in
  ((QLearning.eps self <= 0)%Qc ->
   q_explore self params state g = (_select_action params state, g1)) /\
  ((1 <= QLearning.eps self)%Qc ->
   q_explore self params state g = space_sample space g1) /\
  ((QLearning.eps_eval self <= 0)%Qc ->
   q_select_action self params state g = (_select_action params state, g1)) /\
  ((1 <= QLearning.eps_eval self)%Qc ->
   q_select_action self params state g = space_sample space g1).
Proof.
  cbv zeta. unfold QLearning.explore, QLearning.select_action.
  destruct (rand_range g) as [Hlo Hhi].
  destruct (np_random_rand g) as [u g1]. cbn in *.
  repeat split; intros Heps.
  - rewrite bool_decide_eq_false_2; [reflexivity|].
    intros Hlt. apply (Qclt_not_le _ _ Hlt).
    apply (Qcle_trans _ 0); assumption.
  - rewrite bool_decide_eq_true_2; [reflexivity|].
    apply (Qclt_le_trans _ 1); assumption.
  - rewrite bool_decide_eq_false_2; [reflexivity|].
    intros Hlt. apply (Qclt_not_le _ _ Hlt).
    apply (Qcle_trans _ 0); assumption.
  - rewrite bool_decide_eq_true_2; [reflexivity|].
    apply (Qclt_le_trans _ 1); assumption.
Qed.

End QLearning_policy.

(** * Further properties of [FQF] *)

(** ** Arrays *)

Lemma Qc_mult_nonneg (a b : Qc) : (0 <= a -> 0 <= b -> 0 <= a * b)%Qc.
Proof.
  unfold Qcle. intros Ha Hb.
  change (this (a * b)) with (Qred (this a * this b)).
  rewrite Qred_correct. change (this 0) with (Qred 0) in *.
  rewrite Qred_correct in *.
  apply Qmult_le_0_compat; assumption.
Qed.

Lemma Qc_inv_nonneg (a : Qc) : (0 <= a -> 0 <= / a)%Qc.
Proof.
  unfold Qcle. intros Ha.
  change (this (/ a)) with (Qred (/ this a)).
  rewrite Qred_correct. change (this 0) with (Qred 0) in *.
  rewrite Qred_correct in *.
  apply Qinv_le_0_compat. assumption.
Qed.

Lemma float_nonneg (n : nat) : (0 <= float (Z.of_nat n))%Qc.
Proof.
  unfold float, Qcle.
  change (this (Q2Qc (inject_Z (Z.of_nat n))))
    with (Qred (inject_Z (Z.of_nat n))).
  change (this 0) with (Qred 0). rewrite !Qred_correct.
  unfold Qle. cbn. lia.
Qed.

Lemma abs_nonneg (x : Qc) : (0 <= jnp.abs x)%Qc.
Proof.
  unfold jnp.abs. case_bool_decide as Hx.
  - apply Qclt_le_weak in Hx. apply Qcopp_le_compat in Hx. exact Hx.
  - apply Qcnot_lt_le. assumption.
Qed.

Lemma sum_nonneg (v : jnp.vector) :
  Forall (fun x => 0 <= x)%Qc v -> (0 <= jnp.sum v)%Qc.
Proof.
  unfold jnp.sum. induction 1 as [| x v Hx _ IH]; cbn.
  - apply Qcle_refl.
  - replace 0%Qc with (0 + 0)%Qc by ring.
    apply Qcplus_le_compat; assumption.
Qed.

Lemma mean_nonneg (v : jnp.vector) :
  Forall (fun x => 0 <= x)%Qc v -> (0 <= jnp.mean v)%Qc.
Proof.
  intros Hv. unfold jnp.mean, Qcdiv.
  apply Qc_mult_nonneg; [apply sum_nonneg; assumption|].
  apply Qc_inv_nonneg, float_nonneg.
Qed.

Lemma zip_with_plus_nonneg (u v : jnp.vector) :
  Forall (fun x => 0 <= x)%Qc u -> Forall (fun x => 0 <= x)%Qc v ->
  Forall (fun x => 0 <= x)%Qc (zip_with Qcplus u v).
Proof.
  intros Hu. revert v. induction Hu as [| x u Hx _ IH]; intros v Hv; cbn.
  - constructor.
  - destruct Hv as [| y v Hy Hv]; constructor.
    + replace 0%Qc with (0 + 0)%Qc by ring.
      apply Qcplus_le_compat; assumption.
    + apply IH. assumption.
Qed.

Lemma sum_axis0_nonneg (m : jnp.matrix) :
  Forall (Forall (fun x => 0 <= x)%Qc) m ->
  Forall (fun x => 0 <= x)%Qc (jnp.sum_axis0 m).
Proof.
  unfold jnp.sum_axis0. intros Hm.
  destruct Hm as [| r rs Hr Hrs]; [constructor|].
  revert r Hr. induction Hrs as [| r' rs Hr' _ IH]; intros r Hr; cbn.
  - assumption.
  - apply IH. apply zip_with_plus_nonneg; assumption.
Qed.

(** X12: the priorities [FQF._loss] computes, one per entry of the batch, are
    never negative: [abs_td] has one row for each entry of [td], each
    row holds one number, and that number is at least zero. *)
Theorem abs_td_nonneg (td : jnp.tensor3) :
  length (FQF.abs_td_of td) = length td /\
  Forall (fun row => exists x, row = [x] /\ (0 <= x)%Qc) (FQF.abs_td_of td).
Proof.
  unfold FQF.abs_td_of. split; [apply length_fmap|].
  apply Forall_fmap, Forall_forall. intros td_b _. cbn.
  eexists. split; [reflexivity|].
  apply mean_nonneg, sum_axis0_nonneg.
  apply Forall_forall. intros row Hrow.
  apply in_map_iff in Hrow as (row0 & <- & _).
  apply Forall_forall. intros x Hx.
  apply in_map_iff in Hx as (x0 & <- & _).
  apply abs_nonneg.
Qed.

Lemma argmax_from_spec (l : jnp.vector) :
  forall (v pre : jnp.vector) (best : nat) (best_val : Qc),
    l = pre ++ v ->
    l !! best = Some best_val ->
    (forall j y, j < length pre -> l !! j = Some y -> (y <= best_val)%Qc) ->
    (forall j y, j < best -> l !! j = Some y -> (y < best_val)%Qc) ->
    exists top,
      l !! jnp.argmax_from (length pre) best best_val v = Some top /\
      (forall j y, l !! j = Some y -> (y <= top)%Qc) /\
      (forall j y, j < jnp.argmax_from (length pre) best best_val v ->
                   l !! j = Some y -> (y < top)%Qc).
Proof.
  induction v as [| x v IH]; intros pre best bv Hl Hbest Hle Hlt; cbn.
  - exists bv. split; [assumption|]. split; [|assumption].
    intros j y Hj. apply (Hle j y); [|assumption].
    apply lookup_lt_Some in Hj. rewrite Hl, app_nil_r in Hj. assumption.
  - assert (Hx : l !! length pre = Some x).
    { rewrite Hl, lookup_app_r by lia. rewrite Nat.sub_diag. reflexivity. }
    assert (Hl' : l = (pre ++ [x]) ++ v) by (rewrite <- app_assoc; exact Hl).
    specialize (IH (pre ++ [x])). rewrite length_app in IH. cbn in IH.
    replace (length pre + 1) with (S (length pre)) in IH by lia.
    case_bool_decide as Hcmp.
    + apply (IH (length pre) x Hl' Hx).
      * intros j y Hj Hy. destruct (decide (j = length pre)) as [-> | Hne].
        -- rewrite Hx in Hy. injection Hy as <-. apply Qcle_refl.
        -- apply Qclt_le_weak. apply (Qcle_lt_trans _ bv); [|assumption].
           apply (Hle j y); [lia | assumption].
      * intros j y Hj Hy. apply (Qcle_lt_trans _ bv); [|assumption].
        apply (Hle j y); assumption.
    + apply (IH best bv Hl' Hbest); [|assumption].
      intros j y Hj Hy. destruct (decide (j = length pre)) as [-> | Hne].
      * rewrite Hx in Hy. injection Hy as <-. apply Qcnot_lt_le. assumption.
      * apply (Hle j y); [lia | assumption].
Qed.

Lemma argmax_spec (v : jnp.vector) :
  v <> [] ->
  exists top,
    v !! jnp.argmax v = Some top /\
    (forall j y, v !! j = Some y -> (y <= top)%Qc) /\
    (forall j y, j < jnp.argmax v -> v !! j = Some y -> (y < top)%Qc).
Proof.
  destruct v as [| x v]; [congruence|]. intros _. unfold jnp.argmax.
  apply (argmax_from_spec (x :: v) v [x] 0 x); try reflexivity.
  - intros j y Hj Hy. destruct j; [|cbn in Hj; lia].
    injection Hy as <-. apply Qcle_refl.
  - intros j y Hj. lia.
Qed.

(** X13: when the quantiles at the proposed fractions and the quantiles at
    their midpoints interleave strictly (the quantile function is
    increasing), every entry of the gradient that [_loss_cum_p]
    multiplies with the fractions is twice the quantile at the fraction
    minus the two neighbouring midpoint quantiles. *)
Theorem fraction_grad_interleaved (quantile quantile_prime : jnp.vector) :
  length quantile_prime = S (length quantile) ->
  (forall i x lo hi,
     quantile !! i = Some x -> quantile_prime !! i = Some lo ->
     quantile_prime !! S i = Some hi -> (lo < x)%Qc /\ (x < hi)%Qc) ->
  length (FQF.fraction_grad quantile quantile_prime) = length quantile /\
  forall i x lo hi,
    quantile !! i = Some x -> quantile_prime !! i = Some lo ->
    quantile_prime !! S i = Some hi ->
    FQF.fraction_grad quantile quantile_prime !! i
      = Some (x - lo + (x - hi))%Qc.
Proof.
  intros Hlen Hinter. unfold FQF.fraction_grad. split.
  - rewrite !length_zip_with.
    unfold jnp.but_last, jnp.but_first, jnp.first_only, jnp.last_only.
    rewrite !length_app, !length_take, !length_drop. lia.
  - intros i x lo hi Hx Hlo Hhi.
    pose proof (lookup_lt_Some _ _ _ Hx) as Hi.
    destruct (Hinter i x lo hi Hx Hlo Hhi) as [Hlox Hxhi].
    assert (Hval1 : zip_with Qcminus quantile (jnp.but_last quantile_prime) !! i
                    = Some (x - lo)%Qc).
    { rewrite lookup_zip_with, Hx. cbn. unfold jnp.but_last.
      rewrite lookup_take_lt by lia. rewrite Hlo. reflexivity. }
    assert (Hval2 : zip_with Qcminus quantile (jnp.but_first quantile_prime) !! i
                    = Some (x - hi)%Qc).
    { rewrite lookup_zip_with, Hx. cbn. unfold jnp.but_first.
      rewrite lookup_drop. cbn. rewrite Hhi. reflexivity. }
    assert (Hsign1 :
      zip_with (fun x y => bool_decide (y < x)%Qc) quantile
        (jnp.first_only quantile_prime ++ jnp.but_last quantile) !! i
      = Some true).
    { rewrite lookup_zip_with, Hx. cbn.
      unfold jnp.first_only, jnp.but_last.
      destruct i as [| i].
      - rewrite lookup_app_l by (rewrite length_take; lia).
        rewrite lookup_take_lt by lia. rewrite Hlo. cbn.
        rewrite bool_decide_eq_true_2 by assumption. reflexivity.
      - rewrite lookup_app_r by (rewrite length_take; lia).
        rewrite length_take.
        replace (S i - 1 `min` length quantile_prime) with i by lia.
        rewrite lookup_take_lt by lia.
        destruct (lookup_lt_is_Some_2 quantile i) as [x' Hx']; [lia|].
        destruct (lookup_lt_is_Some_2 quantile_prime i) as [lo' Hlo']; [lia|].
        rewrite Hx'. cbn.
        destruct (Hinter i x' lo' lo Hx' Hlo' Hlo) as [_ Hx'lo].
        rewrite bool_decide_eq_true_2; [reflexivity|].
        apply (Qclt_trans _ lo); assumption. }
    assert (Hsign2 :
      zip_with (fun x y => bool_decide (x < y)%Qc) quantile
        (jnp.but_first quantile ++ jnp.last_only quantile_prime) !! i
      = Some true).
    { rewrite lookup_zip_with, Hx. cbn.
      unfold jnp.but_first, jnp.last_only.
      destruct (decide (S i < length quantile)) as [Hin | Hlast].
      - rewrite lookup_app_l by (rewrite length_drop; lia).
        rewrite lookup_drop. cbn.
        destruct (lookup_lt_is_Some_2 quantile (S i)) as [x' Hx']; [lia|].
        destruct (lookup_lt_is_Some_2 quantile_prime (S (S i))) as [hi' Hhi'];
          [lia|].
        rewrite Hx'. cbn.
        destruct (Hinter (S i) x' hi hi' Hx' Hhi Hhi') as [Hhix' _].
        rewrite bool_decide_eq_true_2; [reflexivity|].
        apply (Qclt_trans _ hi); assumption.
      - rewrite lookup_app_r by (rewrite length_drop; lia).
        rewrite length_drop, lookup_drop.
        replace (length quantile_prime - 1 + (i - (length quantile - 1)))
          with (S i) by lia.
        rewrite Hhi. cbn.
        rewrite bool_decide_eq_true_2 by assumption. reflexivity. }
    revert Hval1 Hval2 Hsign1 Hsign2.
    generalize (zip_with Qcminus quantile (jnp.but_last quantile_prime)).
    generalize (zip_with Qcminus quantile (jnp.but_first quantile_prime)).
    generalize (zip_with (fun x y => bool_decide (y < x)%Qc) quantile
                  (jnp.first_only quantile_prime ++ jnp.but_last quantile)).
    generalize (zip_with (fun x y => bool_decide (x < y)%Qc) quantile
                  (jnp.but_first quantile ++ jnp.last_only quantile_prime)).
    intros sign2 sign1 val2 val1 Hval1 Hval2 Hsign1 Hsign2.
    rewrite !lookup_zip_with, Hsign1, Hval1, Hsign2, Hval2. reflexivity.
Qed.

(** ** [FQF._forward], [FQF.__init__] and [FQF.update] *)

Section FQF_more.
Context `{Haiku, Gym}.
Context {States Actions Weight Feature Opt OptState NetFn BufferState : Type}.
Variable buffer_sample :
  BufferState -> Z -> (Weight * @FQF.batch States Actions) * BufferState.
Variable buffer_update_priority : BufferState -> jnp.matrix -> BufferState.
Variable net_feature_apply : optim.pytree -> States -> Feature.
Variable net_quantile_apply :
  optim.pytree -> Feature -> jnp.matrix -> jnp.tensor3.
Variable cum_p_net_apply : optim.pytree -> Feature -> jnp.matrix * jnp.matrix.
Variable cum_p_net_init : Key -> Feature -> optim.pytree.
Variable get_quantile_at_action : jnp.tensor3 -> Actions -> jnp.matrix.
Variable actions_of_argmax : list nat -> Actions.
Variable quantile_loss : jnp.tensor3 -> jnp.matrix -> Weight -> string -> Qc.
Variable DiscreteImplicitQuantileFunction : Space -> list Z -> bool -> NetFn.
Variable make_quantile_nerwork :
  Rng -> Space -> Space -> NetFn -> Z -> (optim.pytree * Feature) * Rng.
Variable optix_adam : Qc -> Qc -> (optim.pytree -> OptState) * Opt.
Variable optix_rmsprop : Qc -> (optim.pytree -> OptState) * Opt.
Variable grad : forall Aux, (optim.pytree -> result (Qc * Aux)) ->
                            optim.pytree -> optim.pytree.
Variable clip_gradient_norm : optim.pytree -> Qc -> optim.pytree.
Variable opt_update : Opt -> optim.pytree -> OptState -> optim.pytree * OptState.
Variable apply_updates : optim.pytree -> optim.pytree -> optim.pytree.
Variable QLearning__init__ :
  @FQF.kwargs _ NetFn -> result (@FQF.inherited _ BufferState).

Local Abbreviation fqf_forward :=
  (FQF._forward net_feature_apply net_quantile_apply cum_p_net_apply).

(** X14: [_forward] needs the ["feature"] and the ["quantile"] entry of the
    parameters: the exception of the first missing entry is raised.
    With both entries it returns one action for every row of expected
    quantile values, and for a row that is not empty this action is in
    range, no action has a larger value, and every action before it has
    a strictly smaller one. *)
Theorem forward_greedy params_cum_p params state :
  (forall ex,
     (_ ← optim.getitem params "feature"; optim.getitem params "quantile")
       = raise ex ->
     fqf_forward params_cum_p params state = raise ex) /\
  (forall pf pq,
     optim.getitem params "feature" = ok pf ->
     optim.getitem params "quantile" = ok pq ->
     let feature := net_feature_apply pf state in
     let q_s :=
       FQF.expected_q (fst (cum_p_net_apply params_cum_p feature))
         (net_quantile_apply pq feature
            (snd (cum_p_net_apply params_cum_p feature))) in
     exists actions,
       fqf_forward params_cum_p params state = ok actions /\
       length actions = length q_s /\
       forall b a row,
         actions !! b = Some a -> q_s !! b = Some row -> row <> [] ->
         exists top,
           row !! a = Some top /\
           (forall j y, row !! j = Some y -> (y <= top)%Qc) /\
           (forall j y, j < a -> row !! j = Some y -> (y < top)%Qc)).
Proof.
  unfold FQF._forward. split.
  - intros ex Hex.
    destruct (optim.getitem params "feature") as [ex1 | pf]; cbn in *.
    + injection Hex as ->. reflexivity.
    + destruct (cum_p_net_apply _ _) as [c c']. rewrite Hex. reflexivity.
  - intros pf pq Hf Hq. cbv zeta. rewrite Hf. cbn.
    destruct (cum_p_net_apply _ _) as [c c']. rewrite Hq. cbn.
    eexists. split; [reflexivity|]. split; [apply length_fmap|].
    intros b a row Ha Hrow Hne. unfold FQF.expected_q in *. cbn in Hrow.
    rewrite list_lookup_fmap, Hrow in Ha. injection Ha as <-.
    apply argmax_spec. assumption.
Qed.

Local Abbreviation fqf_init :=
  (FQF.__init__ (Opt:=Opt) (OptState:=OptState) cum_p_net_init
     DiscreteImplicitQuantileFunction make_quantile_nerwork optix_adam
     optix_rmsprop QLearning__init__).

(** X15: with an accepted [loss_type] and a base-class constructor that
    returns, [FQF.__init__] with [batch_size = 0] raises
    [ZeroDivisionError]: the epsilon of the Adam optimiser is
    [0.01 / batch_size]. *)
Theorem fqf_init_zero_batch_size (a : FQF.kwargs) super :
  FQF.kw_loss_type a = "l2"%string \/ FQF.kw_loss_type a = "huber"%string ->
  QLearning__init__ a = ok super ->
  FQF.kw_batch_size a = 0%Z ->
  fqf_init a = raise ZeroDivisionError.
Proof.
  intros Hl Hsuper Hbatch. unfold FQF.__init__.
  apply loss_type_check in Hl. rewrite Hl, Hsuper. cbn.
  destruct (make_quantile_nerwork _ _ _ _ _) as [[params fake] rng1].
  rewrite Hbatch. reflexivity.
Qed.


Local Abbreviation fqf_loss :=
  (FQF._loss (Opt:=Opt) (OptState:=OptState) (BufferState:=BufferState)
     net_feature_apply net_quantile_apply cum_p_net_apply
     get_quantile_at_action actions_of_argmax quantile_loss).

Local Abbreviation fqf_loss_cum_p :=
  (FQF._loss_cum_p net_feature_apply net_quantile_apply cum_p_net_apply
     get_quantile_at_action).

Local Abbreviation fqf_optimize :=
  (FQF.optimize grad clip_gradient_norm opt_update apply_updates).

Local Abbreviation fqf_update :=
  (FQF.update buffer_sample buffer_update_priority net_feature_apply
     net_quantile_apply cum_p_net_apply get_quantile_at_action
     actions_of_argmax quantile_loss grad clip_gradient_norm opt_update
     apply_updates).

(** [self] after the first two statements of [update]: the learning step
    is counted and the buffer has been sampled. *)
Local Abbreviation sampled self st :=
  (FQF.set_super
     (FQF.set_buffer
        (FQF.mkBuffer st
           (FQF.buf_calls (FQF.buffer (FQF.super self)) ++
            [FQF.call_sample (FQF.batch_size (FQF.super self))]))
        (FQF.set_learning_step (FQF.learning_step (FQF.super self) + 1)
           (FQF.super self)))
     self).

Lemma optimize_raises {Aux} (fn_loss : optim.pytree -> result (Qc * Aux))
    opt opt_state params max_grad_norm ex :
  fn_loss params = raise ex ->
  fqf_optimize fn_loss opt opt_state params max_grad_norm = raise ex.
Proof. intros Hl. unfold FQF.optimize. rewrite Hl. reflexivity. Qed.

#[local] Arguments FQF.optimize : simpl never.
#[local] Arguments FQF._loss : simpl never.
#[local] Arguments FQF._loss_cum_p : simpl never.

Lemma update_fails_first writer self weight state action reward done
    next_state st ex :
  buffer_sample (FQF.buf_state (FQF.buffer (FQF.super self)))
    (FQF.batch_size (FQF.super self))
  = (weight, (state, action, reward, done, next_state), st) ->
  fqf_optimize
    (fun params_cum_p =>
       fqf_loss_cum_p params_cum_p (FQF.params self) state action)
    (FQF.opt_cum_p self) (FQF.opt_state_cum_p self) (FQF.params_cum_p self)
    (FQF.max_grad_norm (FQF.super self)) = raise ex ->
  fqf_update writer self = (raise ex, sampled self st).
Proof.
  intros Hsample Hcum.
  unfold FQF.update, FQF.sample.
  unfold mbind, M_bind, bind, modify, get, lift, mret, M_ret, ret. cbn.
  rewrite Hsample. cbn. rewrite Hcum. reflexivity.
Qed.

Lemma update_fails_second writer self weight state action reward done
    next_state st os_c pc lc u ex :
  buffer_sample (FQF.buf_state (FQF.buffer (FQF.super self)))
    (FQF.batch_size (FQF.super self))
  = (weight, (state, action, reward, done, next_state), st) ->
  fqf_optimize
    (fun params_cum_p =>
       fqf_loss_cum_p params_cum_p (FQF.params self) state action)
    (FQF.opt_cum_p self) (FQF.opt_state_cum_p self) (FQF.params_cum_p self)
    (FQF.max_grad_norm (FQF.super self)) = ok (os_c, pc, lc, u) ->
  fqf_optimize
    (fun params => fqf_loss self params (FQF.params_target self) pc state
                     action reward done next_state weight)
    (FQF.opt self) (FQF.opt_state self) (FQF.params self)
    (FQF.max_grad_norm (FQF.super self)) = raise ex ->
  fqf_update writer self
  = (raise ex, FQF.set_cum_p os_c pc (sampled self st)).
Proof.
  intros Hsample Hcum Hq.
  unfold FQF.update, FQF.sample.
  unfold mbind, M_bind, bind, modify, get, lift, mret, M_ret, ret. cbn.
  rewrite Hsample. cbn. rewrite Hcum. cbn.
  match goal with
  | |- context [FQF.optimize _ _ _ _ ?f ?o ?s ?q ?m] =>
      assert (E : fqf_optimize f o s q m = raise ex) by exact Hq;
      rewrite E; clear E
  end.
  reflexivity.
Qed.

(** X16: when the online parameters lack the ["feature"] or the ["quantile"]
    entry, [update] raises the exception of the lookup.  By then the
    learning step has been counted and the buffer sampled once; the
    parameters, the target parameters, the fraction-proposal parameters
    and both optimiser states are as before, and no priority was
    written. *)
Theorem fqf_update_missing_entry writer self ex :
  (_ ← optim.getitem (FQF.params self) "feature";
   optim.getitem (FQF.params self) "quantile") = raise ex ->
  exists self',
    fqf_update writer self = (raise ex, self') /\
    FQF.learning_step (FQF.super self')
      = (FQF.learning_step (FQF.super self) + 1)%Z /\
    FQF.buf_calls (FQF.buffer (FQF.super self')) =
      FQF.buf_calls (FQF.buffer (FQF.super self)) ++
      [FQF.call_sample (FQF.batch_size (FQF.super self))] /\
    FQF.params self' = FQF.params self /\
    FQF.params_target self' = FQF.params_target self /\
    FQF.params_cum_p self' = FQF.params_cum_p self /\
    FQF.opt_state self' = FQF.opt_state self /\
    FQF.opt_state_cum_p self' = FQF.opt_state_cum_p self.
Proof.
  intros Hmiss.
  destruct (buffer_sample (FQF.buf_state (FQF.buffer (FQF.super self)))
              (FQF.batch_size (FQF.super self)))
    as [[weight [[[[state action] reward] done] next_state]] st] eqn:Hsample.
  assert (Hloss : fqf_loss_cum_p (FQF.params_cum_p self) (FQF.params self)
                    state action = raise ex).
  { unfold FQF._loss_cum_p.
    destruct (optim.getitem (FQF.params self) "feature") as [ex1 | pf];
      cbn in *.
    - injection Hmiss as ->. reflexivity.
    - destruct (cum_p_net_apply _ _) as [c c']. rewrite Hmiss. reflexivity. }
  eexists. split.
  - eapply update_fails_first; [exact Hsample|].
    apply optimize_raises. exact Hloss.
  - cbn. repeat split.
Qed.

(** X17: when the online parameters are complete but the target parameters
    lack the ["feature"] entry, [update] raises the exception of that
    lookup after the fraction-proposal network has been updated: its
    parameters and optimiser state are the new ones, while the online
    parameters, their optimiser state and the target parameters are as
    before and no priority was written. *)
Theorem fqf_update_missing_target_entry writer self ex :
  FQF.has_networks (FQF.params self) ->
  optim.getitem (FQF.params_target self) "feature" = raise ex ->
  exists self' weight state action reward done next_state st os_c pc lc,
    fqf_update writer self = (raise ex, self') /\
    buffer_sample (FQF.buf_state (FQF.buffer (FQF.super self)))
      (FQF.batch_size (FQF.super self))
    = (weight, (state, action, reward, done, next_state), st) /\
    fqf_optimize
      (fun params_cum_p =>
         fqf_loss_cum_p params_cum_p (FQF.params self) state action)
      (FQF.opt_cum_p self) (FQF.opt_state_cum_p self) (FQF.params_cum_p self)
      (FQF.max_grad_norm (FQF.super self)) = ok (os_c, pc, lc, tt) /\
    FQF.params_cum_p self' = pc /\
    FQF.opt_state_cum_p self' = os_c /\
    FQF.params self' = FQF.params self /\
    FQF.opt_state self' = FQF.opt_state self /\
    FQF.params_target self' = FQF.params_target self /\
    FQF.buf_calls (FQF.buffer (FQF.super self')) =
      FQF.buf_calls (FQF.buffer (FQF.super self)) ++
      [FQF.call_sample (FQF.batch_size (FQF.super self))].
Proof.
  intros Hp Ht.
  destruct (buffer_sample (FQF.buf_state (FQF.buffer (FQF.super self)))
              (FQF.batch_size (FQF.super self)))
    as [[weight [[[[state action] reward] done] next_state]] st] eqn:Hsample.
  destruct (loss_cum_p_defined net_feature_apply net_quantile_apply
              cum_p_net_apply get_quantile_at_action (FQF.params_cum_p self)
              (FQF.params self) state action Hp) as [lc Hlc].
  destruct (optimize_defined grad clip_gradient_norm opt_update apply_updates
              (fun params_cum_p =>
                 fqf_loss_cum_p params_cum_p (FQF.params self) state action)
              (FQF.opt_cum_p self) (FQF.opt_state_cum_p self)
              (FQF.params_cum_p self) (FQF.max_grad_norm (FQF.super self))
              lc tt Hlc) as (os_c & pc & Hcum).
  assert (Hloss : fqf_loss self (FQF.params self) (FQF.params_target self) pc
                    state action reward done next_state weight = raise ex).
  { destruct Hp as (pf & pq & Hf & Hq). unfold FQF._loss.
    rewrite Hf. cbn. rewrite Ht. reflexivity. }
  eexists _, weight, state, action, reward, done, next_state, st, os_c, pc, lc.
  split.
  - eapply update_fails_second; [exact Hsample | exact Hcum |].
    apply optimize_raises. exact Hloss.
  - cbn. repeat split. exact Hcum.
Qed.


(** X18: what every call of [update] does, whether it returns or raises: the
    learning step is counted; the buffer is sampled once, and after that
    it receives at most one priority update and none when [use_per] is
    false; and the target parameters are left as they were unless
    [agent_step] is a multiple of a non-zero [update_interval_target]. *)
Theorem fqf_update_every_call writer self :
  let self' := snd (fqf_update writer self) in
  FQF.learning_step (FQF.super self')
    = (FQF.learning_step (FQF.super self) + 1)%Z /\
  (exists tail,
     FQF.buf_calls (FQF.buffer (FQF.super self')) =
       FQF.buf_calls (FQF.buffer (FQF.super self)) ++
       FQF.call_sample (FQF.batch_size (FQF.super self)) :: tail /\
     (tail = [] \/ exists a, tail = [FQF.call_update_priority a]) /\
     (FQF.use_per (FQF.super self) = false -> tail = [])) /\
  (FQF.update_interval_target (FQF.super self) = 0%Z \/
   ~ (FQF.update_interval_target (FQF.super self)
      | FQF.agent_step (FQF.super self))%Z ->
   FQF.params_target self' = FQF.params_target self).
Proof.
  cbv zeta.
  destruct (buffer_sample (FQF.buf_state (FQF.buffer (FQF.super self)))
              (FQF.batch_size (FQF.super self)))
    as [[weight [[[[state action] reward] done] next_state]] st] eqn:Hsample.
  destruct (fqf_optimize
              (fun params_cum_p =>
                 fqf_loss_cum_p params_cum_p (FQF.params self) state action)
              (FQF.opt_cum_p self) (FQF.opt_state_cum_p self)
              (FQF.params_cum_p self) (FQF.max_grad_norm (FQF.super self)))
    as [ex | [[[os_c pc] lc] u]] eqn:Hcum.
  { rewrite (update_fails_first writer self _ _ _ _ _ _ _ _ Hsample Hcum).
    cbn. split; [reflexivity|]. split; [|reflexivity].
    exists []. repeat split. left. reflexivity. }
  destruct (fqf_optimize
              (fun params => fqf_loss self params (FQF.params_target self) pc
                               state action reward done next_state weight)
              (FQF.opt self) (FQF.opt_state self) (FQF.params self)
              (FQF.max_grad_norm (FQF.super self)))
    as [ex | [[[os p] l] abs_td]] eqn:Hq.
  { rewrite (update_fails_second writer self _ _ _ _ _ _ _ _ _ _ _ _
               Hsample Hcum Hq).
    cbn. split; [reflexivity|]. split; [|reflexivity].
    exists []. repeat split. left. reflexivity. }
  destruct (update_run buffer_sample buffer_update_priority net_feature_apply
              net_quantile_apply cum_p_net_apply get_quantile_at_action
              actions_of_argmax quantile_loss grad clip_gradient_norm
              opt_update apply_updates writer self _ _ _ _ _ _ _ _ _ _ _ _ _
              _ _ Hsample Hcum Hq)
    as (r & self' & Hrun & _ & _ & _ & _ & Hstep & Hcalls & Htarget).
  rewrite Hrun. cbn [snd].
  split; [exact Hstep|]. split.
  - eexists. split; [exact Hcalls|].
    destruct (FQF.use_per (FQF.super self)).
    + split; [right; eexists; reflexivity | discriminate].
    + split; [left; reflexivity | reflexivity].
  - intros [Hzero | Hndiv].
    + rewrite Hzero in Htarget. apply Htarget.
    + destruct (Z.eq_dec (FQF.update_interval_target (FQF.super self)) 0%Z)
        as [Hzero | Hne].
      * rewrite Hzero in Htarget. apply Htarget.
      * rewrite mod__ok in Htarget by assumption. cbn in Htarget.
        destruct (Z.eqb_spec
                    (FQF.agent_step (FQF.super self)
                     mod FQF.update_interval_target (FQF.super self)) 0)
          as [E | _]; [|apply Htarget].
        apply Z.mod_divide in E; [contradiction | assumption].
Qed.

Lemma update_run_writer writer self weight state action reward done
    next_state st os_c pc lc u os p l abs_td w' :
  buffer_sample (FQF.buf_state (FQF.buffer (FQF.super self)))
    (FQF.batch_size (FQF.super self))
  = (weight, (state, action, reward, done, next_state), st) ->
  fqf_optimize
    (fun params_cum_p =>
       fqf_loss_cum_p params_cum_p (FQF.params self) state action)
    (FQF.opt_cum_p self) (FQF.opt_state_cum_p self) (FQF.params_cum_p self)
    (FQF.max_grad_norm (FQF.super self)) = ok (os_c, pc, lc, u) ->
  fqf_optimize
    (fun params => fqf_loss self params (FQF.params_target self) pc state
                     action reward done next_state weight)
    (FQF.opt self) (FQF.opt_state self) (FQF.params self)
    (FQF.max_grad_norm (FQF.super self)) = ok (os, p, l, abs_td) ->
  fst (fqf_update writer self) = ok w' ->
  w' = match writer with
       | None => None
       | Some wr =>
           let n := (FQF.learning_step (FQF.super self) + 1)%Z in
           if (n mod 1000 =? 0)%Z then
             Some (wr ++ [("loss/q"%string, l, n);
                          ("loss/cum_p"%string, lc, n)])
           else Some wr
       end.
Proof.
  intros Hsample Hcum Hq.
  unfold FQF.update, FQF.sample, FQF.update_priority.
  unfold mbind, M_bind, bind, modify, get, lift, mret, M_ret, ret. cbn.
  rewrite Hsample. cbn. rewrite Hcum. cbn.
  match goal with
  | |- context [FQF.optimize _ _ _ _ ?f ?o ?s ?q ?m] =>
      assert (E : fqf_optimize f o s q m = ok (os, p, l, abs_td)) by exact Hq;
      rewrite E; clear E
  end.
  cbn.
  destruct (FQF.use_per (FQF.super self)); cbn;
    (destruct (mod_ _ _) as [ex | m]; cbn; [discriminate|]);
    (destruct (m =? 0)%Z; cbn;
     [destruct (FQF._update_target _ _ _) as [ex | new_target]; cbn;
      [discriminate|] |]);
    destruct writer as [wr|]; cbn;
    try destruct (_ =? 0)%Z; cbn;
    intros E; injection E as <-; reflexivity.
Qed.

(** X19: when [update] returns, the writer has received the two scalars
    ["loss/q"] and ["loss/cum_p"] - the losses of the two optimiser
    steps, tagged with the new learning step - if a writer was passed
    and the new learning step is a multiple of 1000, and nothing
    otherwise; without a writer there is none afterwards.  Off the
    schedule of the target network [update] does return. *)
Theorem fqf_update_writer writer self :
  FQF.has_networks (FQF.params self) ->
  FQF.has_networks (FQF.params_target self) ->
  exists weight state action reward done next_state st
         os_c pc loss_cum_p os p loss abs_td,
    buffer_sample (FQF.buf_state (FQF.buffer (FQF.super self)))
      (FQF.batch_size (FQF.super self))
    = (weight, (state, action, reward, done, next_state), st) /\
    fqf_optimize
      (fun params_cum_p =>
         fqf_loss_cum_p params_cum_p (FQF.params self) state action)
      (FQF.opt_cum_p self) (FQF.opt_state_cum_p self) (FQF.params_cum_p self)
      (FQF.max_grad_norm (FQF.super self)) = ok (os_c, pc, loss_cum_p, tt) /\
    fqf_optimize
      (fun params => fqf_loss self params (FQF.params_target self) pc state
                       action reward done next_state weight)
      (FQF.opt self) (FQF.opt_state self) (FQF.params self)
      (FQF.max_grad_norm (FQF.super self)) = ok (os, p, loss, abs_td) /\
    (forall w',
       fst (fqf_update writer self) = ok w' ->
       w' = match writer with
            | None => None
            | Some wr =>
                let n := (FQF.learning_step (FQF.super self) + 1)%Z in
                if (n mod 1000 =? 0)%Z then
                  Some (wr ++ [("loss/q"%string, loss, n);
                               ("loss/cum_p"%string, loss_cum_p, n)])
                else Some wr
            end) /\
    (FQF.update_interval_target (FQF.super self) <> 0%Z ->
     ~ (FQF.update_interval_target (FQF.super self)
        | FQF.agent_step (FQF.super self))%Z ->
     exists w', fst (fqf_update writer self) = ok w').
Proof.
  intros Hp Ht.
  destruct (buffer_sample (FQF.buf_state (FQF.buffer (FQF.super self)))
              (FQF.batch_size (FQF.super self)))
    as [[weight [[[[state action] reward] done] next_state]] st] eqn:Hsample.
  destruct (update_steps_defined net_feature_apply net_quantile_apply
              cum_p_net_apply get_quantile_at_action actions_of_argmax
              quantile_loss grad clip_gradient_norm opt_update apply_updates
              self weight state action reward done next_state Hp Ht)
    as (os_c & pc & lc & os & p & l & pq & feature & cum_p_prime & nq
        & Hcum & _ & _ & Hq).
  cbv zeta in Hq.
  eexists weight, state, action, reward, done, next_state, st,
    os_c, pc, lc, os, p, l, _.
  split; [reflexivity|]. split; [exact Hcum|]. split; [exact Hq|]. split.
  - intros w' Hw'.
    apply (update_run_writer writer self _ _ _ _ _ _ _ _ _ _ _ _ _ _ _ _
             Hsample Hcum Hq Hw').
  - intros Hne Hndiv.
    destruct (update_run buffer_sample buffer_update_priority net_feature_apply
                net_quantile_apply cum_p_net_apply get_quantile_at_action
                actions_of_argmax quantile_loss grad clip_gradient_norm
                opt_update apply_updates writer self _ _ _ _ _ _ _ _ _ _ _ _
                _ _ _ Hsample Hcum Hq)
      as (r & self' & Hrun & _ & _ & _ & _ & _ & _ & Htarget).
    rewrite Hrun. cbn [fst].
    rewrite mod__ok in Htarget by assumption. cbn in Htarget.
    destruct (Z.eqb_spec
                (FQF.agent_step (FQF.super self)
                 mod FQF.update_interval_target (FQF.super self)) 0)
      as [E | _]; [|apply Htarget].
    apply Z.mod_divide in E; [contradiction | assumption].
Qed.

End FQF_more.

(** * Runs of the further properties on the concrete instances *)

Section more_runs.
#[local] Existing Instance example.haiku.
#[local] Existing Instance example.gym.

Lemma on_policy_step_effect_witness :
  exists r self' e',
    OnPolicyActorCritic.step example.on_policy_explore 0%Z 0%Z
      (example.on_policy_ready, 0%Z) = (ok r, (self', e')) /\
    OnPolicyActorCritic.env_step_ self' = 9%Z /\
    length (OnPolicyActorCritic.rb_appended (OnPolicyActorCritic.buffer self'))
      = 1.
Proof.
  destruct (on_policy_step_effect (H:=example.haiku) (H0:=example.gym)
              example.on_policy_explore 0%Z 0%Z example.on_policy_ready 0%Z
              5%Z eq_refl)
    as (r & self' & e' & a & lp & ns & rw & d & e1 & mask & Hstep & _ & _ & _
        & _ & Hn & _ & Hbuf & _).
  exists r, self', e'. split; [exact Hstep|]. split; [exact Hn|].
  rewrite Hbuf. reflexivity.
Defined.

Lemma on_policy_step_unset_effect_witness :
  fst (OnPolicyActorCritic.step example.on_policy_explore 0%Z 0%Z
         (example.on_policy_self, 0%Z)) = raise AttributeError.
Proof.
  pose proof (on_policy_step_unset_effect (H:=example.haiku)
                (H0:=example.gym) example.on_policy_explore 0%Z 0%Z
                example.on_policy_self 0%Z eq_refl) as Hstep.
  exact (f_equal fst Hstep).
Defined.

Lemma on_policy_one_step :
  OnPolicyActorCritic.steps example.on_policy_explore 1
    (example.on_policy_ready, 0%Z)
    (snd (OnPolicyActorCritic.step example.on_policy_explore 0%Z 0%Z
            (example.on_policy_ready, 0%Z))).
Proof.
  eapply OnPolicyActorCritic.steps_S with (state := 0%Z) (t0 := 0%Z);
    [apply OnPolicyActorCritic.steps_O|].
  vm_compute. reflexivity.
Defined.

Lemma on_policy_steps_count_witness :
  OnPolicyActorCritic.env_step_
    (fst (snd (OnPolicyActorCritic.step example.on_policy_explore 0%Z 0%Z
                 (example.on_policy_ready, 0%Z)))) = (8 + 1)%Z /\
  exists b : bool,
    OnPolicyActorCritic.is_update
      (fst (snd (OnPolicyActorCritic.step example.on_policy_explore 0%Z 0%Z
                   (example.on_policy_ready, 0%Z)))) = ok b /\
    (b = true <-> (4 | 8 + 1)%Z).
Proof.
  destruct (on_policy_steps_count (H:=example.haiku) (H0:=example.gym)
              example.on_policy_explore 1 example.on_policy_ready 0%Z _
              on_policy_one_step)
    as (Hn & _ & Hupd).
  split; [exact Hn|]. apply Hupd. discriminate.
Defined.

Lemma off_policy_is_update_schedule_witness :
  exists b : bool,
    OffPolicyAlgorithm.is_update
      (OffPolicyAlgorithm.agent example.off_policy_late_world) = ok b /\
    (b = true <-> (2 | 5)%Z /\ (5 <= 5)%Z).
Proof.
  destruct (off_policy_is_update_schedule (H:=example.haiku) (H0:=example.gym)
              (OffPolicyAlgorithm.agent example.off_policy_late_world))
    as [_ Hsched].
  apply Hsched. discriminate.
Defined.

Lemma off_policy_init_outcome_witness :
  OffPolicyAlgorithm.__init__ 100%Z 0%Z 0%Z 42%Z (Q2Qc (99 # 100)) 3%Z
    10%Z true 32%Z 5%Z 0%Z = raise ZeroDivisionError /\
  OffPolicyAlgorithm.__init__ 100%Z 0%Z 0%Z 42%Z 0%Qc (-1)%Z
    10%Z false 32%Z 5%Z 2%Z = raise ZeroDivisionError /\
  (exists self,
     OffPolicyAlgorithm.__init__ 100%Z 0%Z 0%Z 42%Z (Q2Qc (99 # 100)) 3%Z
       10%Z true 32%Z 5%Z 2%Z = ok self) /\
  OffPolicyAlgorithm.env_step_ example.per_self = 0%Z /\
  Algorithm.learning_step (OffPolicyAlgorithm.base example.per_self) = 0%Z /\
  OffPolicyAlgorithm.buf_appended (OffPolicyAlgorithm.buffer example.per_self)
  = [].
Proof.
  split; [|split; [|split]].
  - destruct (off_policy_init_outcome (H:=example.haiku) (H0:=example.gym)
                100%Z 0%Z 0%Z 42%Z (Q2Qc (99 # 100)) 3%Z 10%Z true 32%Z 5%Z
                0%Z) as (Hzero & _).
    apply Hzero; reflexivity.
  - destruct (off_policy_init_outcome (H:=example.haiku) (H0:=example.gym)
                100%Z 0%Z 0%Z 42%Z 0%Qc (-1)%Z 10%Z false 32%Z 5%Z
                2%Z) as (_ & Hpow & _).
    apply Hpow.
    + intros Hper. discriminate Hper.
    + reflexivity.
    + reflexivity.
    + vm_compute. split; reflexivity.
  - destruct (off_policy_init_outcome (H:=example.haiku) (H0:=example.gym)
                100%Z 0%Z 0%Z 42%Z (Q2Qc (99 # 100)) 3%Z 10%Z true 32%Z 5%Z
                2%Z) as (_ & _ & Hok & _).
    apply Hok.
    + intros _. split; [discriminate | vm_compute; split; reflexivity].
    + vm_compute. discriminate.
    + vm_compute. discriminate.
    + vm_compute. discriminate.
    + vm_compute. split; reflexivity.
  - destruct (off_policy_init_outcome (H:=example.haiku) (H0:=example.gym)
                100%Z 0%Z 0%Z 42%Z (Q2Qc (99 # 100)) 3%Z 10%Z true 32%Z 5%Z
                2%Z) as (_ & _ & _ & Hnew).
    destruct (Hnew example.per_self) as (_ & _ & Hnew').
    + reflexivity.
    + exact Hnew'.
Defined.

Lemma off_policy_warm_up_step_effect_witness :
  exists r w',
    OffPolicyAlgorithm.step example.explore 0%Z 0%Z example.off_policy_world
      = (ok r, w') /\
    OffPolicyAlgorithm.env_step_ (OffPolicyAlgorithm.agent w') = (0 + 1)%Z /\
    Algorithm.rng (OffPolicyAlgorithm.base (OffPolicyAlgorithm.agent w'))
      = 42%Z.
Proof.
  destruct (off_policy_warm_up_step_effect (H:=example.haiku)
              (H0:=example.gym) example.explore 0%Z 0%Z
              example.off_policy_world)
    as (r & w' & a & ns & rw & d & e1 & e2 & mask & Hstep & _ & _ & _ & _
        & Hn & _ & Hrng & _).
  - vm_compute. discriminate.
  - exists r, w'. split; [exact Hstep|]. split; [exact Hn | exact Hrng].
Defined.

Lemma off_policy_step_explore_raises_witness :
  exists w',
    OffPolicyAlgorithm.step example.explore_fails 0%Z 0%Z
      example.off_policy_late_world = (raise ValueError, w') /\
    OffPolicyAlgorithm.env w' = 0%Z /\
    OffPolicyAlgorithm.calls w' = [OffPolicyAlgorithm.call_explore 0%Z].
Proof.
  destruct (off_policy_step_explore_raises (H:=example.haiku)
              (H0:=example.gym) example.explore_fails 0%Z 0%Z
              example.off_policy_late_world ValueError
              (OffPolicyAlgorithm.counted
                 (OffPolicyAlgorithm.agent example.off_policy_late_world)))
    as (w' & Hstep & _ & Henv & Hcalls).
  - vm_compute. reflexivity.
  - reflexivity.
  - exists w'. split; [exact Hstep|]. split; [exact Henv | exact Hcalls].
Defined.

Lemma off_policy_one_step :
  OffPolicyAlgorithm.steps example.explore 1 example.off_policy_world
    (snd (OffPolicyAlgorithm.step example.explore 0%Z 0%Z
            example.off_policy_world)).
Proof.
  eapply OffPolicyAlgorithm.steps_S with (state := 0%Z) (t0 := 0%Z);
    [apply OffPolicyAlgorithm.steps_O|].
  vm_compute. reflexivity.
Defined.

Lemma off_policy_warm_up_steps_witness :
  OffPolicyAlgorithm.env_step_
    (OffPolicyAlgorithm.agent
       (snd (OffPolicyAlgorithm.step example.explore 0%Z 0%Z
               example.off_policy_world))) = (0 + 1)%Z /\
  OffPolicyAlgorithm.is_update
    (OffPolicyAlgorithm.agent
       (snd (OffPolicyAlgorithm.step example.explore 0%Z 0%Z
               example.off_policy_world))) <> ok true.
Proof.
  destruct (off_policy_warm_up_steps (H:=example.haiku) (H0:=example.gym)
              example.explore 1 example.off_policy_world _
              off_policy_one_step)
    as (Hn & _ & _ & _ & Hupd).
  - vm_compute. discriminate.
  - split; [exact Hn|]. apply Hupd. vm_compute. reflexivity.
Defined.

Lemma actor_critic_one_step :
  OffPolicyAlgorithm.steps
    (OffPolicyActorCritic.explore example.actor_explore 3%Z) 1
    example.off_policy_late_world
    (snd (OffPolicyAlgorithm.step
            (OffPolicyActorCritic.explore example.actor_explore 3%Z)
            0%Z 0%Z example.off_policy_late_world)).
Proof.
  eapply OffPolicyAlgorithm.steps_S with (state := 0%Z) (t0 := 0%Z);
    [apply OffPolicyAlgorithm.steps_O|].
  vm_compute. reflexivity.
Defined.

Lemma actor_critic_steps_schedule_witness :
  exists b : bool,
    OffPolicyAlgorithm.is_update
      (OffPolicyAlgorithm.agent
         (snd (OffPolicyAlgorithm.step
                 (OffPolicyActorCritic.explore example.actor_explore 3%Z)
                 0%Z 0%Z example.off_policy_late_world))) = ok b /\
    (b = true <-> (2 | 5 + 1)%Z /\ (5 <= 5 + 1)%Z).
Proof.
  destruct (actor_critic_steps_schedule (H:=example.haiku) (H0:=example.gym)
              example.actor_explore 3%Z 1 example.off_policy_late_world _
              actor_critic_one_step)
    as (_ & _ & Hupd).
  apply Hupd. discriminate.
Defined.

Lemma rand_in_range (g : Z) :
  (0 <= fst (example.np_random_rand g))%Qc /\
  (fst (example.np_random_rand g) < 1)%Qc.
Proof. split; [discriminate | reflexivity]. Defined.

Lemma q_learning_epsilon_extremes_witness :
  QLearning.explore example.np_random_rand example.space_sample example.greedy
    (example.q_self_eps 0%Qc) 3%Z 0%Z 10%Z = (3%Z, 11%Z) /\
  QLearning.explore example.np_random_rand example.space_sample example.greedy
    (example.q_self_eps 1%Qc) 3%Z 0%Z 10%Z = (0%Z, 12%Z).
Proof.
  split.
  - destruct (q_learning_epsilon_extremes (H:=example.haiku) (H0:=example.gym)
                example.np_random_rand example.space_sample example.greedy
                rand_in_range (example.q_self_eps 0%Qc) 3%Z 0%Z 10%Z)
      as (Hgreedy & _).
    apply Hgreedy. discriminate.
  - destruct (q_learning_epsilon_extremes (H:=example.haiku) (H0:=example.gym)
                example.np_random_rand example.space_sample example.greedy
                rand_in_range (example.q_self_eps 1%Qc) 3%Z 0%Z 10%Z)
      as (_ & Hrandom & _).
    apply Hrandom. discriminate.
Defined.

Lemma fraction_grad_interleaved_witness :
  FQF.fraction_grad [Q2Qc 2] [1%Qc; Q2Qc 3] !! 0
  = Some (Q2Qc 2 - 1 + (Q2Qc 2 - Q2Qc 3))%Qc.
Proof.
  destruct (fraction_grad_interleaved [Q2Qc 2] [1%Qc; Q2Qc 3]) as [_ Hgrad].
  - reflexivity.
  - intros [| i] x lo hi Hx Hlo Hhi; [|discriminate].
    injection Hx as <-. injection Hlo as <-. injection Hhi as <-.
    split; reflexivity.
  - apply Hgrad; reflexivity.
Defined.

Lemma forward_greedy_witness :
  exists actions,
    example.fqf_forward (optim.Leaf [0%Qc]) example.fqf_params 0%Z
      = ok actions /\
    length actions = 1.
Proof.
  destruct (forward_greedy example.net_feature_apply
              example.net_quantile_apply example.cum_p_net_apply
              (optim.Leaf [0%Qc]) example.fqf_params 0%Z) as [_ Hgreedy].
  destruct (Hgreedy (optim.Leaf [1%Qc]) (optim.Leaf [Q2Qc 2]) eq_refl eq_refl)
    as (actions & Hforward & Hlen & _).
  exists actions. split; [exact Hforward | exact Hlen].
Defined.

Lemma fqf_init_zero_batch_size_witness :
  FQF.__init__ (H:=example.haiku) (H0:=example.gym) example.cum_p_net_init
    (fun _ _ _ => tt) example.make_quantile_nerwork
    (fun lr _ => example.optix lr) example.optix example.QLearning__init__
    example.fqf_kwargs_zero_batch = raise ZeroDivisionError.
Proof.
  apply (fqf_init_zero_batch_size (H:=example.haiku) (H0:=example.gym)
           example.cum_p_net_init (fun _ _ _ => tt)
           example.make_quantile_nerwork (fun lr _ => example.optix lr)
           example.optix example.QLearning__init__
           example.fqf_kwargs_zero_batch example.fqf_super).
  - right. reflexivity.
  - reflexivity.
  - reflexivity.
Defined.

Lemma fqf_update_missing_entry_witness :
  exists self',
    example.fqf_update None example.fqf_self_no_params
      = (raise KeyError, self') /\
    FQF.params_cum_p self' = optim.Leaf [0%Qc].
Proof.
  destruct (fqf_update_missing_entry (H:=example.haiku) example.buffer_sample
              example.buffer_update_priority example.net_feature_apply
              example.net_quantile_apply example.cum_p_net_apply
              example.get_quantile_at_action (fun a : list nat => a)
              example.quantile_loss example.grad (fun g _ => g)
              example.opt_update (fun p _ => p) None
              example.fqf_self_no_params KeyError eq_refl)
    as (self' & Hrun & _ & _ & _ & _ & Hpc & _).
  exists self'. split; [exact Hrun | exact Hpc].
Defined.

Lemma fqf_update_missing_target_entry_witness :
  exists self',
    example.fqf_update None example.fqf_self_no_target
      = (raise KeyError, self') /\
    FQF.params self' = example.fqf_params.
Proof.
  destruct (fqf_update_missing_target_entry (H:=example.haiku)
              example.buffer_sample example.buffer_update_priority
              example.net_feature_apply example.net_quantile_apply
              example.cum_p_net_apply example.get_quantile_at_action
              (fun a : list nat => a) example.quantile_loss example.grad
              (fun g _ => g) example.opt_update (fun p _ => p) None
              example.fqf_self_no_target KeyError has_networks_fqf_params
              eq_refl)
    as (self' & weight & state & action & reward & done & next_state & st
        & os_c & pc & lc & Hrun & _ & _ & _ & _ & Hp & _).
  exists self'. split; [exact Hrun | exact Hp].
Defined.

Lemma fqf_update_every_call_witness :
  FQF.params_target (snd (example.fqf_update None example.fqf_self_999))
  = example.fqf_params.
Proof.
  destruct (fqf_update_every_call (H:=example.haiku) example.buffer_sample
              example.buffer_update_priority example.net_feature_apply
              example.net_quantile_apply example.cum_p_net_apply
              example.get_quantile_at_action (fun a : list nat => a)
              example.quantile_loss example.grad (fun g _ => g)
              example.opt_update (fun p _ => p) None example.fqf_self_999)
    as (_ & _ & Htarget).
  apply Htarget. right. intros [k Hk]. cbn in Hk. lia.
Defined.

Lemma fqf_update_writer_witness :
  exists loss loss_cum_p,
    fst (example.fqf_update (Some []) example.fqf_self_999)
    = ok (Some [("loss/q"%string, loss, 1000%Z);
                ("loss/cum_p"%string, loss_cum_p, 1000%Z)]).
Proof.
  destruct (fqf_update_writer (H:=example.haiku) example.buffer_sample
              example.buffer_update_priority example.net_feature_apply
              example.net_quantile_apply example.cum_p_net_apply
              example.get_quantile_at_action (fun a : list nat => a)
              example.quantile_loss example.grad (fun g _ => g)
              example.opt_update (fun p _ => p) (Some [])
              example.fqf_self_999 has_networks_fqf_params
              has_networks_fqf_params)
    as (weight & state & action & reward & done & next_state & st & os_c
        & pc & lc & os & p & l & abs_td & _ & _ & _ & Hw & Hret).
  destruct Hret as [w' Hw'].
  - cbn. discriminate.
  - intros [k Hk]. cbn in Hk. lia.
  - exists l, lc. unfold example.fqf_update. rewrite Hw'.
    rewrite (Hw w' Hw'). reflexivity.
Defined.

End more_runs.
